(** * HQEC_Tesseract: noise-parameter sweeps over the HaPPY code

    A shallow embedding of the two driver scripts

      - [Examples/Tensor_Network_Decoding/Multi_Logical_Decoding/max_rate_multi_logical_HaPPY_TN.py]
        ([scan_success_rates]), and
      - [Examples/reproducing_figs.py]
        ([generate_data_fig6a], [generate_data_fig6b], [plot_results]),

    together with the properties their specification states about them.

    Numbers are Python floats, that is IEEE 754 binary64: they are embedded as
    Rocq's primitive floats, which are binary64 with round-to-nearest-even, so
    every arithmetic step of the scripts is evaluated bit for bit.  The
    collaborators of the [LEGO_HQEC] package (code construction, operator
    pushing, extraction, the two decoders) are opaque: they are the fields of
    a record the sweeps are parameterised by.  Printing, plotting and calls to
    the collaborators are recorded in an event trace. *)

From Stdlib Require Import ZArith List Lia Bool.
From Stdlib Require Import Floats.PrimFloat Floats.FloatOps Floats.SpecFloat.
From Stdlib Require Import Numbers.Cyclic.Int63.Uint63.
From stdpp Require Import gmap strings list pretty.
Import ListNotations.

Set Warnings "-inexact-float".
Local Open Scope Z_scope.

(** ** Python exceptions *)

(** The built-in exceptions the scripts and numpy can raise on the paths that
    are modelled, and what a collaborator may raise. *)
Inductive exn : Type :=
  | ZeroDivisionError
  | ValueError
  | OverflowError
  | IndexError
  | TypeError
  | FileNotFoundError
  | MemoryError
  | DegenerateCodeError
  | BackendFailure (msg : string).

(** Modelled from the spec: [DegenerateCodeError] stands for the failure the
    specification calls DegenerateCodeKind, which it requires of the decoder
    backends of the absent [LEGO_HQEC] package; no line of the two scripts
    raises it. *)
Definition is_degenerate_code (e : exn) : bool :=
  match e with DegenerateCodeError => true | _ => false end.

#[global] Instance exn_eq_dec : EqDecision exn.
Proof. solve_decision. Defined.

(** A computation that either raises or returns. *)
Definition result (A : Type) : Type := exn + A.

Definition raises {A} (r : result A) : Prop := exists e, r = inl e.

(** ** Binary64 helpers *)

Module F64.

Local Open Scope float_scope.

(** Conversion of a non-negative machine integer to a double, as the C cast
    [(double) i] and Python's [float(i)] do (exact below 2^53). *)
Definition of_Z (i : Z) : float := PrimFloat.of_uint63 (Uint63.of_Z i).

Definition of_nat (i : nat) : float := of_Z (Z.of_nat i).

(** The sign bit, also of zeros. *)
Definition signbit (x : float) : bool :=
  match Prim2SF x with
  | S754_zero s | S754_infinity s | S754_finite s _ _ => s
  | S754_nan => false
  end.

(** [x == 0], true of both zeros. *)
Definition is_zero (x : float) : bool :=
  match Prim2SF x with
  | S754_zero _ => true
  | _ => false
  end.

(** [ceil x] as an integer; [None] for infinities and NaN. *)
Definition ceil (x : float) : option Z :=
  match Prim2SF x with
  | S754_zero _ => Some 0%Z
  | S754_finite s m e =>
      let n := Z.pos m in
      if (0 <=? e)%Z then
        Some (if s then - (n * 2 ^ e) else n * 2 ^ e)%Z
      else
        let d := (2 ^ (- e))%Z in
        Some (if s then - (n / d) else - ((- n) / d))%Z
  | S754_infinity _ | S754_nan => None
  end.

(** [round_half_even n d] is the integer nearest to [n / d] ([d > 0]),
    ties going to the even one. *)
Definition round_half_even (n d : Z) : Z :=
  let q := (n / d)%Z in
  let r := (n mod d)%Z in
  match (2 * r ?= d)%Z with
  | Lt => q
  | Gt => (q + 1)%Z
  | Eq => if Z.even q then q else (q + 1)%Z
  end.

(** The magnitude of a finite double times [10^prec], rounded to the nearest
    integer: the digits Python's ['%.<prec>f'] prints. *)
Definition scaled_magnitude (prec : nat) (m : positive) (e : Z) : Z :=
  let p10 := (10 ^ Z.of_nat prec)%Z in
  if (0 <=? e)%Z then (Z.pos m * 2 ^ e * p10)%Z
  else round_half_even (Z.pos m * p10) (2 ^ (- e)).

(** [k] zeros in front of [s]. *)
Fixpoint zeros_then (k : nat) (s : string) : string :=
  match k with
  | O => s
  | S k' => "0" +:+ zeros_then k' s
  end.

(** Left padding with zeros up to [w] characters. *)
Definition zero_pad (w : nat) (s : string) : string :=
  zeros_then (w - String.length s) s.

(** The decimal digits of [v] with a point before the last [prec] of them. *)
Definition fixed_digits (prec : nat) (v : Z) : string :=
  let ds := zero_pad (S prec) (pretty (Z.to_N v)) in
  let k := (String.length ds - prec)%nat in
  match prec with
  | O => ds
  | S _ => String.substring 0 k ds +:+ "." +:+ String.substring k prec ds
  end.

(** [format_fixed prec x] is Python's [format(x, '.<prec>f')]: the exact
    binary value, correctly rounded (half to even) to [prec] decimals. *)
Definition format_fixed (prec : nat) (x : float) : string :=
  match Prim2SF x with
  | S754_nan => "nan"
  | S754_infinity s => if s then "-inf" else "inf"
  | S754_zero s => (if s then "-" else "") +:+ fixed_digits prec 0
  | S754_finite s m e =>
      (if s then "-" else "") +:+ fixed_digits prec (scaled_magnitude prec m e)
  end.

(** A finite double as an exact dyadic number: [(n, e)] with value
    [n * 2^e]; [None] for infinities and NaN. *)
Definition to_dyadic (x : float) : option (Z * Z) :=
  match Prim2SF x with
  | S754_zero _ => Some (0, 0)%Z
  | S754_finite s m e => Some (if s then Z.neg m else Z.pos m, e)
  | S754_infinity _ | S754_nan => None
  end.

(** [x = n * 2^e] rescaled to the exponent [e0 <= e]: an integer. *)
Definition rescale (e0 : Z) (ne : Z * Z) : Z := (fst ne * 2 ^ (snd ne - e0))%Z.

(** Whether [stop - start] is an integer multiple of [step] as real numbers
    (no rounding): all three are brought to one exponent and compared as
    integers. *)
Definition evenly_divides (step start stop : float) : bool :=
  match to_dyadic step, to_dyadic start, to_dyadic stop with
  | Some s, Some a, Some b =>
      let e0 := Z.min (snd s) (Z.min (snd a) (snd b)) in
      negb (rescale e0 s =? 0)%Z
      && ((rescale e0 b - rescale e0 a) mod rescale e0 s =? 0)%Z
  | _, _, _ => false
  end.

(** [0 <= x <= 1] on doubles (false for NaN). *)
Definition in_unit_interval (x : float) : bool := (0 <=? x) && (x <=? 1).

End F64.

(** ** The two numpy grid constructors the scripts call *)

Module Numpy.

Local Open Scope float_scope.

(** The length [np.arange(start, stop, step)] computes for Python floats:
    [ceil((stop - start) / step)].  The division is Python's, which raises
    on a zero divisor; a quotient that underflows to zero although the
    difference is not zero gives length 0 or 1 by its sign; a NaN quotient
    is a [ValueError]; an infinite quotient, or one outside the range of a
    machine index, is an [OverflowError] inside numpy, which [arange_in]
    below turns into the [ValueError] that the caller sees. *)
Definition arange_length (start stop step : float) : result Z :=
  let delta := stop - start in
  if F64.is_zero step then inl ZeroDivisionError
  else
    let value := delta / step in
    if F64.is_zero value && negb (F64.is_zero delta) then
      inr (if F64.signbit value then 0%Z else 1%Z)
    else
      match Prim2SF value with
      | S754_nan => inl ValueError
      | S754_infinity _ => inl OverflowError
      | _ =>
          match F64.ceil value with
          | Some n =>
              if ((n <? - 2 ^ 63) || (2 ^ 63 - 1 <? n))%Z then inl OverflowError
              else inr n
          | None => inl OverflowError
          end
      end.

(** Element [i] of the array: the first is [start], the second [next],
    which is [start + step], and numpy's fill loop writes
    [start + i * (next - start)] into the others. *)
Definition arange_item (start next : float) (i : nat) : float :=
  match i with
  | O => start
  | S O => next
  | _ => start + F64.of_nat i * (next - start)
  end.

Definition arange_fill (start next : float) (len : nat) : list float :=
  map (arange_item start next) (seq 0 len).

(** [np.arange(start, stop, step)] on Python floats, where memory for an
    array of [len] doubles can be had exactly if [can_allocate len].  An
    overflow met while the length is computed is reported as [ValueError]
    ("Maximum allowed size exceeded"), and so is a length whose size in
    bytes, eight per element, is beyond a machine index; an array that
    cannot be allocated is a [MemoryError]. *)
Definition arange_in (can_allocate : Z -> bool) (start stop step : float)
    : result (list float) :=
  match arange_length start stop step with
  | inl OverflowError => inl ValueError
  | inl e => inl e
  | inr len =>
      if (len <=? 0)%Z then inr []
      else if (2 ^ 60 <=? len)%Z then inl ValueError
      else if can_allocate len
           then inr (arange_fill start (start + step) (Z.to_nat len))
           else inl MemoryError
  end.

(** [np.arange(start, stop, step)] where memory is not short: the scripts
    are run under this assumption. *)
Definition arange (start stop step : float) : result (list float) :=
  arange_in (fun _ => true) start stop step.

(** Element [i] of [np.linspace(start, stop, num)] before the end point is
    written: [i * step + start], or [(i / div) * delta + start] when the
    step underflows to zero. *)
Definition linspace_item (start delta : float) (div : Z) (i : nat) : float :=
  let step := delta / F64.of_Z div in
  if F64.is_zero step then (F64.of_nat i / F64.of_Z div) * delta + start
  else F64.of_nat i * step + start.

(** [np.linspace(start, stop, num)] with the default [endpoint=True]:
    [num] evenly spaced points, the last one set to [stop] itself. *)
Definition linspace (start stop : float) (num : Z) : result (list float) :=
  if (num <? 0)%Z then inl ValueError
  else
    let n := Z.to_nat num in
    let delta := stop - start in
    match n with
    | O => inr []
    | S O => inr [F64.of_nat 0 * delta + start]
    | S k =>
        inr (map (linspace_item start delta (num - 1)) (seq 0 k) ++ [stop])
    end.

End Numpy.

(** ** Python dictionaries keyed by the radius *)

(** [data_storage] is a Python [dict]: it is iterated in insertion order, and
    assigning to a key that is present replaces the value in place. *)
Abbreviation pydict V := (list (Z * V)).

Fixpoint dict_set {V} (k : Z) (v : V) (d : pydict V) : pydict V :=
  match d with
  | [] => [(k, v)]
  | (k', v') :: d' =>
      if (k' =? k)%Z then (k, v) :: d' else (k', v') :: dict_set k v d'
  end.

Fixpoint dict_get {V} (k : Z) (d : pydict V) : option V :=
  match d with
  | [] => None
  | (k', v') :: d' => if (k' =? k)%Z then Some v' else dict_get k d'
  end.

Definition dict_keys {V} (d : pydict V) : list Z := map fst d.

(** ** The collaborators of the [LEGO_HQEC] package *)

(** The keyword arguments of
    [tn_quantum_error_correction_decoder_multiprocess]; the last three are
    optional and [generate_data_fig6b] leaves them out. *)
Record tn_args (Code Stab Log : Type) : Type := TnArgs {
  tn_tensor_list : Code;
  tn_p : float;
  tn_rx : float;
  tn_ry : float;
  tn_rz : float;
  tn_N : Z;
  tn_n_process : Z;
  tn_stabilizers : option Stab;
  tn_logical_xs : option (list Log);
  tn_logical_zs : option (list Log)
}.

Arguments TnArgs {Code Stab Log}.
Arguments tn_tensor_list {Code Stab Log}.
Arguments tn_p {Code Stab Log}.
Arguments tn_rx {Code Stab Log}.
Arguments tn_ry {Code Stab Log}.
Arguments tn_rz {Code Stab Log}.
Arguments tn_N {Code Stab Log}.
Arguments tn_n_process {Code Stab Log}.
Arguments tn_stabilizers {Code Stab Log}.
Arguments tn_logical_xs {Code Stab Log}.
Arguments tn_logical_zs {Code Stab Log}.

(** The keyword arguments of [calculate_recovery_rates_for_p_range]. *)
Record erasure_args (Stab Log : Type) : Type := ErasureArgs {
  er_n : Z;
  er_p_start : float;
  er_p_end : float;
  er_p_step : float;
  er_stabilizers : Stab;
  er_logical_operators : list Log
}.

Arguments ErasureArgs {Stab Log}.
Arguments er_n {Stab Log}.
Arguments er_p_start {Stab Log}.
Arguments er_p_end {Stab Log}.
Arguments er_p_step {Stab Log}.
Arguments er_stabilizers {Stab Log}.
Arguments er_logical_operators {Stab Log}.

(** The imported functions.  Their code is not part of the scripts: each is
    an arbitrary function that may raise and that may read and change a
    [World] of its own (the decoders sample at random, so two calls with the
    same arguments need not agree). *)
Record Collaborators : Type := {
  World : Type;
  CodeInstance : Type;
  PushResult : Type;
  StabilizerSet : Type;
  Logical : Type;
  setup_max_rate_happy : Z -> World -> result CodeInstance * World;
  setup_zero_rate_happy : Z -> World -> result CodeInstance * World;
  batch_push : CodeInstance -> World -> result PushResult * World;
  extract_stabilizers_from_result_dict :
    PushResult -> World -> result StabilizerSet * World;
  extract_logicals_from_result_dict :
    PushResult -> World -> result (list Logical * list Logical) * World;
  calculate_recovery_rates_for_p_range :
    erasure_args StabilizerSet Logical ->
    World -> result (list (float * float)) * World;
  tn_quantum_error_correction_decoder_multiprocess :
    tn_args CodeInstance StabilizerSet Logical ->
    World -> result float * World
}.

(** ** Events *)

(** The two axes of the figure. *)
Inductive axis : Type := Ax1 | Ax2.

(** What a run does that can be observed: calls to the collaborators, each
    with its arguments and with what it returned or raised, lines printed,
    files read and matplotlib calls. *)
Inductive event (C : Collaborators) : Type :=
  | EvSetupMaxRate (R : Z) (r : result (CodeInstance C))
  | EvSetupZeroRate (R : Z) (r : result (CodeInstance C))
  | EvBatchPush (t : CodeInstance C) (r : result (PushResult C))
  | EvExtractStabilizers (d : PushResult C) (r : result (StabilizerSet C))
  | EvExtractLogicals (d : PushResult C)
      (r : result (list (Logical C) * list (Logical C)))
  | EvErasureDecoder (a : erasure_args (StabilizerSet C) (Logical C))
      (r : result (list (float * float)))
  | EvTNDecoder (a : tn_args (CodeInstance C) (StabilizerSet C) (Logical C))
      (r : result float)
  | EvPrint (line : string)
  | EvSubplots
  | EvPlot (ax : axis) (xs ys : list float) (label : string)
      (marker linestyle : option string) (color : string)
  | EvDecorate (ax : axis) (title xlabel ylabel : string)
  | EvLoadTxt (filename : string) (r : result (list float))
  | EvSaveFig (filename : string)
  | EvShow.

Arguments EvSetupMaxRate {C}.
Arguments EvSetupZeroRate {C}.
Arguments EvBatchPush {C}.
Arguments EvExtractStabilizers {C}.
Arguments EvExtractLogicals {C}.
Arguments EvErasureDecoder {C}.
Arguments EvTNDecoder {C}.
Arguments EvPrint {C}.
Arguments EvSubplots {C}.
Arguments EvPlot {C}.
Arguments EvDecorate {C}.
Arguments EvLoadTxt {C}.
Arguments EvSaveFig {C}.
Arguments EvShow {C}.

(** ** The monad of the scripts: world passing, exceptions, a trace *)

Record outcome (C : Collaborators) (A : Type) : Type := Outcome {
  res : result A;
  world_after : World C;
  emitted : list (event C)
}.

Arguments Outcome {C A}.
Arguments res {C A}.
Arguments world_after {C A}.
Arguments emitted {C A}.

Definition M (C : Collaborators) (A : Type) : Type := World C -> outcome C A.

Definition ret {C A} (a : A) : M C A :=
  fun w => Outcome (inr a) w [].

Definition raise {C A} (e : exn) : M C A :=
  fun w => Outcome (inl e) w [].

Definition bind {C A B} (m : M C A) (f : A -> M C B) : M C B :=
  fun w =>
    let o := m w in
    match res o with
    | inl e => Outcome (inl e) (world_after o) (emitted o)
    | inr a =>
        let o' := f a (world_after o) in
        Outcome (res o') (world_after o') (emitted o ++ emitted o')
    end.

(** The outcome [o] with the events [t] in front of its own. *)
Definition after {C A} (t : list (event C)) (o : outcome C A) : outcome C A :=
  Outcome (res o) (world_after o) (t ++ emitted o).

Notation "x <- m ;; k" := (bind m (fun x => k))
  (at level 200, m at level 99, k at level 200, right associativity).
Notation "m ;;; k" := (bind m (fun _ => k))
  (at level 200, k at level 200, right associativity).

(** An event with nothing else happening. *)
Definition emit {C} (ev : event C) : M C unit :=
  fun w => Outcome (inr tt) w [ev].

(** A value computed without the collaborators (a numpy call). *)
Definition lift {C A} (r : result A) : M C A :=
  fun w => Outcome r w [].

(** A call to a collaborator: it runs on the world, and the trace records
    the call together with its outcome. *)
Definition call {C A} (f : World C -> result A * World C)
    (ev : result A -> event C) : M C A :=
  fun w => let '(r, w') := f w in Outcome r w' [ev r].

(** [for x in xs: body(x)]. *)
Fixpoint for_each {C A} (xs : list A) (body : A -> M C unit) : M C unit :=
  match xs with
  | [] => ret tt
  | x :: xs' => body x ;;; for_each xs' body
  end.

(** A [for] loop whose body updates local variables [s]. *)
Fixpoint for_fold {C A S} (xs : list A) (s : S) (body : S -> A -> M C S)
    : M C S :=
  match xs with
  | [] => ret s
  | x :: xs' => s' <- body s x ;; for_fold xs' s' body
  end.

(** [enumerate(xs)]. *)
Definition enumerate {A} (xs : list A) : list (nat * A) :=
  combine (seq 0 (length xs)) xs.

Definition print {C} (line : string) : M C unit := emit (EvPrint line).

(** The line feed character. *)
Definition nl : string := String (Ascii.ascii_of_nat 10) EmptyString.

(** ** The script [max_rate_multi_logical_HaPPY_TN.py] *)

Module MaxRate.

Section Script.

Context {C : Collaborators}.

(** Line 18:
    [p_values = np.arange(p_start, p_end + p_step, p_step)]. *)
Definition noise_grid (p_start p_end p_step : float) : result (list float) :=
  Numpy.arange p_start (p_end + p_step)%float p_step.

(** The same line where memory may be short. *)
Definition noise_grid_in (can_allocate : Z -> bool)
    (p_start p_end p_step : float) : result (list float) :=
  Numpy.arange_in can_allocate p_start (p_end + p_step)%float p_step.

(** The quotient whose ceiling is the length of the grid. *)
Definition grid_quotient (p_start p_end p_step : float) : float :=
  ((p_end + p_step - p_start) / p_step)%float.

(** Line 26, the line printed once the radius is set up. *)
Definition header_line (radius : Z) (n_logical : nat) : string :=
  nl +:+ "Scanning max-rate HaPPY (R=" +:+ pretty radius +:+ ") with "
     +:+ pretty n_logical +:+ " logical qubits:".

(** Line 40, the line printed for one noise point. *)
Definition progress_line (p_depo success_rate : float) : string :=
  "  p=" +:+ F64.format_fixed 2 p_depo +:+ " -> success rate "
         +:+ F64.format_fixed 3 success_rate.

(** Lines 28 to 39: the arguments of the decoder call. *)
Definition decoder_args (tensor_list : CodeInstance C) (p_depo : float)
    (rx ry rz : float) (trials n_process : Z)
    (stabilizers : StabilizerSet C) (logical_xs logical_zs : list (Logical C))
    : tn_args (CodeInstance C) (StabilizerSet C) (Logical C) :=
  TnArgs tensor_list p_depo rx ry rz trials n_process
         (Some stabilizers) (Some logical_xs) (Some logical_zs).

(** Lines 27 to 40: the body of the loop over the noise grid. *)
Definition scan_point (tensor_list : CodeInstance C) (rx ry rz : float)
    (trials n_process : Z) (stabilizers : StabilizerSet C)
    (logical_xs logical_zs : list (Logical C)) (p_depo : float) : M C unit :=
  let a := decoder_args tensor_list p_depo rx ry rz trials n_process
                        stabilizers logical_xs logical_zs in
  success_rate <-
    call (tn_quantum_error_correction_decoder_multiprocess C a)
         (EvTNDecoder a) ;;
  print (progress_line p_depo success_rate).

(** Lines 20 to 40: the body of the loop over the radii. *)
Definition scan_radius (p_values : list float) (rx ry rz : float)
    (trials n_process : Z) (radius : Z) : M C unit :=
  tensor_list <- call (setup_max_rate_happy C radius) (EvSetupMaxRate radius) ;;
  push_results <- call (batch_push C tensor_list) (EvBatchPush tensor_list) ;;
  stabilizers <-
    call (extract_stabilizers_from_result_dict C push_results)
         (EvExtractStabilizers push_results) ;;
  logicals <-
    call (extract_logicals_from_result_dict C push_results)
         (EvExtractLogicals push_results) ;;
  let logical_zs := fst logicals in
  let logical_xs := snd logicals in
  print (header_line radius (length logical_xs)) ;;;
  for_each p_values
    (scan_point tensor_list rx ry rz trials n_process
                stabilizers logical_xs logical_zs).

(** [scan_success_rates]; it returns [None]. *)
Definition scan_success_rates (radii : list Z) (p_start p_end p_step : float)
    (trials : Z) (rx rz : float) (n_process : Z) : M C unit :=
  let ry := (1 - rx - rz)%float in
  p_values <- lift (noise_grid p_start p_end p_step) ;;
  for_each radii (scan_radius p_values rx ry rz trials n_process).

(** The defaults of the keyword arguments. *)
Definition default_trials : Z := 20.
Definition default_rx : float := (1 / 3)%float.
Definition default_rz : float := (1 / 3)%float.
Definition default_n_process : Z := 1.

(** Line 44, the call under [if __name__ == "__main__"]. *)
Definition main : M C unit :=
  scan_success_rates [0; 1] 0.00%float 0.30%float 0.05%float 100
                     default_rx default_rz 8.

End Script.

End MaxRate.

(** ** The script [reproducing_figs.py] *)

Module Figs.

Section Script.

Context {C : Collaborators}.

Definition RADII : list Z := [0; 1; 2].
Definition N_TRIALS_ERASURE : Z := 200.
Definition N_TRIALS_PAULI : Z := 200.

(** [xs[0]], which raises [IndexError] on an empty list. *)
Definition index0 {A} (xs : list A) : M C A :=
  match xs with
  | [] => raise IndexError
  | x :: _ => ret x
  end.

(** Lines 32 to 55: one radius of [generate_data_fig6a]. *)
Definition fig6a_radius
    (data_storage : pydict (list (float * float))) (R : Z)
    : M C (pydict (list (float * float))) :=
  print ("[*] Simulating Radius R=" +:+ pretty R +:+ "...") ;;;
  tensor_list <- call (setup_zero_rate_happy C R) (EvSetupZeroRate R) ;;
  results_dict <- call (batch_push C tensor_list) (EvBatchPush tensor_list) ;;
  stabilizers <-
    call (extract_stabilizers_from_result_dict C results_dict)
         (EvExtractStabilizers results_dict) ;;
  logicals <-
    call (extract_logicals_from_result_dict C results_dict)
         (EvExtractLogicals results_dict) ;;
  let logical_zs := fst logicals in
  let logical_xs := snd logicals in
  z0 <- index0 logical_zs ;;
  x0 <- index0 logical_xs ;;
  let logical_operators := [z0] ++ [x0] in
  let a := ErasureArgs N_TRIALS_ERASURE 0.01%float 0.60%float 0.04%float
                       stabilizers logical_operators in
  results <-
    call (calculate_recovery_rates_for_p_range C a) (EvErasureDecoder a) ;;
  ret (dict_set R results data_storage).

(** [generate_data_fig6a]. *)
Definition generate_data_fig6a (radii : list Z)
    : M C (pydict (list (float * float))) :=
  print (nl +:+ "--- Generating Data for Fig 6(a): Erasure Threshold ---") ;;;
  for_fold radii [] fig6a_radius.

(** Lines 69 and 70. *)
Definition rx_ratio : float := (1 / 3)%float.
Definition rz_ratio : float := (1 / 3)%float.
Definition ry_ratio : float := (1 - rx_ratio - rz_ratio)%float.

(** Line 73: [p_values = np.linspace(0.0, 0.5, 8)]. *)
Definition fig6b_grid : result (list float) := Numpy.linspace 0.0 0.5 8.

(** Lines 82 to 90: the arguments of the decoder call; no stabilizers and
    no logical operators are passed. *)
Definition fig6b_args (tensor_list : CodeInstance C) (p : float)
    : tn_args (CodeInstance C) (StabilizerSet C) (Logical C) :=
  TnArgs tensor_list p rx_ratio ry_ratio rz_ratio N_TRIALS_PAULI 4
         None None None.

(** Lines 80 to 91: one noise point; [success_rates.append((p, rate))]. *)
Definition fig6b_point (tensor_list : CodeInstance C)
    (success_rates : list (float * float)) (p : float)
    : M C (list (float * float)) :=
  print ("    Testing p=" +:+ F64.format_fixed 2 p +:+ "...") ;;;
  let a := fig6b_args tensor_list p in
  rate <-
    call (tn_quantum_error_correction_decoder_multiprocess C a)
         (EvTNDecoder a) ;;
  ret (success_rates ++ [(p, rate)]).

(** Lines 75 to 93: one radius of [generate_data_fig6b]. *)
Definition fig6b_radius (p_values : list float)
    (data_storage : pydict (list (float * float))) (R : Z)
    : M C (pydict (list (float * float))) :=
  print ("[*] Simulating Radius R=" +:+ pretty R +:+ "...") ;;;
  tensor_list <- call (setup_zero_rate_happy C R) (EvSetupZeroRate R) ;;
  success_rates <- for_fold p_values [] (fig6b_point tensor_list) ;;
  ret (dict_set R success_rates data_storage).

(** [generate_data_fig6b]. *)
Definition generate_data_fig6b (radii : list Z)
    : M C (pydict (list (float * float))) :=
  print (nl +:+ "--- Generating Data for Fig 6(b): Pauli Threshold (Depolarizing) ---") ;;;
  p_values <- lift fig6b_grid ;;
  for_fold radii [] (fig6b_radius p_values).

(** Lines 104 and 105. *)
Definition colors : list string :=
  ["tab:blue"; "tab:orange"; "tab:green"; "tab:red"].
Definition markers : list string := ["o"; "s"; "^"; "D"].

(** [xs[i % len(xs)]] on one of the two four-element lists above. *)
Definition cycle (xs : list string) (i : nat) : string :=
  nth (i mod length xs) xs "".

(** [data = np.array(d); x, y = data[:, 0], data[:, 1]]: the two columns of a
    list of pairs.  An empty list makes a one-dimensional array, and
    indexing it with two indices raises [IndexError]. *)
Definition columns (d : list (float * float))
    : M C (list float * list float) :=
  match d with
  | [] => raise IndexError
  | _ => ret (map fst d, map snd d)
  end.

(** [np.loadtxt(filename)] on the files of the working directory, each file
    a column of numbers.  A file that is not there raises. *)
Definition loadtxt (fs : gmap string (list float)) (filename : string)
    : M C (list float) :=
  let r := match fs !! filename with
           | Some column => inr column
           | None => inl FileNotFoundError
           end in
  call (fun w => (r, w)) (EvLoadTxt filename).

(** [len(tess_err)]: a file with a single number loads as a scalar array,
    which has no length. *)
Definition array_len (a : list float) : M C Z :=
  match a with
  | [_] => raise TypeError
  | _ => ret (Z.of_nat (length a))
  end.

(** Line 126: the name of the reference file of a radius. *)
Definition reference_filename (R : Z) : string :=
  "hqec_tesseract_logical_error_rates_lin_R=" +:+ pretty R +:+ ".txt".

(** Lines 107 to 110: one curve of the erasure plot. *)
Definition plot_erasure_curve (iRd : nat * (Z * list (float * float)))
    : M C unit :=
  let i := fst iRd in
  let R := fst (snd iRd) in
  xy <- columns (snd (snd iRd)) ;;
  emit (EvPlot Ax1 (fst xy) (snd xy) ("R=" +:+ pretty R)
               (Some (cycle markers i)) None (cycle colors i)).

(** Lines 120 to 129: one curve of the Pauli plot and the reference curve
    next to it. *)
Definition plot_pauli_curve (fs : gmap string (list float))
    (iRd : nat * (Z * list (float * float))) : M C unit :=
  let i := fst iRd in
  let R := fst (snd iRd) in
  xy <- columns (snd (snd iRd)) ;;
  emit (EvPlot Ax2 (fst xy) (snd xy) ("R=" +:+ pretty R)
               (Some (cycle markers i)) None (cycle colors i)) ;;;
  let filename := reference_filename R in
  tess_err <- loadtxt fs filename ;;
  n <- array_len tess_err ;;
  p_values <- lift (Numpy.linspace 0 0.5 n) ;;
  emit (EvPlot Ax2 p_values (map (fun e => (1 - e)%float) tess_err)
               ("Tesseract R=" +:+ pretty R)
               None (Some "--") (cycle colors i)).

(** The name of the image [plot_results] saves. *)
Definition figure_filename : string := "hqec_fig6_reproduction.png".

(** [plot_results]: [fs] is what the working directory holds. *)
Definition plot_results (fs : gmap string (list float))
    (erasure_data pauli_data : pydict (list (float * float))) : M C unit :=
  emit EvSubplots ;;;
  for_each (enumerate erasure_data) plot_erasure_curve ;;;
  emit (EvDecorate Ax1 "Fig 6(a): Erasure Threshold"
                   "Erasure Probability $p$" "Recovery Rate") ;;;
  for_each (enumerate pauli_data) (plot_pauli_curve fs) ;;;
  emit (EvDecorate Ax2 "Fig 6(b): Pauli Threshold (Depolarizing)"
                   "Physical Error Rate $p$" "Logical Success Rate") ;;;
  emit (EvSaveFig figure_filename) ;;;
  print (nl +:+ "[*] Plot saved to 'hqec_fig6_reproduction.png'") ;;;
  emit EvShow.

(** Lines 143 to 153, the script run as a program. *)
Definition main (fs : gmap string (list float)) : M C unit :=
  erasure_results <- generate_data_fig6a RADII ;;
  pauli_results <- generate_data_fig6b RADII ;;
  plot_results fs erasure_results pauli_results.

End Script.

End Figs.

(** ** Reading a trace *)

(** The kinds of collaborator calls. *)
Inductive call_kind : Type :=
  | Construction
  | Pushing
  | StabilizerExtraction
  | LogicalExtraction
  | ErasureDecoding
  | TNDecoding.

Section Traces.

Context {C : Collaborators}.

Definition is_call (k : call_kind) (ev : event C) : bool :=
  match k, ev with
  | Construction, (EvSetupMaxRate _ _ | EvSetupZeroRate _ _) => true
  | Pushing, EvBatchPush _ _ => true
  | StabilizerExtraction, EvExtractStabilizers _ _ => true
  | LogicalExtraction, EvExtractLogicals _ _ => true
  | ErasureDecoding, EvErasureDecoder _ _ => true
  | TNDecoding, EvTNDecoder _ _ => true
  | _, _ => false
  end.

(** How many calls of kind [k] a trace holds. *)
Definition calls (k : call_kind) (t : list (event C)) : nat :=
  length (List.filter (is_call k) t).

(** The (noise value, rate) pair of a decoder call that returned. *)
Definition decoded_pair (ev : event C) : option (float * float) :=
  match ev with
  | EvTNDecoder a (inr rate) => Some (tn_p a, rate)
  | _ => None
  end.

Definition emitted_pairs (t : list (event C)) : list (float * float) :=
  omap decoded_pair t.

Definition printed_line (ev : event C) : option string :=
  match ev with
  | EvPrint line => Some line
  | _ => None
  end.

(** The lines a trace prints, in order. *)
Definition printed (t : list (event C)) : list string := omap printed_line t.

Definition is_savefig (ev : event C) : bool :=
  match ev with EvSaveFig _ => true | _ => false end.

(** The figure is not saved anywhere in the trace. *)
Definition no_savefig (t : list (event C)) : Prop :=
  Forall (fun ev => is_savefig ev = false) t.

(** The depolarizing triple of every decoder call in the trace is
    [(rx, ry, rz)]. *)
Definition triple_is (rx ry rz : float) (ev : event C) : Prop :=
  match ev with
  | EvTNDecoder a _ => tn_rx a = rx /\ tn_ry a = ry /\ tn_rz a = rz
  | _ => True
  end.

(** In a trace of [scan_success_rates], every decoder call that returned is
    followed at once by its progress line. *)
Fixpoint line_follows (t : list (event C)) : Prop :=
  match t with
  | [] => True
  | EvTNDecoder a (inr rate) :: t' =>
      head t' = Some (EvPrint (MaxRate.progress_line (tn_p a) rate))
      /\ line_follows t'
  | _ :: t' => line_follows t'
  end.

(** The events of one noise point of [scan_success_rates] that went through:
    the decoder call on [(rx, ry, rz)] scaled by [p], then the line. *)
Definition scan_point_block (tensor_list : CodeInstance C)
    (rx ry rz : float) (trials n_process : Z) (stabilizers : StabilizerSet C)
    (logicals : list (Logical C) * list (Logical C))
    (p : float) (t : list (event C)) : Prop :=
  exists rate,
    t = [EvTNDecoder
           (MaxRate.decoder_args tensor_list p rx ry rz trials n_process
                                 stabilizers (snd logicals) (fst logicals))
           (inr rate);
         EvPrint (MaxRate.progress_line p rate)].

(** The events of one radius of [scan_success_rates] that went through:
    construction, push and the two extractions, once each and in this order,
    the header line, then one block per noise point. *)
Definition scan_radius_block (p_values : list float) (rx ry rz : float)
    (trials n_process : Z) (radius : Z) (t : list (event C)) : Prop :=
  exists tensor_list push_results stabilizers logicals point_blocks,
    t = [EvSetupMaxRate radius (inr tensor_list);
         EvBatchPush tensor_list (inr push_results);
         EvExtractStabilizers push_results (inr stabilizers);
         EvExtractLogicals push_results (inr logicals);
         EvPrint (MaxRate.header_line radius (length (snd logicals)))]
        ++ concat point_blocks
    /\ Forall2 (scan_point_block tensor_list rx ry rz trials n_process
                                 stabilizers logicals)
               p_values point_blocks.

(** The trace of the loop over the noise grid when every decoder call
    returns: [prs] pairs each noise point with the rate returned for it. *)
Definition scan_points_trace (tensor_list : CodeInstance C)
    (rx ry rz : float) (trials n_process : Z) (stabilizers : StabilizerSet C)
    (logicals : list (Logical C) * list (Logical C))
    (prs : list (float * float)) : list (event C) :=
  flat_map
    (fun pr =>
       [EvTNDecoder
          (MaxRate.decoder_args tensor_list (fst pr) rx ry rz trials n_process
                                stabilizers (snd logicals) (fst logicals))
          (inr (snd pr));
        EvPrint (MaxRate.progress_line (fst pr) (snd pr))])
    prs.

(** How many calls of each kind one radius of [scan_success_rates] makes
    over a grid of [n_points] points. *)
Definition scan_calls_per_radius (n_points : nat) (k : call_kind) : nat :=
  match k with
  | Construction | Pushing | StabilizerExtraction | LogicalExtraction => 1
  | TNDecoding => n_points
  | ErasureDecoding => 0
  end.

(** The same for one radius of [generate_data_fig6b]. *)
Definition fig6b_calls_per_radius (n_points : nat) (k : call_kind) : nat :=
  match k with
  | Construction => 1
  | TNDecoding => n_points
  | Pushing | StabilizerExtraction | LogicalExtraction | ErasureDecoding => 0
  end.

(** The events of one noise point of [generate_data_fig6b]. *)
Definition fig6b_point_block (tensor_list : CodeInstance C) (p : float)
    (t : list (event C)) : Prop :=
  exists rate,
    t = [EvPrint ("    Testing p=" +:+ F64.format_fixed 2 p +:+ "...");
         EvTNDecoder (Figs.fig6b_args tensor_list p) (inr rate)].

(** The events of one radius of [generate_data_fig6b] that went through:
    the construction, then one block per noise point; no push and no
    extraction. *)
Definition fig6b_radius_block (p_values : list float) (R : Z)
    (t : list (event C)) : Prop :=
  exists tensor_list point_blocks,
    t = [EvPrint ("[*] Simulating Radius R=" +:+ pretty R +:+ "...");
         EvSetupZeroRate R (inr tensor_list)]
        ++ concat point_blocks
    /\ Forall2 (fig6b_point_block tensor_list) p_values point_blocks.

(** Whether a decoder call is handed an empty set of logical operators. *)
Definition tn_degenerate
    (a : tn_args (CodeInstance C) (StabilizerSet C) (Logical C)) : bool :=
  match tn_logical_xs a, tn_logical_zs a with
  | Some [], _ | _, Some [] => true
  | _, _ => false
  end.

(** The construction, push and extractions for radius [R] go through from
    world [w], with these results, and leave world [w']. *)
Definition builds
    (setup : Z -> World C -> result (CodeInstance C) * World C)
    (R : Z) (w : World C) (tensor_list : CodeInstance C)
    (push_results : PushResult C) (stabilizers : StabilizerSet C)
    (logicals : list (Logical C) * list (Logical C)) (w' : World C) : Prop :=
  exists w1 w2 w3,
    setup R w = (inr tensor_list, w1)
    /\ batch_push C tensor_list w1 = (inr push_results, w2)
    /\ extract_stabilizers_from_result_dict C push_results w2
       = (inr stabilizers, w3)
    /\ extract_logicals_from_result_dict C push_results w3
       = (inr logicals, w').

End Traces.

(** Modelled from the spec: the tensor-network decoder of the absent
    [LEGO_HQEC] package.  "For all noise points, the returned rate lies in
    [0,1]" and "for p=0 (no noise), the decoder must report rate 1.0
    exactly"; this is asked of calls that are given at least one logical
    operator. *)
Definition tn_decoder_contract (C : Collaborators) : Prop :=
  forall a w,
    tn_degenerate a = false ->
    exists rate w',
      tn_quantum_error_correction_decoder_multiprocess C a w = (inr rate, w')
      /\ F64.in_unit_interval rate = true
      /\ ((tn_p a =? 0)%float = true -> rate = 1%float).

(** Modelled from the spec: the tensor-network decoder of the absent
    [LEGO_HQEC] package "must treat an empty/zero logical-operator set as a
    degenerate contract violation (fails with DegenerateCodeKind)". *)
Definition tn_degenerate_contract (C : Collaborators) : Prop :=
  forall a w,
    tn_degenerate a = true ->
    exists w',
      tn_quantum_error_correction_decoder_multiprocess C a w
      = (inl DegenerateCodeError, w').

(** ** Stand-ins for the collaborators *)

(** Deterministic collaborators to run the scripts on: the code instance and
    the push result of a radius are the radius itself, a radius [R] has
    [n_logical R] logical qubits, the decoders follow the contracts above
    with the rate [rate_of p] at a noise point [p], and the world counts the
    decoder calls. *)
Module Stub.

Definition logicals_of (n_logical : Z -> nat) (d : Z) : list Z * list Z :=
  (repeat d (n_logical d), repeat d (n_logical d)).

Definition tn_decoder (rate_of : float -> float) (a : tn_args Z (list Z) Z)
    : result float :=
  match tn_logical_xs a, tn_logical_zs a with
  | Some [], _ | _, Some [] => inl DegenerateCodeError
  | _, _ => inr (if (tn_p a =? 0)%float then 1%float else rate_of (tn_p a))
  end.

Definition erasure_decoder (a : erasure_args (list Z) Z)
    : result (list (float * float)) :=
  match er_logical_operators a with
  | [] => inl DegenerateCodeError
  | _ => inr [(er_p_start a, 1%float); (er_p_end a, 0%float)]
  end.

Definition collaborators (n_logical : Z -> nat) (rate_of : float -> float)
    : Collaborators :=
  {| World := nat;
     CodeInstance := Z;
     PushResult := Z;
     StabilizerSet := list Z;
     Logical := Z;
     setup_max_rate_happy := fun R w => (inr R, w);
     setup_zero_rate_happy := fun R w => (inr R, w);
     batch_push := fun t w => (inr t, w);
     extract_stabilizers_from_result_dict := fun d w => (inr [d], w);
     extract_logicals_from_result_dict :=
       fun d w => (inr (logicals_of n_logical d), w);
     calculate_recovery_rates_for_p_range :=
       fun a w => (erasure_decoder a, S w);
     tn_quantum_error_correction_decoder_multiprocess :=
       fun a w => (tn_decoder rate_of a, S w) |}.

(** One logical qubit at every radius, half of the trials recovered. *)
Definition plain : Collaborators :=
  collaborators (fun _ => 1%nat) (fun _ => 0.5%float).

(** As [plain], a quarter of the trials recovered. *)
Definition plain_quarter : Collaborators :=
  collaborators (fun _ => 1%nat) (fun _ => 0.25%float).

(** No logical qubit at any radius. *)
Definition degenerate : Collaborators :=
  collaborators (fun _ => 0%nat) (fun _ => 0.5%float).


End Stub.

(** ** Failures, and what each function may do *)

Section Conduct.

Context {C : Collaborators}.

(** The exception of a call or of a file read that raised. *)
Definition failure_of (ev : event C) : option exn :=
  match ev with
  | EvSetupMaxRate _ (inl e) | EvSetupZeroRate _ (inl e)
  | EvBatchPush _ (inl e) | EvExtractStabilizers _ (inl e)
  | EvExtractLogicals _ (inl e) | EvErasureDecoder _ (inl e)
  | EvTNDecoder _ (inl e) | EvLoadTxt _ (inl e) => Some e
  | _ => None
  end.

(** Every call of the trace returned. *)
Definition all_returned (t : list (event C)) : Prop :=
  Forall (fun ev => failure_of ev = None) t.

(** A run that never catches: it returns only if every call returned, and
    if it raises [e] then its last event is a call that raised [e], the
    calls before it having returned. *)
Definition stops_at_failure {A} (o : outcome C A) : Prop :=
  match res o with
  | inr _ => all_returned (emitted o)
  | inl e =>
      exists t ev,
        emitted o = t ++ [ev] /\ all_returned t /\ failure_of ev = Some e
  end.

(** The events [scan_success_rates] can cause. *)
Definition scan_event (ev : event C) : bool :=
  match ev with
  | EvSetupMaxRate _ _ | EvBatchPush _ _ | EvExtractStabilizers _ _
  | EvExtractLogicals _ _ | EvTNDecoder _ _ | EvPrint _ => true
  | _ => false
  end.

(** The events [generate_data_fig6a] can cause: the erasure decoder is
    called on 200 trials from 0.01 to 0.60 in steps of 0.04, with two
    logical operators. *)
Definition fig6a_event (ev : event C) : bool :=
  match ev with
  | EvSetupZeroRate _ _ | EvBatchPush _ _ | EvExtractStabilizers _ _
  | EvExtractLogicals _ _ | EvPrint _ => true
  | EvErasureDecoder a _ =>
      (er_n a =? 200)%Z
      && PrimFloat.Leibniz.eqb (er_p_start a) 0.01
      && PrimFloat.Leibniz.eqb (er_p_end a) 0.60
      && PrimFloat.Leibniz.eqb (er_p_step a) 0.04
      && (length (er_logical_operators a) =? 2)%nat
  | _ => false
  end.

(** The events [generate_data_fig6b] can cause: the decoder is called on
    200 trials and 4 processes, without stabilizers or logical operators. *)
Definition fig6b_event (ev : event C) : bool :=
  match ev with
  | EvSetupZeroRate _ _ | EvPrint _ => true
  | EvTNDecoder a _ =>
      (tn_N a =? 200)%Z && (tn_n_process a =? 4)%Z
      && match tn_stabilizers a, tn_logical_xs a, tn_logical_zs a with
         | None, None, None => true
         | _, _, _ => false
         end
  | _ => false
  end.

(** The events [plot_results] can cause; no collaborator is among them. *)
Definition plot_event (ev : event C) : bool :=
  match ev with
  | EvSubplots | EvPlot _ _ _ _ _ _ _ | EvDecorate _ _ _ _ | EvLoadTxt _ _
  | EvSaveFig _ | EvPrint _ | EvShow => true
  | _ => false
  end.

Definition is_plot (ax : axis) (ev : event C) : bool :=
  match ev, ax with
  | EvPlot Ax1 _ _ _ _ _ _, Ax1 | EvPlot Ax2 _ _ _ _ _ _, Ax2 => true
  | _, _ => false
  end.

(** How many curves a trace draws on an axis. *)
Definition curves (ax : axis) (t : list (event C)) : nat :=
  length (List.filter (is_plot ax) t).

(** The events of one radius of [generate_data_fig6a] that went through:
    construction, push, the two extractions and one call of the erasure
    decoder, on the first logical Z and the first logical X operator. *)
Definition fig6a_radius_block (R : Z) (t : list (event C)) : Prop :=
  exists tensor_list push_results stabilizers logicals z0 x0 results,
    head (fst logicals) = Some z0
    /\ head (snd logicals) = Some x0
    /\ t = [EvPrint ("[*] Simulating Radius R=" +:+ pretty R +:+ "...");
            EvSetupZeroRate R (inr tensor_list);
            EvBatchPush tensor_list (inr push_results);
            EvExtractStabilizers push_results (inr stabilizers);
            EvExtractLogicals push_results (inr logicals);
            EvErasureDecoder
              (ErasureArgs Figs.N_TRIALS_ERASURE 0.01 0.60 0.04 stabilizers
                           [z0; x0])
              (inr results)].

(** How [generate_data_fig6a] ends when it raises [e]: on a call that
    raised [e], or on the indexing of an empty list of logical operators,
    with [IndexError], right after the extraction that returned it. *)
Definition fig6a_failure (e : exn) (t : list (event C)) : Prop :=
  exists t' ev,
    t = t' ++ [ev] /\ all_returned t'
    /\ (failure_of ev = Some e
        \/ (e = IndexError
            /\ exists push_results logicals,
                 ev = EvExtractLogicals push_results (inr logicals)
                 /\ (fst logicals = [] \/ snd logicals = []))).

(** Either every call returned, or the run ended as [fig6a_failure] says. *)
Definition fig6a_conduct_of {A} (o : outcome C A) : Prop :=
  match res o with
  | inr _ => all_returned (emitted o)
  | inl e => fig6a_failure e (emitted o)
  end.

(** The event of one curve of the erasure plot, [item] being the position,
    the radius and the data of the curve. *)
Definition erasure_curve_events (item : nat * (Z * list (float * float)))
    : list (event C) :=
  [EvPlot Ax1 (map fst (snd (snd item))) (map snd (snd (snd item)))
          ("R=" +:+ pretty (fst (snd item)))
          (Some (Figs.cycle Figs.markers (fst item))) None
          (Figs.cycle Figs.colors (fst item))].

(** The events of one radius of the Pauli plot when its reference file holds
    the column [col]: the curve of the data, the reading of the file, and
    the reference curve, one minus the error rates over as many evenly
    spaced noise values [xs] from 0 to 0.5, dashed and in the colour of the
    data curve. *)
Definition pauli_curve_events (col xs : list float)
    (item : nat * (Z * list (float * float))) : list (event C) :=
  [EvPlot Ax2 (map fst (snd (snd item))) (map snd (snd (snd item)))
          ("R=" +:+ pretty (fst (snd item)))
          (Some (Figs.cycle Figs.markers (fst item))) None
          (Figs.cycle Figs.colors (fst item));
   EvLoadTxt (Figs.reference_filename (fst (snd item))) (inr col);
   EvPlot Ax2 xs (map (fun e => (1 - e)%float) col)
          ("Tesseract R=" +:+ pretty (fst (snd item)))
          None (Some "--") (Figs.cycle Figs.colors (fst item))].

Definition pauli_curve_block (fs : gmap string (list float))
    (item : nat * (Z * list (float * float))) (t : list (event C)) : Prop :=
  exists col xs,
    fs !! Figs.reference_filename (fst (snd item)) = Some col
    /\ Numpy.linspace 0 0.5 (Z.of_nat (length col)) = inr xs
    /\ t = pauli_curve_events col xs item.

(** What [plot_results] does once all the curves are drawn. *)
Definition plot_closing : list (event C) :=
  [EvDecorate Ax2 "Fig 6(b): Pauli Threshold (Depolarizing)"
              "Physical Error Rate $p$" "Logical Success Rate";
   EvSaveFig Figs.figure_filename;
   EvPrint (nl +:+ "[*] Plot saved to 'hqec_fig6_reproduction.png'");
   EvShow].

(** The data of a radius can be drawn, and its reference file is there and
    holds a column that is not a single number. *)
Definition drawable (fs : gmap string (list float))
    (Rd : Z * list (float * float)) : Prop :=
  snd Rd <> []
  /\ exists col,
       fs !! Figs.reference_filename (fst Rd) = Some col
       /\ length col <> 1%nat.

(** A decoder call of [scan_success_rates] is given the trial count and the
    process count of the sweep, and stabilizers and logical operators. *)
Definition passes_on (trials n_process : Z) (ev : event C) : Prop :=
  match ev with
  | EvTNDecoder a _ =>
      tn_N a = trials /\ tn_n_process a = n_process
      /\ is_Some (tn_stabilizers a)
      /\ is_Some (tn_logical_xs a)
      /\ is_Some (tn_logical_zs a)
  | _ => True
  end.

End Conduct.

(** The keys of a dictionary filled with the keys [ks] in this order: each
    key once, where it came first. *)
Definition first_occurrences (ks : list Z) : list Z :=
  fold_left (fun acc k => if in_dec Z.eq_dec k acc then acc else acc ++ [k])
            ks [].

(** The sequences of a dictionary for the keys [ks], one after the other. *)
Definition flatten_dict {V} (ks : list Z) (d : pydict (list V)) : list V :=
  concat (map (fun k => default [] (dict_get k d)) ks).

(** ** Empty sets of logical operators *)

Section Feeding.

Context {C : Collaborators}.





(** ** What a sweep hands to its caller *)

(** The sequence the erasure decoder returned in a trace. *)
Definition erasure_results (t : list (event C)) : list (float * float) :=
  concat (omap (fun ev => match ev with
                          | EvErasureDecoder _ (inr results) => Some results
                          | _ => None
                          end) t).

(** The dictionary a sweep builds out of the events [blocks] of its radii:
    radius after radius, what [value_of] reads off the events of the radius
    is stored under the radius, replacing what an earlier sweep of the same
    radius stored. *)
Definition sweep_dict {V} (value_of : list (event C) -> V) (radii : list Z)
    (blocks : list (list (event C))) : pydict V :=
  fold_left (fun d Rb => dict_set (fst Rb) (value_of (snd Rb)) d)
            (combine radii blocks) [].

(** The lines [scan_success_rates] prints for a radius whose sweep decoded
    the pairs [prs]: the header, then one progress line per pair. *)
Definition scan_radius_lines (header : string) (prs : list (float * float))
    : list string :=
  header :: map (fun pr => MaxRate.progress_line (fst pr) (snd pr)) prs.

End Feeding.

(** * Properties *)

(** ** Running the monad *)

Section MonadFacts.

Context {C : Collaborators}.

Lemma bind_returns {A B} (m : M C A) (f : A -> M C B) (w : World C) (b : B) :
  res (bind m f w) = inr b ->
  exists a,
    res (m w) = inr a
    /\ res (f a (world_after (m w))) = inr b
    /\ emitted (bind m f w)
       = emitted (m w) ++ emitted (f a (world_after (m w))).
Proof.
  unfold bind. destruct (res (m w)) as [e|a] eqn:E; simpl.
  - discriminate.
  - intros H. exists a. auto.
Qed.

Lemma bind_raises_left {A B} (m : M C A) (f : A -> M C B) (w : World C) e :
  res (m w) = inl e ->
  bind m f w = Outcome (inl e) (world_after (m w)) (emitted (m w)).
Proof. unfold bind. intros ->. reflexivity. Qed.

Lemma bind_continues {A B} (m : M C A) (f : A -> M C B) (w : World C) a :
  res (m w) = inr a ->
  bind m f w
  = Outcome (res (f a (world_after (m w))))
            (world_after (f a (world_after (m w))))
            (emitted (m w) ++ emitted (f a (world_after (m w)))).
Proof. unfold bind. intros ->. reflexivity. Qed.

Lemma call_run {A} (f : World C -> result A * World C)
    (ev : result A -> event C) (w w' : World C) (r : result A) :
  f w = (r, w') -> call f ev w = Outcome r w' [ev r].
Proof. unfold call. intros ->. reflexivity. Qed.

Lemma call_emitted {A} (f : World C -> result A * World C)
    (ev : result A -> event C) (w : World C) :
  emitted (call f ev w) = [ev (res (call f ev w))].
Proof. unfold call. destruct (f w). reflexivity. Qed.

(** A property of traces that holds of the empty trace and is kept by
    concatenation holds of a run if it holds of the steps. *)
Section Invariant.

Variable P : list (event C) -> Prop.
Hypothesis P_nil : P [].
Hypothesis P_app : forall t1 t2, P t1 -> P t2 -> P (t1 ++ t2).

Lemma inv_bind {A B} (m : M C A) (f : A -> M C B) (w : World C) :
  P (emitted (m w)) ->
  (forall a w', P (emitted (f a w'))) ->
  P (emitted (bind m f w)).
Proof.
  intros Hm Hf. unfold bind. destruct (res (m w)); simpl; auto.
Qed.

Lemma inv_call {A} (f : World C -> result A * World C)
    (ev : result A -> event C) (w : World C) :
  (forall r, P [ev r]) -> P (emitted (call f ev w)).
Proof. intros H. rewrite call_emitted. apply H. Qed.

Lemma inv_for_each {A} (xs : list A) (body : A -> M C unit) :
  (forall x w, P (emitted (body x w))) ->
  forall w, P (emitted (for_each xs body w)).
Proof.
  intros Hbody. induction xs as [|x xs IH]; intros w; simpl.
  - exact P_nil.
  - apply inv_bind; auto.
Qed.

Lemma inv_for_fold {A S} (xs : list A) (body : S -> A -> M C S) :
  (forall s x w, P (emitted (body s x w))) ->
  forall s w, P (emitted (for_fold xs s body w)).
Proof.
  intros Hbody. induction xs as [|x xs IH]; intros s w; simpl.
  - exact P_nil.
  - apply inv_bind; auto.
Qed.

End Invariant.

(** A loop that goes through emits one block of events per element. *)
Lemma for_each_blocks {A} (B : A -> list (event C) -> Prop)
    (xs : list A) (body : A -> M C unit) :
  (forall x w, res (body x w) = inr tt -> B x (emitted (body x w))) ->
  forall w,
    res (for_each xs body w) = inr tt ->
    exists blocks,
      emitted (for_each xs body w) = concat blocks /\ Forall2 B xs blocks.
Proof.
  intros Hbody. induction xs as [|x xs IH]; intros w Hres; simpl in *.
  - exists []. split; [reflexivity|constructor].
  - apply bind_returns in Hres as ([] & Hx & Hrest & ->).
    destruct (IH _ Hrest) as (blocks & -> & HF).
    exists (emitted (body x w) :: blocks). split; [reflexivity|].
    constructor; auto.
Qed.

Lemma for_fold_blocks {A S} (B : A -> list (event C) -> Prop)
    (xs : list A) (body : S -> A -> M C S) :
  (forall s x w s', res (body s x w) = inr s' -> B x (emitted (body s x w))) ->
  forall s w s',
    res (for_fold xs s body w) = inr s' ->
    exists blocks,
      emitted (for_fold xs s body w) = concat blocks /\ Forall2 B xs blocks.
Proof.
  intros Hbody. induction xs as [|x xs IH]; intros s w s' Hres; simpl in *.
  - exists []. split; [reflexivity|constructor].
  - apply bind_returns in Hres as (s1 & Hx & Hrest & ->).
    destruct (IH _ _ _ Hrest) as (blocks & -> & HF).
    exists (emitted (body s x w) :: blocks). split; [reflexivity|].
    constructor; eauto.
Qed.

End MonadFacts.

(** ** Traces of [scan_success_rates] *)

Section ScanFacts.

Context {C : Collaborators}.

Lemma line_follows_app (t1 t2 : list (event C)) :
  line_follows t1 -> line_follows t2 -> line_follows (t1 ++ t2).
Proof.
  induction t1 as [|ev t1 IH]; simpl; auto.
  destruct ev as [| | | | | |a [e|rate]| | | | | | |]; auto.
  intros [Hhead Htail] H2. split; auto.
  destruct t1; simpl in *; [discriminate|assumption].
Qed.

Lemma line_follows_lookup (t : list (event C)) :
  line_follows t ->
  forall i a rate,
    t !! i = Some (EvTNDecoder a (inr rate)) ->
    t !! S i = Some (EvPrint (MaxRate.progress_line (tn_p a) rate)).
Proof.
  induction t as [|ev t IH]; intros H i a rate Hi.
  - destruct i; discriminate.
  - destruct i as [|i]; simpl in Hi.
    + injection Hi as ->. simpl in H. destruct H as [Hhead _].
      simpl. rewrite <- head_lookup. exact Hhead.
    + simpl. apply IH; auto.
      simpl in H.
      destruct ev as [| | | | | |a' [e|rate']| | | | | | |]; tauto.
Qed.

Lemma call_result_emitted {A} (f : World C -> result A * World C)
    (ev : result A -> event C) (w : World C) (a : A) :
  res (call f ev w) = inr a -> emitted (call f ev w) = [ev (inr a)].
Proof. intros H. rewrite call_emitted, H. reflexivity. Qed.

Lemma scan_point_line_follows tensor_list rx ry rz trials n_process
    stabilizers logical_xs logical_zs p (w : World C) :
  line_follows
    (emitted (MaxRate.scan_point tensor_list rx ry rz trials n_process
                                 stabilizers logical_xs logical_zs p w)).
Proof.
  unfold MaxRate.scan_point, bind, call, print, emit.
  destruct (tn_quantum_error_correction_decoder_multiprocess C _ w)
    as [[e|rate] w']; simpl; auto.
Qed.

Lemma scan_radius_line_follows p_values rx ry rz trials n_process radius
    (w : World C) :
  line_follows
    (emitted (MaxRate.scan_radius p_values rx ry rz trials n_process radius w)).
Proof.
  unfold MaxRate.scan_radius.
  repeat (apply (inv_bind line_follows line_follows_app);
          [apply inv_call; intros; exact I | intros]).
  apply (inv_bind line_follows line_follows_app); [exact I|intros].
  apply (inv_for_each line_follows I line_follows_app).
  intros. apply scan_point_line_follows.
Qed.

Lemma scan_line_follows radii p_start p_end p_step trials rx rz n_process
    (w : World C) :
  line_follows
    (emitted (MaxRate.scan_success_rates radii p_start p_end p_step trials
                                         rx rz n_process w)).
Proof.
  unfold MaxRate.scan_success_rates.
  apply (inv_bind line_follows line_follows_app); [exact I|intros].
  apply (inv_for_each line_follows I line_follows_app).
  intros. apply scan_radius_line_follows.
Qed.

(** The depolarizing triple of the decoder calls. *)
Lemma scan_triple radii p_start p_end p_step trials rx rz n_process
    (w : World C) :
  Forall (triple_is rx (1 - rx - rz)%float rz)
    (emitted (MaxRate.scan_success_rates radii p_start p_end p_step trials
                                         rx rz n_process w)).
Proof.
  assert (Hnil : Forall (@triple_is C rx (1 - rx - rz)%float rz) [])
    by constructor.
  pose proof (fun t1 t2 =>
    @Forall_app_2 _ (@triple_is C rx (1 - rx - rz)%float rz) t1 t2) as Happ.
  unfold MaxRate.scan_success_rates.
  apply inv_bind; [assumption|exact Hnil|intros].
  apply inv_for_each; [assumption..|intros].
  unfold MaxRate.scan_radius.
  repeat (apply inv_bind;
          [assumption
          |apply inv_call; intros; repeat constructor
          |intros]).
  apply inv_bind; [assumption|repeat constructor|intros].
  apply inv_for_each; [assumption..|intros].
  unfold MaxRate.scan_point.
  apply inv_bind; [assumption| |intros; repeat constructor].
  apply inv_call. intros. repeat constructor.
Qed.

Lemma scan_point_block_ok tensor_list rx ry rz trials n_process
    stabilizers logicals p (w : World C) :
  res (MaxRate.scan_point tensor_list rx ry rz trials n_process
                          stabilizers (snd logicals) (fst logicals) p w)
  = inr tt ->
  scan_point_block tensor_list rx ry rz trials n_process stabilizers logicals
    p (emitted (MaxRate.scan_point tensor_list rx ry rz trials n_process
                  stabilizers (snd logicals) (fst logicals) p w)).
Proof.
  unfold MaxRate.scan_point. intros H.
  apply bind_returns in H as (rate & Hcall & _ & ->).
  rewrite (call_result_emitted _ _ _ _ Hcall).
  exists rate. reflexivity.
Qed.

Lemma scan_radius_block_ok p_values rx ry rz trials n_process radius
    (w : World C) :
  res (MaxRate.scan_radius p_values rx ry rz trials n_process radius w)
  = inr tt ->
  scan_radius_block p_values rx ry rz trials n_process radius
    (emitted (MaxRate.scan_radius p_values rx ry rz trials n_process radius w)).
Proof.
  unfold MaxRate.scan_radius. intros H.
  apply bind_returns in H as (tensor_list & H1 & H & ->).
  rewrite (call_result_emitted _ _ _ _ H1).
  apply bind_returns in H as (push_results & H2 & H & ->).
  rewrite (call_result_emitted _ _ _ _ H2).
  apply bind_returns in H as (stabilizers & H3 & H & ->).
  rewrite (call_result_emitted _ _ _ _ H3).
  apply bind_returns in H as (logicals & H4 & H & ->).
  rewrite (call_result_emitted _ _ _ _ H4).
  apply bind_returns in H as ([] & _ & H & ->).
  apply (for_each_blocks
           (scan_point_block tensor_list rx ry rz trials n_process
                             stabilizers logicals)) in H
    as (point_blocks & -> & HF).
  - exists tensor_list, push_results, stabilizers, logicals, point_blocks.
    split; [reflexivity|exact HF].
  - intros p w'. apply scan_point_block_ok.
Qed.

Lemma scan_blocks radii p_start p_end p_step trials rx rz n_process
    (w : World C) :
  res (MaxRate.scan_success_rates radii p_start p_end p_step trials
                                  rx rz n_process w) = inr tt ->
  exists p_values blocks,
    MaxRate.noise_grid p_start p_end p_step = inr p_values
    /\ emitted (MaxRate.scan_success_rates radii p_start p_end p_step trials
                                           rx rz n_process w)
       = concat blocks
    /\ Forall2 (scan_radius_block p_values rx (1 - rx - rz)%float rz
                                  trials n_process)
               radii blocks.
Proof.
  unfold MaxRate.scan_success_rates. intros H.
  apply bind_returns in H as (p_values & Hgrid & H & ->).
  unfold lift in Hgrid. simpl in Hgrid.
  apply (for_each_blocks
           (scan_radius_block p_values rx (1 - rx - rz)%float rz
                              trials n_process)) in H
    as (blocks & -> & HF).
  - exists p_values, blocks. repeat split; auto.
  - intros R w'. apply scan_radius_block_ok.
Qed.

End ScanFacts.

(** ** Counting calls *)

Section CountFacts.

Context {C : Collaborators}.

Lemma calls_app (k : call_kind) (t1 t2 : list (event C)) :
  calls k (t1 ++ t2) = (calls k t1 + calls k t2)%nat.
Proof. unfold calls. rewrite List.filter_app, length_app. reflexivity. Qed.

Lemma calls_concat {A} (B : A -> list (event C) -> Prop) (k : call_kind)
    (n : nat) (xs : list A) (blocks : list (list (event C))) :
  (forall x b, B x b -> calls k b = n) ->
  Forall2 B xs blocks ->
  calls k (concat blocks) = (length xs * n)%nat.
Proof.
  intros HB HF. induction HF as [|x b xs blocks Hb _ IH]; simpl.
  - reflexivity.
  - rewrite calls_app, IH, (HB _ _ Hb). reflexivity.
Qed.

Lemma scan_point_block_calls tensor_list rx ry rz trials n_process
    stabilizers logicals p (t : list (event C)) (k : call_kind) :
  scan_point_block tensor_list rx ry rz trials n_process stabilizers logicals
                   p t ->
  calls k t = match k with TNDecoding => 1%nat | _ => 0%nat end.
Proof. intros (rate & ->). destruct k; reflexivity. Qed.

Lemma scan_radius_block_calls p_values rx ry rz trials n_process radius
    (t : list (event C)) (k : call_kind) :
  scan_radius_block p_values rx ry rz trials n_process radius t ->
  calls k t = scan_calls_per_radius (length p_values) k.
Proof.
  intros (tensor_list & push_results & stabilizers & logicals & blocks
          & -> & HF).
  rewrite calls_app.
  rewrite (calls_concat _ k _ _ _
             (fun x b H => scan_point_block_calls _ _ _ _ _ _ _ _ x b k H) HF).
  destruct k; simpl; lia.
Qed.

Lemma fig6b_point_block_calls tensor_list p (t : list (event C))
    (k : call_kind) :
  fig6b_point_block tensor_list p t ->
  calls k t = match k with TNDecoding => 1%nat | _ => 0%nat end.
Proof. intros (rate & ->). destruct k; reflexivity. Qed.

Lemma fig6b_radius_block_calls p_values R (t : list (event C))
    (k : call_kind) :
  fig6b_radius_block p_values R t ->
  calls k t = fig6b_calls_per_radius (length p_values) k.
Proof.
  intros (tensor_list & blocks & -> & HF).
  rewrite calls_app.
  rewrite (calls_concat _ k _ _ _
             (fun x b H => fig6b_point_block_calls _ x b k H) HF).
  destruct k; simpl; lia.
Qed.

End CountFacts.

(** ** Traces of [generate_data_fig6b] *)

Section Fig6bFacts.

Context {C : Collaborators}.

Lemma fig6b_point_block_ok tensor_list success_rates p (w : World C) s' :
  res (Figs.fig6b_point tensor_list success_rates p w) = inr s' ->
  fig6b_point_block tensor_list p
    (emitted (Figs.fig6b_point tensor_list success_rates p w)).
Proof.
  unfold Figs.fig6b_point. intros H.
  apply bind_returns in H as ([] & _ & H & ->).
  apply bind_returns in H as (rate & Hcall & _ & ->).
  rewrite (call_result_emitted _ _ _ _ Hcall).
  exists rate. reflexivity.
Qed.

Lemma fig6b_radius_block_ok p_values data_storage R (w : World C) d' :
  res (Figs.fig6b_radius p_values data_storage R w) = inr d' ->
  fig6b_radius_block p_values R
    (emitted (Figs.fig6b_radius p_values data_storage R w)).
Proof.
  unfold Figs.fig6b_radius. intros H.
  apply bind_returns in H as ([] & _ & H & ->).
  apply bind_returns in H as (tensor_list & H1 & H & ->).
  rewrite (call_result_emitted _ _ _ _ H1).
  apply bind_returns in H as (success_rates & H & _ & ->).
  apply (for_fold_blocks (fig6b_point_block tensor_list)) in H
    as (blocks & -> & HF).
  - exists tensor_list, blocks. split; [|exact HF].
    simpl. rewrite app_nil_r. reflexivity.
  - intros s p w' s'. apply fig6b_point_block_ok.
Qed.

Lemma fig6b_blocks radii (w : World C) d :
  res (Figs.generate_data_fig6b radii w) = inr d ->
  exists p_values blocks,
    Figs.fig6b_grid = inr p_values
    /\ emitted (Figs.generate_data_fig6b radii w)
       = EvPrint (nl +:+ "--- Generating Data for Fig 6(b): Pauli Threshold (Depolarizing) ---")
         :: concat blocks
    /\ Forall2 (fig6b_radius_block p_values) radii blocks.
Proof.
  unfold Figs.generate_data_fig6b. intros H.
  apply bind_returns in H as ([] & _ & H & E1).
  apply bind_returns in H as (p_values & Hgrid & H & E2).
  apply (for_fold_blocks (fig6b_radius_block p_values)) in H
    as (blocks & E3 & HF).
  - exists p_values, blocks. repeat split; auto.
    etransitivity; [exact E1|]. simpl. f_equal.
    etransitivity; [exact E2|]. simpl. exact E3.
  - intros s R w' s'. apply fig6b_radius_block_ok.
Qed.

Lemma fig6b_triple radii (w : World C) :
  Forall (triple_is Figs.rx_ratio Figs.ry_ratio Figs.rz_ratio)
    (emitted (Figs.generate_data_fig6b radii w)).
Proof.
  assert (Hnil : Forall (@triple_is C Figs.rx_ratio Figs.ry_ratio
                                     Figs.rz_ratio) [])
    by constructor.
  pose proof (fun t1 t2 =>
    @Forall_app_2 _ (@triple_is C Figs.rx_ratio Figs.ry_ratio Figs.rz_ratio)
                  t1 t2) as Happ.
  unfold Figs.generate_data_fig6b.
  apply inv_bind; [assumption|repeat constructor|intros].
  apply inv_bind; [assumption|exact Hnil|intros].
  apply inv_for_fold; [assumption..|intros].
  unfold Figs.fig6b_radius.
  apply inv_bind; [assumption|repeat constructor|intros].
  apply inv_bind;
    [assumption|apply inv_call; intros; repeat constructor|intros].
  apply inv_bind; [assumption| |intros; exact Hnil].
  apply inv_for_fold; [assumption..|intros].
  unfold Figs.fig6b_point.
  apply inv_bind; [assumption|repeat constructor|intros].
  apply inv_bind; [assumption| |intros; exact Hnil].
  apply inv_call. intros. repeat constructor.
Qed.

End Fig6bFacts.

(** ** Running a script step by step *)

Section StepFacts.

Context {C : Collaborators}.

Lemma bind_outcome {A B} (m : M C A) (k : A -> M C B) (w w1 : World C)
    (a : A) (t : list (event C)) :
  m w = Outcome (inr a) w1 t -> bind m k w = after t (k a w1).
Proof. unfold bind. intros ->. reflexivity. Qed.

Lemma bind_outcome_raise {A B} (m : M C A) (k : A -> M C B) (w w1 : World C)
    (e : exn) (t : list (event C)) :
  m w = Outcome (inl e) w1 t -> bind m k w = Outcome (inl e) w1 t.
Proof. unfold bind. intros ->. reflexivity. Qed.

Lemma bind_call_ok {A B} (f : World C -> result A * World C)
    (ev : result A -> event C) (k : A -> M C B) (w w' : World C) (a : A) :
  f w = (inr a, w') -> bind (call f ev) k w = after [ev (inr a)] (k a w').
Proof. intros H. apply bind_outcome, call_run, H. Qed.

Lemma bind_call_raise {A B} (f : World C -> result A * World C)
    (ev : result A -> event C) (k : A -> M C B) (w w' : World C) (e : exn) :
  f w = (inl e, w') -> bind (call f ev) k w = Outcome (inl e) w' [ev (inl e)].
Proof. intros H. apply bind_outcome_raise, call_run, H. Qed.

Lemma bind_emit {B} (ev : event C) (k : unit -> M C B) (w : World C) :
  bind (emit ev) k w = after [ev] (k tt w).
Proof. reflexivity. Qed.

End StepFacts.

(** ** [scan_success_rates] on collaborators that keep their contract *)

Section ContractFacts.

Context {C : Collaborators}.

Lemma emitted_pairs_points_trace tensor_list rx ry rz trials n_process
    stabilizers logicals (prs : list (float * float)) :
  emitted_pairs
    (@scan_points_trace C tensor_list rx ry rz trials n_process
                        stabilizers logicals prs) = prs.
Proof.
  induction prs as [|[p r] prs IH]; simpl; [reflexivity|].
  unfold emitted_pairs in *. simpl. rewrite IH. reflexivity.
Qed.

Lemma printed_points_trace tensor_list rx ry rz trials n_process
    stabilizers logicals (prs : list (float * float)) :
  printed
    (@scan_points_trace C tensor_list rx ry rz trials n_process
                        stabilizers logicals prs)
  = map (fun pr => MaxRate.progress_line (fst pr) (snd pr)) prs.
Proof.
  induction prs as [|[p r] prs IH]; simpl; [reflexivity|].
  unfold printed in *. simpl. rewrite IH. reflexivity.
Qed.

Lemma decoder_args_not_degenerate tensor_list p rx ry rz trials n_process
    stabilizers (logicals : list (Logical C) * list (Logical C)) :
  fst logicals <> [] -> snd logicals <> [] ->
  tn_degenerate
    (MaxRate.decoder_args tensor_list p rx ry rz trials n_process
                          stabilizers (snd logicals) (fst logicals)) = false.
Proof.
  destruct logicals as [[|z zs] [|x xs]]; cbn; intros Hz Hx;
    try reflexivity; exfalso; (apply Hz; reflexivity) || (apply Hx; reflexivity).
Qed.

Lemma decoder_args_degenerate tensor_list p rx ry rz trials n_process
    stabilizers (logicals : list (Logical C) * list (Logical C)) :
  fst logicals = [] \/ snd logicals = [] ->
  tn_degenerate
    (MaxRate.decoder_args tensor_list p rx ry rz trials n_process
                          stabilizers (snd logicals) (fst logicals)) = true.
Proof.
  destruct logicals as [[|z zs] [|x xs]]; cbn; intros [H|H];
    try reflexivity; discriminate H.
Qed.

Lemma scan_points_under_contract tensor_list rx ry rz trials n_process
    stabilizers (logicals : list (Logical C) * list (Logical C)) :
  tn_decoder_contract C ->
  fst logicals <> [] -> snd logicals <> [] ->
  forall p_values w,
  exists rates w',
    for_each p_values
      (MaxRate.scan_point tensor_list rx ry rz trials n_process
                          stabilizers (snd logicals) (fst logicals)) w
    = Outcome (inr tt) w'
        (scan_points_trace tensor_list rx ry rz trials n_process
                           stabilizers logicals (combine p_values rates))
    /\ length rates = length p_values
    /\ Forall (fun rate => F64.in_unit_interval rate = true) rates
    /\ Forall2 (fun p rate => (p =? 0)%float = true -> rate = 1%float)
               p_values rates.
Proof.
  intros Hdec Hz Hx. induction p_values as [|p ps IH]; intros w.
  - exists [], w. repeat split; constructor.
  - destruct (Hdec (MaxRate.decoder_args tensor_list p rx ry rz trials
                      n_process stabilizers (snd logicals) (fst logicals)) w)
      as (rate & w1 & Hcall & Hunit & Hzero).
    { apply decoder_args_not_degenerate; assumption. }
    destruct (IH w1) as (rates & w' & Hrun & Hlen & Hall & Hz0).
    exists (rate :: rates), w'. repeat split.
    + simpl for_each.
      rewrite (bind_outcome _ _ w w1 tt
                 [EvTNDecoder
                    (MaxRate.decoder_args tensor_list p rx ry rz trials
                       n_process stabilizers (snd logicals) (fst logicals))
                    (inr rate);
                  EvPrint (MaxRate.progress_line p rate)]).
      * rewrite Hrun. reflexivity.
      * unfold MaxRate.scan_point.
        rewrite (bind_call_ok _ _ _ _ _ _ Hcall). reflexivity.
    + simpl. congruence.
    + constructor; assumption.
    + constructor; assumption.
Qed.

Lemma scan_radius_under_contract p_values rx ry rz trials n_process radius
    (w w1 : World C) tensor_list push_results stabilizers logicals :
  tn_decoder_contract C ->
  builds (setup_max_rate_happy C) radius w tensor_list push_results
         stabilizers logicals w1 ->
  fst logicals <> [] -> snd logicals <> [] ->
  exists rates w',
    MaxRate.scan_radius p_values rx ry rz trials n_process radius w
    = Outcome (inr tt) w'
        ([EvSetupMaxRate radius (inr tensor_list);
          EvBatchPush tensor_list (inr push_results);
          EvExtractStabilizers push_results (inr stabilizers);
          EvExtractLogicals push_results (inr logicals);
          EvPrint (MaxRate.header_line radius (length (snd logicals)))]
         ++ scan_points_trace tensor_list rx ry rz trials n_process
                              stabilizers logicals (combine p_values rates))
    /\ length rates = length p_values
    /\ Forall (fun rate => F64.in_unit_interval rate = true) rates
    /\ Forall2 (fun p rate => (p =? 0)%float = true -> rate = 1%float)
               p_values rates.
Proof.
  intros Hdec (w2 & w3 & w4 & H1 & H2 & H3 & H4) Hz Hx.
  destruct (scan_points_under_contract tensor_list rx ry rz trials n_process
              stabilizers logicals Hdec Hz Hx p_values w1)
    as (rates & w' & Hrun & Hrest).
  exists rates, w'. split; [|exact Hrest].
  unfold MaxRate.scan_radius.
  rewrite (bind_call_ok _ _ _ _ _ _ H1).
  rewrite (bind_call_ok _ _ _ _ _ _ H2).
  rewrite (bind_call_ok _ _ _ _ _ _ H3).
  rewrite (bind_call_ok _ _ _ _ _ _ H4).
  unfold print. rewrite bind_emit. rewrite Hrun. reflexivity.
Qed.

(** With an empty set of logical operators and a decoder that refuses it,
    the first noise point of the radius ends the run. *)
Lemma scan_radius_degenerate p p_values rx ry rz trials n_process radius
    (w w1 : World C) tensor_list push_results stabilizers logicals :
  tn_degenerate_contract C ->
  builds (setup_max_rate_happy C) radius w tensor_list push_results
         stabilizers logicals w1 ->
  fst logicals = [] \/ snd logicals = [] ->
  exists w',
    MaxRate.scan_radius (p :: p_values) rx ry rz trials n_process radius w
    = Outcome (inl DegenerateCodeError) w'
        [EvSetupMaxRate radius (inr tensor_list);
         EvBatchPush tensor_list (inr push_results);
         EvExtractStabilizers push_results (inr stabilizers);
         EvExtractLogicals push_results (inr logicals);
         EvPrint (MaxRate.header_line radius (length (snd logicals)));
         EvTNDecoder
           (MaxRate.decoder_args tensor_list p rx ry rz trials n_process
                                 stabilizers (snd logicals) (fst logicals))
           (inl DegenerateCodeError)].
Proof.
  intros Hdec (w2 & w3 & w4 & H1 & H2 & H3 & H4) Hempty.
  destruct (Hdec (MaxRate.decoder_args tensor_list p rx ry rz trials
                    n_process stabilizers (snd logicals) (fst logicals)) w1)
    as (w' & Hcall).
  { apply decoder_args_degenerate; assumption. }
  exists w'.
  unfold MaxRate.scan_radius.
  rewrite (bind_call_ok _ _ _ _ _ _ H1).
  rewrite (bind_call_ok _ _ _ _ _ _ H2).
  rewrite (bind_call_ok _ _ _ _ _ _ H3).
  rewrite (bind_call_ok _ _ _ _ _ _ H4).
  unfold print. rewrite bind_emit. simpl for_each.
  unfold MaxRate.scan_point.
  rewrite (bind_outcome_raise _ _ w1 w' DegenerateCodeError
             [EvTNDecoder
                (MaxRate.decoder_args tensor_list p rx ry rz trials n_process
                   stabilizers (snd logicals) (fst logicals))
                (inl DegenerateCodeError)]).
  - reflexivity.
  - apply bind_call_raise, Hcall.
Qed.

(** In [generate_data_fig6a] an empty list of logical operators ends the
    run at the indexing, before the erasure decoder is called. *)
Lemma fig6a_radius_degenerate data_storage R
    (w w1 : World C) tensor_list push_results stabilizers logicals :
  builds (setup_zero_rate_happy C) R w tensor_list push_results
         stabilizers logicals w1 ->
  fst logicals = [] \/ snd logicals = [] ->
  Figs.fig6a_radius data_storage R w
  = Outcome (inl IndexError) w1
      [EvPrint ("[*] Simulating Radius R=" +:+ pretty R +:+ "...");
       EvSetupZeroRate R (inr tensor_list);
       EvBatchPush tensor_list (inr push_results);
       EvExtractStabilizers push_results (inr stabilizers);
       EvExtractLogicals push_results (inr logicals)].
Proof.
  intros (w2 & w3 & w4 & H1 & H2 & H3 & H4) Hempty.
  unfold Figs.fig6a_radius.
  unfold print. rewrite bind_emit.
  rewrite (bind_call_ok _ _ _ _ _ _ H1).
  rewrite (bind_call_ok _ _ _ _ _ _ H2).
  rewrite (bind_call_ok _ _ _ _ _ _ H3).
  rewrite (bind_call_ok _ _ _ _ _ _ H4).
  destruct logicals as [[|z zs] [|x xs]]; simpl in Hempty |- *;
    try reflexivity.
  destruct Hempty; discriminate.
Qed.

End ContractFacts.

(** ** What the data generators return *)

Section DictFacts.

Context {V : Type}.

Lemma dict_get_set_eq (k : Z) (v : V) (d : pydict V) :
  dict_get k (dict_set k v d) = Some v.
Proof.
  induction d as [|[k' v'] d IH]; simpl.
  - rewrite Z.eqb_refl. reflexivity.
  - destruct (Z.eqb_spec k' k) as [->|Hne]; simpl.
    + rewrite Z.eqb_refl. reflexivity.
    + destruct (Z.eqb_spec k' k); [contradiction|exact IH].
Qed.

Lemma dict_get_set_ne (k k0 : Z) (v : V) (d : pydict V) :
  k <> k0 -> dict_get k0 (dict_set k v d) = dict_get k0 d.
Proof.
  intros Hne. induction d as [|[k' v'] d IH]; simpl.
  - destruct (Z.eqb_spec k k0); [contradiction|reflexivity].
  - destruct (Z.eqb_spec k' k) as [->|Hne']; simpl.
    + destruct (Z.eqb_spec k k0); [contradiction|reflexivity].
    + destruct (Z.eqb_spec k' k0); [reflexivity|exact IH].
Qed.

End DictFacts.

Section GeneratorFacts.

Context {C : Collaborators}.

(** A loop with local variables keeps an invariant over the elements done,
    the variables and the events so far. *)
Lemma for_fold_invariant {A S}
    (I : list A -> S -> list (event C) -> Prop) (body : S -> A -> M C S) :
  (forall done s t x w s',
      I done s t -> res (body s x w) = inr s' ->
      I (done ++ [x]) s' (t ++ emitted (body s x w))) ->
  forall xs done s t w s',
    I done s t ->
    res (for_fold xs s body w) = inr s' ->
    I (done ++ xs) s' (t ++ emitted (for_fold xs s body w)).
Proof.
  intros Hbody. induction xs as [|x xs IH]; intros done s t w s' HI Hres.
  - simpl in *. injection Hres as <-. rewrite !app_nil_r. exact HI.
  - simpl in Hres. apply bind_returns in Hres as (s1 & Hx & Hrest & E).
    simpl. rewrite E.
    replace (done ++ x :: xs) with ((done ++ [x]) ++ xs)
      by (rewrite <- app_assoc; reflexivity).
    rewrite app_assoc. apply IH; [|exact Hrest].
    apply Hbody; assumption.
Qed.

Lemma emitted_pairs_app (t1 t2 : list (event C)) :
  emitted_pairs (t1 ++ t2) = emitted_pairs t1 ++ emitted_pairs t2.
Proof. unfold emitted_pairs. apply omap_app. Qed.

Lemma fig6b_point_returns tensor_list success_rates p (w : World C) s' :
  res (Figs.fig6b_point tensor_list success_rates p w) = inr s' ->
  exists rate,
    s' = success_rates ++ [(p, rate)]
    /\ emitted_pairs
         (emitted (Figs.fig6b_point tensor_list success_rates p w))
       = [(p, rate)].
Proof.
  unfold Figs.fig6b_point. intros H.
  apply bind_returns in H as ([] & _ & H & E1).
  apply bind_returns in H as (rate & Hcall & H & E2).
  exists rate. split.
  - simpl in H. injection H as <-. reflexivity.
  - rewrite E1, E2, (call_result_emitted _ _ _ _ Hcall). reflexivity.
Qed.

(** The pairs [generate_data_fig6b] collects for one radius: one per grid
    point, in grid order, each with the rate a decoder call returned. *)
Lemma fig6b_points_return tensor_list p_values (w : World C) seq :
  res (for_fold p_values [] (Figs.fig6b_point tensor_list) w) = inr seq ->
  map fst seq = p_values
  /\ forall pr, In pr seq ->
       In pr (emitted_pairs
                (emitted (for_fold p_values [] (Figs.fig6b_point tensor_list)
                                   w))).
Proof.
  intros H.
  apply (for_fold_invariant
           (fun done s t =>
              map fst s = done
              /\ forall pr, In pr s -> In pr (emitted_pairs t))
           (Figs.fig6b_point tensor_list)) with (done := []) (t := []) in H.
  - exact H.
  - intros done s t p w' s' [Hfst Hin] Hres.
    apply fig6b_point_returns in Hres as (rate & -> & E).
    split.
    + rewrite map_app, Hfst. reflexivity.
    + intros pr Hpr. rewrite emitted_pairs_app, E.
      apply List.in_app_iff in Hpr as [Hpr|Hpr];
        apply List.in_app_iff; [left; auto|right; exact Hpr].
  - split; [reflexivity|intros pr []].
Qed.

Lemma fig6b_radius_returns p_values data_storage R (w : World C) d' :
  res (Figs.fig6b_radius p_values data_storage R w) = inr d' ->
  exists seq,
    d' = dict_set R seq data_storage
    /\ map fst seq = p_values
    /\ forall pr, In pr seq ->
         In pr (emitted_pairs
                  (emitted (Figs.fig6b_radius p_values data_storage R w))).
Proof.
  unfold Figs.fig6b_radius. intros H.
  apply bind_returns in H as ([] & _ & H & E1).
  apply bind_returns in H as (tensor_list & Hcall & H & E2).
  apply bind_returns in H as (seq & Hloop & H & E3).
  apply fig6b_points_return in Hloop as [Hfst Hin].
  exists seq. split; [|split].
  - simpl in H. injection H as <-. reflexivity.
  - exact Hfst.
  - intros pr Hpr. rewrite E1, E2, E3, !emitted_pairs_app.
    apply List.in_app_iff. right. apply List.in_app_iff. right.
    apply List.in_app_iff. left. apply Hin, Hpr.
Qed.

(** [generate_data_fig6b] returns a dictionary with the radii as keys; the
    value of a radius lists, in grid order, each noise value with a rate
    returned by a decoder call of the run. *)
Lemma fig6b_returns radii (w : World C) d :
  res (Figs.generate_data_fig6b radii w) = inr d ->
  exists p_values,
    Figs.fig6b_grid = inr p_values
    /\ (forall R, In R radii <-> is_Some (dict_get R d))
    /\ forall R seq,
         dict_get R d = Some seq ->
         map fst seq = p_values
         /\ forall pr, In pr seq ->
              In pr (emitted_pairs
                       (emitted (Figs.generate_data_fig6b radii w))).
Proof.
  unfold Figs.generate_data_fig6b. intros H.
  apply bind_returns in H as ([] & _ & H & E1).
  apply bind_returns in H as (p_values & Hgrid & H & E2).
  exists p_values. split; [exact Hgrid|].
  apply (for_fold_invariant
           (fun done (s : pydict (list (float * float))) t =>
              (forall R, In R done <-> is_Some (dict_get R s))
              /\ forall R seq,
                   dict_get R s = Some seq ->
                   map fst seq = p_values
                   /\ forall pr, In pr seq -> In pr (emitted_pairs t))
           (Figs.fig6b_radius p_values)) with (done := []) (t := []) in H.
  - destruct H as [Hkeys Hvals]. split; [exact Hkeys|].
    intros R seq Hget. destruct (Hvals R seq Hget) as [Hfst Hin].
    split; [exact Hfst|]. intros pr Hpr.
    rewrite E1, E2, !emitted_pairs_app.
    apply List.in_app_iff. right. apply List.in_app_iff. right.
    apply Hin, Hpr.
  - intros done s t R w' s' [Hkeys Hvals] Hres.
    apply fig6b_radius_returns in Hres as (seq & -> & Hfst & Hin).
    split.
    + intros R0. rewrite List.in_app_iff. simpl.
      destruct (Z.eq_dec R R0) as [->|Hne].
      * rewrite dict_get_set_eq. split; [eauto|auto].
      * rewrite (dict_get_set_ne _ _ _ _ Hne), <- Hkeys. tauto.
    + intros R0 seq0 Hget.
      destruct (Z.eq_dec R R0) as [->|Hne].
      * rewrite dict_get_set_eq in Hget. injection Hget as <-.
        split; [exact Hfst|]. intros pr Hpr.
        rewrite emitted_pairs_app. apply List.in_app_iff. right. auto.
      * rewrite (dict_get_set_ne _ _ _ _ Hne) in Hget.
        destruct (Hvals R0 seq0 Hget) as [Hf Hi].
        split; [exact Hf|]. intros pr Hpr.
        rewrite emitted_pairs_app. apply List.in_app_iff. left. auto.
  - split.
    + intros R. simpl. split; [intros []|intros [x Hx]; discriminate].
    + intros R seq Hget. discriminate.
Qed.

End GeneratorFacts.

(** ** [plot_results] and the reference files *)

Section PlotFacts.

Context {C : Collaborators}.

Lemma for_each_raises {A} (xs : list A) (body : A -> M C unit) (x : A) :
  In x xs ->
  (forall w, raises (res (body x w))) ->
  forall w, raises (res (for_each xs body w)).
Proof.
  intros Hin Hx. induction xs as [|y ys IH]; intros w; [destruct Hin|].
  simpl. destruct (res (body y w)) as [e|[]] eqn:E.
  - rewrite (bind_raises_left _ _ _ _ E). exists e. reflexivity.
  - destruct Hin as [->|Hin].
    + destruct (Hx w) as [e He]. congruence.
    + rewrite (bind_continues _ _ _ _ E). simpl. apply IH, Hin.
Qed.

Lemma enumerate_from_In {A} (x : A) (xs : list A) (n : nat) :
  In x xs -> exists i, In (i, x) (combine (seq n (length xs)) xs).
Proof.
  revert n. induction xs as [|y ys IH]; intros n Hin; [destruct Hin|].
  destruct Hin as [->|Hin]; simpl.
  - exists n. left. reflexivity.
  - destruct (IH (S n) Hin) as [i Hi]. exists i. right. exact Hi.
Qed.

(** Without its reference file the curve of a radius cannot be drawn. *)
Lemma plot_pauli_curve_missing (fs : gmap string (list float))
    (i : nat) (R : Z) (d : list (float * float)) (w : World C) :
  fs !! Figs.reference_filename R = None ->
  raises (res (Figs.plot_pauli_curve fs (i, (R, d)) w)).
Proof.
  intros Hnone. unfold Figs.plot_pauli_curve. simpl.
  destruct d as [|xy d]; simpl.
  - exists IndexError. reflexivity.
  - unfold bind at 1. simpl. unfold bind at 1. simpl.
    unfold Figs.loadtxt. rewrite Hnone.
    exists FileNotFoundError. reflexivity.
Qed.

Lemma no_savefig_app (t1 t2 : list (event C)) :
  no_savefig t1 -> no_savefig t2 -> no_savefig (t1 ++ t2).
Proof. apply Forall_app_2. Qed.

Lemma no_savefig_nil : @no_savefig C [].
Proof. constructor. Qed.

Lemma plot_erasure_curve_no_savefig item (w : World C) :
  no_savefig (emitted (Figs.plot_erasure_curve item w)).
Proof.
  unfold Figs.plot_erasure_curve.
  apply (inv_bind no_savefig no_savefig_app).
  - unfold Figs.columns. destruct (snd (snd item)); constructor.
  - intros. repeat constructor.
Qed.

Lemma plot_pauli_curve_no_savefig fs item (w : World C) :
  no_savefig (emitted (Figs.plot_pauli_curve fs item w)).
Proof.
  unfold Figs.plot_pauli_curve.
  apply (inv_bind no_savefig no_savefig_app).
  { unfold Figs.columns. destruct (snd (snd item)); constructor. }
  intros. apply (inv_bind no_savefig no_savefig_app); [repeat constructor|].
  intros. apply (inv_bind no_savefig no_savefig_app).
  { unfold Figs.loadtxt. apply inv_call. intros. repeat constructor. }
  intros. apply (inv_bind no_savefig no_savefig_app).
  { unfold Figs.array_len. destruct a1 as [|? [|? ?]]; constructor. }
  intros. apply (inv_bind no_savefig no_savefig_app); [constructor|].
  intros. repeat constructor.
Qed.

Lemma plot_results_missing_reference (fs : gmap string (list float))
    (erasure_data pauli_data : list (Z * list (float * float)))
    (R : Z) (w : World C) :
  In R (dict_keys pauli_data) ->
  fs !! Figs.reference_filename R = None ->
  raises (res (Figs.plot_results fs erasure_data pauli_data w))
  /\ no_savefig (emitted (Figs.plot_results fs erasure_data pauli_data w)).
Proof.
  intros Hin Hnone.
  assert (Hloop : forall w' : World C, raises
            (res (for_each (enumerate pauli_data) (Figs.plot_pauli_curve fs)
                           w'))).
  { unfold dict_keys in Hin. apply List.in_map_iff in Hin as ([R' d] & <- & Hin).
    destruct (enumerate_from_In _ _ 0 Hin) as [i Hi].
    apply (for_each_raises _ _ (i, (R', d))); [exact Hi|].
    intros w'. apply plot_pauli_curve_missing. exact Hnone. }
  unfold Figs.plot_results. rewrite bind_emit. simpl.
  destruct (res (for_each (enumerate erasure_data) Figs.plot_erasure_curve w))
    as [e|[]] eqn:E1.
  - rewrite (bind_raises_left _ _ _ _ E1). simpl. split; [eexists; eauto|].
    constructor; [reflexivity|].
    apply (inv_for_each no_savefig no_savefig_nil no_savefig_app).
    intros. apply plot_erasure_curve_no_savefig.
  - rewrite (bind_continues _ _ _ _ E1). simpl.
    destruct (Hloop (world_after
                (for_each (enumerate erasure_data) Figs.plot_erasure_curve w)))
      as [e E2].
    rewrite (bind_raises_left _ _ _ _ E2). simpl. split; [eexists; eauto|].
    constructor; [reflexivity|].
    apply no_savefig_app.
    + apply (inv_for_each no_savefig no_savefig_nil no_savefig_app).
      intros. apply plot_erasure_curve_no_savefig.
    + constructor; [reflexivity|].
      apply (inv_for_each no_savefig no_savefig_nil no_savefig_app).
      intros. apply plot_pauli_curve_no_savefig.
Qed.

End PlotFacts.

(** ** [generate_data_fig6a] *)

Section Fig6aFacts.

Context {C : Collaborators}.

Lemma fig6a_radius_returns data_storage R (w : World C) d' :
  res (Figs.fig6a_radius data_storage R w) = inr d' ->
  exists a results,
    d' = dict_set R results data_storage
    /\ In (EvErasureDecoder a (inr results))
          (emitted (Figs.fig6a_radius data_storage R w)).
Proof.
  unfold Figs.fig6a_radius. intros H.
  apply bind_returns in H as ([] & _ & H & E1).
  apply bind_returns in H as (tensor_list & _ & H & E2).
  apply bind_returns in H as (push_results & _ & H & E3).
  apply bind_returns in H as (stabilizers & _ & H & E4).
  apply bind_returns in H as (logicals & _ & H & E5).
  apply bind_returns in H as (z0 & _ & H & E6).
  apply bind_returns in H as (x0 & _ & H & E7).
  apply bind_returns in H as (results & Hcall & H & E8).
  simpl in H. injection H as <-.
  eexists _, results. split; [reflexivity|].
  rewrite E1, E2, E3, E4, E5, E6, E7, E8.
  rewrite (call_result_emitted _ _ _ _ Hcall).
  do 7 (apply List.in_app_iff; right).
  apply List.in_app_iff. left. left. reflexivity.
Qed.

End Fig6aFacts.

(** ** The noise grid *)

Lemma arange_fill_length (start next : float) (len : nat) :
  length (Numpy.arange_fill start next len) = len.
Proof. unfold Numpy.arange_fill. rewrite length_map, length_seq. reflexivity. Qed.

(** ** The noise grid of a range that is out of order *)

Lemma noise_grid_in_zero_step can_allocate (p_start p_end p_step : float) :
  F64.is_zero p_step = true ->
  MaxRate.noise_grid_in can_allocate p_start p_end p_step
  = inl ZeroDivisionError.
Proof.
  intros H.
  unfold MaxRate.noise_grid_in, Numpy.arange_in, Numpy.arange_length.
  rewrite H. reflexivity.
Qed.

Lemma arange_length_of_quotient (p_start p_end p_step : float) (n : Z) :
  F64.is_zero p_step = false ->
  F64.ceil (MaxRate.grid_quotient p_start p_end p_step) = Some n ->
  - 2 ^ 63 <= n <= 2 ^ 63 - 1 ->
  Numpy.arange_length p_start (p_end + p_step) p_step = inr n
  \/ (n = 0
      /\ Numpy.arange_length p_start (p_end + p_step) p_step = inr 1).
Proof.
  intros Hstep Hceil Hrange.
  unfold Numpy.arange_length.
  rewrite Hstep.
  unfold MaxRate.grid_quotient in Hceil.
  set (q := ((p_end + p_step - p_start) / p_step)%float) in *.
  destruct (F64.is_zero q && negb (F64.is_zero (p_end + p_step - p_start)))
    eqn:Hunder.
  - apply andb_prop in Hunder as [Hq _].
    assert (n = 0) as ->.
    { unfold F64.is_zero in Hq. unfold F64.ceil in Hceil.
      destruct (Prim2SF q); try discriminate. congruence. }
    destruct (F64.signbit q); [left|right]; auto.
  - assert (Hin : (n <? - 2 ^ 63) || (2 ^ 63 - 1 <? n) = false).
    { apply orb_false_intro; apply Z.ltb_ge; lia. }
    pose proof Hceil as Hfinite. unfold F64.ceil in Hfinite.
    rewrite Hceil, Hin.
    destruct (Prim2SF q); try discriminate Hfinite; left; reflexivity.
Qed.

Lemma arange_length_fails (p_start p_end p_step : float) (e : exn) :
  Numpy.arange_length p_start (p_end + p_step) p_step = inl e ->
  (e = ZeroDivisionError /\ F64.is_zero p_step = true)
  \/ ((e = ValueError \/ e = OverflowError)
      /\ F64.is_zero p_step = false
      /\ forall n,
           F64.ceil (MaxRate.grid_quotient p_start p_end p_step) = Some n ->
           n < - 2 ^ 63 \/ 2 ^ 63 <= n).
Proof.
  unfold Numpy.arange_length, MaxRate.grid_quotient.
  destruct (F64.is_zero p_step) eqn:Hstep.
  - intros [= <-]. left. auto.
  - set (q := ((p_end + p_step - p_start) / p_step)%float).
    destruct (F64.is_zero q && negb (F64.is_zero (p_end + p_step - p_start)));
      [discriminate|].
    assert (Hceil : forall n0 : Z,
              (if (n0 <? - 2 ^ 63) || (2 ^ 63 - 1 <? n0)
               then inl OverflowError else @inr exn Z n0) = inl e ->
              e = OverflowError /\ (n0 < - 2 ^ 63 \/ 2 ^ 63 <= n0)).
    { intros n0.
      destruct ((n0 <? - 2 ^ 63) || (2 ^ 63 - 1 <? n0)) eqn:Hr;
        [|discriminate].
      intros [= <-]. split; [reflexivity|].
      apply orb_prop in Hr as [Hr|Hr]; apply Z.ltb_lt in Hr; lia. }
    destruct (Prim2SF q) eqn:Hq.
    1, 4: destruct (F64.ceil q) as [n0|] eqn:Hc;
      [intros He; apply Hceil in He as [-> Hn0];
       right; split; [auto|]; split; [reflexivity|];
       intros n [= <-]; exact Hn0
      |intros [= <-]; right; split; [auto|]; split; [reflexivity|];
       intros n [=]].
    all: intros [= <-]; right; split; [auto|]; split; [reflexivity|].
    all: unfold F64.ceil; rewrite Hq; intros n [=].
Qed.

Lemma noise_grid_in_nonzero_step can_allocate (p_start p_end p_step : float)
    (n : Z) :
  F64.is_zero p_step = false ->
  F64.ceil (MaxRate.grid_quotient p_start p_end p_step) = Some n ->
  - 2 ^ 63 <= n < 2 ^ 60 ->
  can_allocate (Z.max n 1) = true ->
  exists grid,
    MaxRate.noise_grid_in can_allocate p_start p_end p_step = inr grid
    /\ (0 < n -> Z.of_nat (length grid) = n)
    /\ (n <= 0 -> grid = [] \/ grid = [p_start]).
Proof.
  intros Hstep Hceil Hrange Hmem.
  unfold MaxRate.noise_grid_in, Numpy.arange_in.
  destruct (arange_length_of_quotient p_start p_end p_step n Hstep Hceil)
    as [->|[-> ->]]; [lia| |].
  - destruct (Z.leb_spec n 0) as [Hle|Hgt].
    + exists []. split; [reflexivity|]. split; [lia|auto].
    + destruct (Z.leb_spec (2 ^ 60) n) as [Hbig|_]; [lia|].
      replace (Z.max n 1) with n in Hmem by lia. rewrite Hmem.
      eexists. split; [reflexivity|]. split; [|lia].
      intros _. rewrite arange_fill_length. lia.
  - change (Z.max 0 1) with 1 in Hmem.
    change (1 <=? 0) with false. change (2 ^ 60 <=? 1) with false.
    cbv beta iota. rewrite Hmem.
    exists [p_start]. split; [reflexivity|]. split; [lia|auto].
Qed.

Lemma noise_grid_in_fails can_allocate (p_start p_end p_step : float)
    (e : exn) :
  MaxRate.noise_grid_in can_allocate p_start p_end p_step = inl e ->
  (e = ZeroDivisionError /\ F64.is_zero p_step = true)
  \/ (e = ValueError
      /\ F64.is_zero p_step = false
      /\ forall n,
           F64.ceil (MaxRate.grid_quotient p_start p_end p_step) = Some n ->
           n < - 2 ^ 63 \/ 2 ^ 60 <= n)
  \/ (e = MemoryError
      /\ F64.is_zero p_step = false
      /\ exists len, 0 < len < 2 ^ 60 /\ can_allocate len = false).
Proof.
  unfold MaxRate.noise_grid_in, Numpy.arange_in.
  destruct (Numpy.arange_length p_start (p_end + p_step) p_step)
    as [e0|len] eqn:Hlen.
  - intros He.
    destruct (arange_length_fails _ _ _ _ Hlen)
      as [[-> Hz]|([->| ->] & Hz & Hn)].
    + injection He as <-. left. auto.
    + injection He as <-. right. left. split; [reflexivity|].
      split; [exact Hz|]. intros n Hc. destruct (Hn n Hc); lia.
    + injection He as <-. right. left. split; [reflexivity|].
      split; [exact Hz|]. intros n Hc. destruct (Hn n Hc); lia.
  - assert (Hz : F64.is_zero p_step = false).
    { unfold Numpy.arange_length in Hlen.
      destruct (F64.is_zero p_step); [discriminate|reflexivity]. }
    destruct (Z.leb_spec len 0) as [Hle|Hgt]; [discriminate|].
    destruct (Z.leb_spec (2 ^ 60) len) as [Hbig|Hsmall].
    + intros [= <-]. right. left. split; [reflexivity|].
      split; [exact Hz|]. intros n Hc.
      destruct (Z_lt_dec n (- 2 ^ 63)) as [Hl|Hl]; [left; exact Hl|].
      destruct (Z_lt_dec n (2 ^ 60)) as [Hu|Hu]; [|right; lia].
      exfalso.
      destruct (arange_length_of_quotient p_start p_end p_step n Hz Hc)
        as [E|[_ E]]; [lia| |]; rewrite Hlen in E; injection E as E; lia.
    + destruct (can_allocate len) eqn:Hmem; [discriminate|].
      intros [= <-]. right. right. split; [reflexivity|].
      split; [exact Hz|]. exists len. split; [lia|exact Hmem].
Qed.

(** * The claims of the specification *)

(** C1 (the code departs from the claim).  The claim: when [p_start <= p_end],
    [p_step > 0] and the step divides the range evenly, the noise grid starts
    at [p_start], does not decrease and ends at [p_end] up to rounding.  The
    script adds [p_step] to the end so that [p_end] is included, but the
    length numpy computes from the rounded quotient can be one too many: from
    0 to 0.2 in steps of 0.1, where 0.2 is exactly twice 0.1 as doubles, the
    grid is 0, 0.1, 0.2, 0.30000000000000004 and so ends a whole step above
    [p_end]. *)
Theorem noise_grid_passes_end_on_exact_multiple :
  (0 <=? 0.2)%float = true
  /\ (0 <? 0.1)%float = true
  /\ F64.evenly_divides 0.1 0 0.2 = true
  /\ MaxRate.noise_grid 0 0.2 0.1
     = inr [0; 0.1; 0.2; 0.30000000000000004]%float
  /\ last [0; 0.1; 0.2; 0.30000000000000004]%float
     = Some 0.30000000000000004%float
  /\ (0.2 + 0.09 <? 0.30000000000000004)%float = true.
Proof. repeat split; vm_compute; reflexivity. Qed.

(** C2, the claim as stated fails: with the end before the start
    (from 0.3 to 0.0 in steps of 0.05) nothing is raised and the grid is
    empty. *)
Lemma reversed_range_gives_empty_grid :
  (0.0 <? 0.3)%float = true
  /\ MaxRate.noise_grid 0.3 0.0 0.05 = inr []
  /\ ~ raises (MaxRate.noise_grid 0.3 0.0 0.05).
Proof.
  split; [vm_compute; reflexivity|].
  assert (H : MaxRate.noise_grid 0.3 0.0 0.05 = inr [])
    by (vm_compute; reflexivity).
  split; [exact H|]. rewrite H. intros [e He]. discriminate He.
Qed.

(** C2, amended.  For a range whose end lies before its start, or whose
    step is not positive, nothing checks the range: it goes to [np.arange]
    as it is.  A zero step raises [ZeroDivisionError].  Otherwise let [n] be
    the ceiling of the quotient [(p_end + p_step - p_start) / p_step]: if
    [n] lies between [-2^63] and [2^60] and an array of [max n 1] doubles can
    be had, the grid is made, of [n] points when [n] is positive and else
    empty (or [p_start] alone, when the quotient underflows to zero from
    above).  The only exceptions are [ZeroDivisionError], for a zero step;
    [ValueError], when the quotient is not finite or its ceiling is outside
    these bounds; and [MemoryError], when an array of fewer than [2^60]
    doubles cannot be had.  No invalid-range error is among them. *)
Theorem out_of_order_range_reaches_arange_unchecked
    (can_allocate : Z -> bool) (p_start p_end p_step : float) :
  (p_end <? p_start)%float = true \/ (p_step <=? 0)%float = true ->
  (F64.is_zero p_step = true ->
   MaxRate.noise_grid_in can_allocate p_start p_end p_step
   = inl ZeroDivisionError)
  /\ (forall n,
         F64.is_zero p_step = false ->
         F64.ceil (MaxRate.grid_quotient p_start p_end p_step) = Some n ->
         - 2 ^ 63 <= n < 2 ^ 60 ->
         can_allocate (Z.max n 1) = true ->
         exists grid,
           MaxRate.noise_grid_in can_allocate p_start p_end p_step = inr grid
           /\ (0 < n -> Z.of_nat (length grid) = n)
           /\ (n <= 0 -> grid = [] \/ grid = [p_start]))
  /\ (forall e,
         MaxRate.noise_grid_in can_allocate p_start p_end p_step = inl e ->
         (e = ZeroDivisionError /\ F64.is_zero p_step = true)
         \/ (e = ValueError
             /\ F64.is_zero p_step = false
             /\ forall n,
                  F64.ceil (MaxRate.grid_quotient p_start p_end p_step)
                  = Some n ->
                  n < - 2 ^ 63 \/ 2 ^ 60 <= n)
         \/ (e = MemoryError
             /\ F64.is_zero p_step = false
             /\ exists len, 0 < len < 2 ^ 60 /\ can_allocate len = false)).
Proof.
  intros _. split; [|split].
  - apply noise_grid_in_zero_step.
  - intros n. apply noise_grid_in_nonzero_step.
  - intros e. apply noise_grid_in_fails.
Qed.

Lemma out_of_order_range_reaches_arange_unchecked_witness :
  ((0.0 <? 0.3)%float = true \/ (-0.05 <=? 0)%float = true)
  /\ exists grid,
       MaxRate.noise_grid_in (fun _ => true) 0.3 0.0 (-0.05) = inr grid
       /\ (0 < 7 -> Z.of_nat (length grid) = 7)
       /\ (7 <= 0 -> grid = [] \/ grid = [0.3%float]).
Proof.
  assert (Hrange : (0.0 <? 0.3)%float = true \/ (-0.05 <=? 0)%float = true)
    by (left; vm_compute; reflexivity).
  split; [exact Hrange|].
  apply (proj1 (proj2 (out_of_order_range_reaches_arange_unchecked
                         (fun _ => true) 0.3 0.0 (-0.05) Hrange)) 7).
  - vm_compute. reflexivity.
  - vm_compute. reflexivity.
  - split; [vm_compute; discriminate|reflexivity].
  - reflexivity.
Defined.

(** Two more ranges that are out of order and make a grid all the same: an
    end that lies before the start by less than a step gives the start
    alone, and a negative step from 0.3 down to 0.0 gives seven values that
    run downwards; where only four doubles can be had, the latter is a
    [MemoryError]. *)
Lemma out_of_order_ranges_make_grids :
  ((0.08 <? 0.1)%float = true
   /\ MaxRate.noise_grid 0.1 0.08 0.05 = inr [0.1%float])
  /\ ((-0.05 <=? 0)%float = true
      /\ MaxRate.noise_grid 0.3 0.0 (-0.05)
         = inr [0.3; 0.25; 0.2; 0.15000000000000002; 0.10000000000000003;
                0.050000000000000044; 5.5511151231257827e-17]%float
      /\ MaxRate.noise_grid_in (fun len => len <? 5) 0.3 0.0 (-0.05)
         = inl MemoryError).
Proof.
  repeat split; vm_compute; reflexivity.
Qed.

(** The lines of the noise points, with the noise values already formatted. *)
Lemma progress_lines_formatted (p_values : list float) (rates : list float) :
  map (fun pr => MaxRate.progress_line (fst pr) (snd pr))
      (combine p_values rates)
  = map (fun sr => "  p=" +:+ fst sr +:+ " -> success rate "
                   +:+ F64.format_fixed 3 (snd sr))
        (combine (map (F64.format_fixed 2) p_values) rates).
Proof.
  revert rates. induction p_values as [|p ps IH]; intros [|r rs]; simpl;
    try reflexivity.
  rewrite IH. reflexivity.
Qed.

Lemma printed_app {C : Collaborators} (t1 t2 : list (event C)) :
  printed (t1 ++ t2) = printed t1 ++ printed t2.
Proof. unfold printed. apply omap_app. Qed.

(** C3.  The run with radius 0, from 0.0 to 0.30 in steps of 0.05, 100
    trials and ratios 1/3, on collaborators that build radius 0 with at
    least one logical qubit and a decoder that keeps its contract: the run
    returns, there are exactly seven decoder calls, at the noise values
    0, 0.05, ..., 6 * 0.05 in this order, printed as 0.00, 0.05, ..., 0.30
    each with its rate, all rates are in [0, 1] and the first, at p = 0, is
    1.0. *)
Theorem default_run_emits_seven_points (C : Collaborators) (w w1 : World C)
    (n_process : Z) tensor_list push_results stabilizers logicals :
  tn_decoder_contract C ->
  builds (setup_max_rate_happy C) 0 w tensor_list push_results stabilizers
         logicals w1 ->
  fst logicals <> [] ->
  snd logicals <> [] ->
  exists rates,
    let o := MaxRate.scan_success_rates [0] 0.0 0.30 0.05 100
                                        (1 / 3) (1 / 3) n_process w in
    res o = inr tt
    /\ length rates = 7%nat
    /\ emitted_pairs (emitted o)
       = combine [0; 0.05; 0.1; 0.15000000000000002; 0.2; 0.25;
                  0.30000000000000004]%float rates
    /\ printed (emitted o)
       = MaxRate.header_line 0 (length (snd logicals))
         :: map (fun sr => "  p=" +:+ fst sr +:+ " -> success rate "
                           +:+ F64.format_fixed 3 (snd sr))
                (combine ["0.00"; "0.05"; "0.10"; "0.15"; "0.20"; "0.25";
                          "0.30"] rates)
    /\ Forall (fun rate => F64.in_unit_interval rate = true) rates
    /\ head rates = Some 1%float.
Proof.
  intros Hdec Hbuild Hz Hx.
  set (grid := [0; 0.05; 0.1; 0.15000000000000002; 0.2; 0.25;
                0.30000000000000004]%float).
  assert (Hgrid : MaxRate.noise_grid 0.0 0.30 0.05 = inr grid)
    by (vm_compute; reflexivity).
  assert (Hfmt : map (F64.format_fixed 2) grid
                 = ["0.00"; "0.05"; "0.10"; "0.15"; "0.20"; "0.25"; "0.30"])
    by (vm_compute; reflexivity).
  destruct (scan_radius_under_contract grid (1 / 3)%float
              (1 - 1 / 3 - 1 / 3)%float (1 / 3)%float 100 n_process 0 w w1
              tensor_list push_results stabilizers logicals
              Hdec Hbuild Hz Hx)
    as (rates & w' & Hrun & Hlen & Hunit & Hzero).
  exists rates.
  assert (Hout :
    MaxRate.scan_success_rates [0] 0.0 0.30 0.05 100 (1 / 3) (1 / 3)
                               n_process w
    = Outcome (inr tt) w'
        ([EvSetupMaxRate 0 (inr tensor_list);
          EvBatchPush tensor_list (inr push_results);
          EvExtractStabilizers push_results (inr stabilizers);
          EvExtractLogicals push_results (inr logicals);
          EvPrint (MaxRate.header_line 0 (length (snd logicals)))]
         ++ scan_points_trace tensor_list (1 / 3)%float
              (1 - 1 / 3 - 1 / 3)%float (1 / 3)%float 100 n_process
              stabilizers logicals (combine grid rates))).
  { unfold MaxRate.scan_success_rates. rewrite Hgrid.
    unfold bind at 1. unfold lift at 1. cbv beta iota zeta.
    cbn [res world_after emitted for_each app].
    rewrite (bind_outcome _ _ _ _ _ _ Hrun).
    unfold after, ret. cbn [res world_after emitted].
    rewrite app_nil_r. reflexivity. }
  cbv zeta. rewrite Hout. cbn [res emitted].
  split; [reflexivity|]. split; [exact Hlen|]. split; [|split; [|split]].
  - rewrite emitted_pairs_app, emitted_pairs_points_trace. reflexivity.
  - rewrite printed_app, printed_points_trace.
    rewrite progress_lines_formatted, Hfmt. reflexivity.
  - exact Hunit.
  - inversion Hzero as [|p r ps rs H0 _]; subst.
    simpl. f_equal. apply H0. reflexivity.
Qed.

Lemma default_run_emits_seven_points_witness :
  exists rates,
    let o := @MaxRate.scan_success_rates Stub.plain [0] 0.0 0.30 0.05 100
                                         (1 / 3) (1 / 3) 8 0%nat in
    res o = inr tt
    /\ length rates = 7%nat
    /\ emitted_pairs (emitted o)
       = combine [0; 0.05; 0.1; 0.15000000000000002; 0.2; 0.25;
                  0.30000000000000004]%float rates
    /\ printed (emitted o)
       = MaxRate.header_line 0 1
         :: map (fun sr => "  p=" +:+ fst sr +:+ " -> success rate "
                           +:+ F64.format_fixed 3 (snd sr))
                (combine ["0.00"; "0.05"; "0.10"; "0.15"; "0.20"; "0.25";
                          "0.30"] rates)
    /\ Forall (fun rate => F64.in_unit_interval rate = true) rates
    /\ head rates = Some 1%float.
Proof.
  apply (default_run_emits_seven_points Stub.plain 0%nat 0%nat 8
           0 0 [0] ([0], [0])).
  - intros [c p rx ry rz N np s lx lz] w Hnd.
    exists (if (p =? 0)%float then 1%float else 0.5%float), (S w).
    split; [|split].
    + destruct lx as [[|x xs]|]; destruct lz as [[|z zs]|];
        try discriminate Hnd; reflexivity.
    + destruct (p =? 0)%float; vm_compute; reflexivity.
    + simpl. intros ->. reflexivity.
  - exists 0%nat, 0%nat, 0%nat. repeat split; reflexivity.
  - simpl. discriminate.
  - simpl. discriminate.
Defined.

(** C4, the claim as stated fails: [generate_data_fig6b] is a sweep that
    goes through the radii without any push and without any extraction.  On
    the stand-in collaborators, for the radius 0, it builds the code once and
    calls the decoder eight times, and pushes and extracts zero times. *)
Lemma fig6b_never_pushes_nor_extracts :
  let o := @Figs.generate_data_fig6b Stub.plain [0] 0%nat in
  (exists d, res o = inr d)
  /\ calls Construction (emitted o) = 1%nat
  /\ calls TNDecoding (emitted o) = 8%nat
  /\ calls Pushing (emitted o) = 0%nat
  /\ calls StabilizerExtraction (emitted o) = 0%nat
  /\ calls LogicalExtraction (emitted o) = 0%nat.
Proof.
  cbv zeta. split; [eexists; vm_compute; reflexivity|].
  repeat split; vm_compute; reflexivity.
Qed.

(** C4, amended.  In a run of [scan_success_rates] that returns, the trace
    is one block per radius, in order: the construction, the push, the two
    extractions, each once and before the loop over the noise grid, then one
    decoder call per grid point.  In a run of [generate_data_fig6b] that
    returns, the block of a radius is the construction, once and before the
    loop, then one decoder call per grid point; there is no push and no
    extraction in it. *)
Theorem sweeps_build_once_per_radius (C : Collaborators) (radii : list Z)
    (w : World C) :
  (forall p_start p_end p_step trials rx rz n_process,
      let o := MaxRate.scan_success_rates radii p_start p_end p_step trials
                                          rx rz n_process w in
      res o = inr tt ->
      exists p_values blocks,
        MaxRate.noise_grid p_start p_end p_step = inr p_values
        /\ emitted o = concat blocks
        /\ Forall2 (scan_radius_block p_values rx (1 - rx - rz)%float rz
                                      trials n_process)
                   radii blocks
        /\ forall k,
             calls k (emitted o)
             = (length radii * scan_calls_per_radius (length p_values) k)%nat)
  /\ (forall d,
        let o := Figs.generate_data_fig6b radii w in
        res o = inr d ->
        exists p_values header blocks,
          Figs.fig6b_grid = inr p_values
          /\ emitted o = EvPrint header :: concat blocks
          /\ Forall2 (fig6b_radius_block p_values) radii blocks
          /\ forall k,
               calls k (emitted o)
               = (length radii
                  * fig6b_calls_per_radius (length p_values) k)%nat).
Proof.
  split.
  - intros p_start p_end p_step trials rx rz n_process o Hres. subst o.
    destruct (scan_blocks _ _ _ _ _ _ _ _ _ Hres)
      as (p_values & blocks & Hgrid & Htrace & HF).
    exists p_values, blocks. repeat split; auto.
    intros k. rewrite Htrace.
    apply (calls_concat _ _ _ _ _
             (fun R b H => scan_radius_block_calls _ _ _ _ _ _ R b k H) HF).
  - intros d o Hres. subst o.
    destruct (fig6b_blocks _ _ _ Hres)
      as (p_values & blocks & Hgrid & Htrace & HF).
    exists p_values. eexists. exists blocks. repeat split; eauto.
    intros k. rewrite Htrace.
    change (EvPrint ?s :: concat blocks)
      with ([@EvPrint C s] ++ concat blocks).
    rewrite calls_app.
    rewrite (calls_concat _ _ _ _ _
               (fun R b H => fig6b_radius_block_calls _ R b k H) HF).
    destruct k; reflexivity.
Qed.

Lemma sweeps_build_once_per_radius_witness :
  (exists p_values blocks,
      MaxRate.noise_grid 0.0 0.30 0.05 = inr p_values
      /\ emitted (@MaxRate.scan_success_rates Stub.plain [0; 1] 0.0 0.30 0.05
                    100 (1 / 3) (1 / 3) 8 0%nat) = concat blocks
      /\ Forall2 (scan_radius_block p_values (1 / 3)
                    (1 - 1 / 3 - 1 / 3)%float (1 / 3) 100 8)
                 [0; 1] blocks
      /\ forall k,
           calls k (emitted (@MaxRate.scan_success_rates Stub.plain [0; 1]
                               0.0 0.30 0.05 100 (1 / 3) (1 / 3) 8 0%nat))
           = (2 * scan_calls_per_radius (length p_values) k)%nat)
  /\ (exists p_values header blocks,
        Figs.fig6b_grid = inr p_values
        /\ emitted (@Figs.generate_data_fig6b Stub.plain [0; 1] 0%nat)
           = EvPrint header :: concat blocks
        /\ Forall2 (fig6b_radius_block p_values) [0; 1] blocks
        /\ forall k,
             calls k (emitted (@Figs.generate_data_fig6b Stub.plain [0; 1]
                                 0%nat))
             = (2 * fig6b_calls_per_radius (length p_values) k)%nat).
Proof.
  split.
  - apply (proj1 (sweeps_build_once_per_radius Stub.plain [0; 1] 0%nat)
             0.0%float 0.30%float 0.05%float 100
             (1 / 3)%float (1 / 3)%float 8).
    vm_compute. reflexivity.
  - apply (proj2 (sweeps_build_once_per_radius Stub.plain [0; 1] 0%nat)
             (match res (@Figs.generate_data_fig6b Stub.plain [0; 1] 0%nat)
              with inr d => d | inl _ => [] end)).
    vm_compute. reflexivity.
Defined.

(** C5, the claim as stated fails: [scan_success_rates] takes any ratios.
    With [rx = rz = 0.8] the decoder is called with [ry] below zero. *)
Lemma negative_ry_reaches_decoder :
  exists a r,
    In (EvTNDecoder a r)
       (emitted (@MaxRate.scan_success_rates Stub.plain [0] 0 0 0.05 100
                   0.8 0.8 8 0%nat))
    /\ tn_rx a = 0.8%float
    /\ tn_rz a = 0.8%float
    /\ (tn_ry a <? 0)%float = true.
Proof.
  eexists (TnArgs _ _ _ _ _ _ _ _ _ _), _. split.
  - vm_compute. right. right. right. right. right. left. reflexivity.
  - repeat split; vm_compute; reflexivity.
Qed.

(** C5, amended.  Every decoder call of [scan_success_rates] is given the
    triple [(rx, 1 - rx - rz, rz)] as it is, with no check of the ratios,
    and every decoder call of [generate_data_fig6b] the fixed triple of 1/3,
    [1 - 1/3 - 1/3] and 1/3.  For the default ratios 1/3 and 1/3, which are
    also the fixed ones, the three components are not negative and add up to
    exactly 1 in binary64. *)
Theorem depolarizing_triple_is_unchecked (C : Collaborators)
    (radii : list Z) (p_start p_end p_step : float) (trials : Z)
    (rx rz : float) (n_process : Z) (w : World C) :
  Forall (triple_is rx (1 - rx - rz)%float rz)
    (emitted (MaxRate.scan_success_rates radii p_start p_end p_step trials
                                         rx rz n_process w))
  /\ Forall (triple_is Figs.rx_ratio Figs.ry_ratio Figs.rz_ratio)
       (emitted (Figs.generate_data_fig6b radii w))
  /\ Figs.rx_ratio = MaxRate.default_rx
  /\ Figs.rz_ratio = MaxRate.default_rz
  /\ Figs.ry_ratio = (1 - MaxRate.default_rx - MaxRate.default_rz)%float
  /\ (0 <=? MaxRate.default_rx)%float = true
  /\ (0 <=? 1 - MaxRate.default_rx - MaxRate.default_rz)%float = true
  /\ (0 <=? MaxRate.default_rz)%float = true
  /\ (MaxRate.default_rx + (1 - MaxRate.default_rx - MaxRate.default_rz)
      + MaxRate.default_rz)%float = 1%float.
Proof.
  split; [apply scan_triple|]. split; [apply fig6b_triple|].
  repeat split; vm_compute; reflexivity.
Qed.

(** C7 (the code departs from the claim).  The claim: a radius whose
    reference file is absent is reported and skipped, and the plotting run
    goes on.  The comment in [plot_results] announces the reference curves
    "for comparison (if available)", but the file is loaded without any
    test: if the file of any radius of [pauli_data] is not there, the run of
    [plot_results] ends with an exception and the figure is never saved. *)
Theorem plot_results_aborts_without_reference_file (C : Collaborators)
    (fs : gmap string (list float))
    (erasure_data pauli_data : list (Z * list (float * float)))
    (R : Z) (w : World C) :
  In R (dict_keys pauli_data) ->
  fs !! Figs.reference_filename R = None ->
  raises (res (Figs.plot_results fs erasure_data pauli_data w))
  /\ no_savefig (emitted (Figs.plot_results fs erasure_data pauli_data w)).
Proof. apply plot_results_missing_reference. Qed.

Lemma plot_results_aborts_without_reference_file_witness :
  raises (res (@Figs.plot_results Stub.plain
                 {[ Figs.reference_filename 0 := [0; 0.25; 0.5]%float ]}
                 [(0, [(0, 1)%float])]
                 [(0, [(0, 1); (0.5, 0.5)]%float);
                  (1, [(0, 1); (0.5, 0.5)]%float)] 0%nat))
  /\ no_savefig
       (emitted (@Figs.plot_results Stub.plain
                   {[ Figs.reference_filename 0 := [0; 0.25; 0.5]%float ]}
                   [(0, [(0, 1)%float])]
                   [(0, [(0, 1); (0.5, 0.5)]%float);
                    (1, [(0, 1); (0.5, 0.5)]%float)] 0%nat)).
Proof.
  apply (plot_results_aborts_without_reference_file Stub.plain _ _ _ 1).
  - simpl. right. left. reflexivity.
  - vm_compute. reflexivity.
Defined.

(** What the run of the witness above does: the curves of radius 0 are
    drawn, the file of radius 1 is missing, and the run ends there with
    [FileNotFoundError]. *)
Example plot_results_second_radius_missing :
  @Figs.plot_results Stub.plain
    {[ Figs.reference_filename 0 := [0; 0.25; 0.5]%float ]}
    [(0, [(0, 1)%float])]
    [(0, [(0, 1); (0.5, 0.5)]%float); (1, [(0, 1); (0.5, 0.5)]%float)] 0%nat
  = @Outcome Stub.plain unit (inl FileNotFoundError) 0%nat
      [EvSubplots;
       EvPlot Ax1 [0%float] [1%float] "R=0" (Some "o") None "tab:blue";
       EvDecorate Ax1 "Fig 6(a): Erasure Threshold"
                  "Erasure Probability $p$" "Recovery Rate";
       EvPlot Ax2 [0; 0.5]%float [1; 0.5]%float "R=0" (Some "o") None
              "tab:blue";
       EvLoadTxt "hqec_tesseract_logical_error_rates_lin_R=0.txt"
                 (inr [0; 0.25; 0.5]%float);
       EvPlot Ax2 [0; 0.25; 0.5]%float [1; 0.75; 0.5]%float "Tesseract R=0"
              None (Some "--") "tab:blue";
       EvPlot Ax2 [0; 0.5]%float [1; 0.5]%float "R=1" (Some "s") None
              "tab:orange";
       EvLoadTxt "hqec_tesseract_logical_error_rates_lin_R=1.txt"
                 (inl FileNotFoundError)].
Proof. vm_compute. reflexivity. Qed.

(** C8, the claim as stated fails: [scan_success_rates] hands nothing back.
    Two runs on the same arguments whose decoders return different rates
    both return [None]: the caller cannot tell the sweep results apart, they
    are printed only. *)
Lemma scan_success_rates_returns_no_rates :
  let o1 := @MaxRate.scan_success_rates Stub.plain [0] 0.0 0.30 0.05 100
                                        (1 / 3) (1 / 3) 8 0%nat in
  let o2 := @MaxRate.scan_success_rates Stub.plain_quarter [0] 0.0 0.30 0.05
                                        100 (1 / 3) (1 / 3) 8 0%nat in
  res o1 = inr tt
  /\ res o2 = inr tt
  /\ emitted_pairs (emitted o1) <> emitted_pairs (emitted o2).
Proof.
  cbv zeta. split; [vm_compute; reflexivity|].
  split; [vm_compute; reflexivity|].
  vm_compute. discriminate.
Qed.

(** C9.  In every run of [scan_success_rates], a decoder call that returns
    a rate is followed at once by the printed line
    [  p=<p> -> success rate <rate>], with the noise value of the call in
    two decimals and the returned rate in three. *)
Theorem progress_line_follows_each_decoded_point (C : Collaborators)
    (radii : list Z) (p_start p_end p_step : float) (trials : Z)
    (rx rz : float) (n_process : Z) (w : World C) (i : nat) a (rate : float) :
  emitted (MaxRate.scan_success_rates radii p_start p_end p_step trials
                                      rx rz n_process w) !! i
  = Some (EvTNDecoder a (inr rate)) ->
  emitted (MaxRate.scan_success_rates radii p_start p_end p_step trials
                                      rx rz n_process w) !! S i
  = Some (EvPrint ("  p=" +:+ F64.format_fixed 2 (tn_p a)
                   +:+ " -> success rate " +:+ F64.format_fixed 3 rate)).
Proof.
  intros Hi.
  apply (line_follows_lookup _ (scan_line_follows _ _ _ _ _ _ _ _ _) _ _ _ Hi).
Qed.

Lemma progress_line_follows_each_decoded_point_witness :
  emitted (@MaxRate.scan_success_rates Stub.plain [0] 0.0 0.30 0.05 100
             (1 / 3) (1 / 3) 8 0%nat) !! 8%nat
  = Some (EvPrint "  p=0.05 -> success rate 0.500").
Proof.
  apply (progress_line_follows_each_decoded_point Stub.plain [0]
           0.0 0.30 0.05 100 (1 / 3) (1 / 3) 8 0%nat 7
           (@MaxRate.decoder_args Stub.plain 0 0.05 (1 / 3)
              (1 - 1 / 3 - 1 / 3) (1 / 3) 100 8 [0] [0] [0])
           0.5).
  vm_compute. reflexivity.
Defined.

(** * Further properties of the two scripts *)

(** ** No exception is caught *)

Section StopFacts.

Context {C : Collaborators}.

Lemma all_returned_app (t1 t2 : list (event C)) :
  all_returned t1 -> all_returned t2 -> all_returned (t1 ++ t2).
Proof. apply Forall_app_2. Qed.

Lemma stops_bind {A B} (m : M C A) (f : A -> M C B) (w : World C) :
  stops_at_failure (m w) ->
  (forall a w', stops_at_failure (f a w')) ->
  stops_at_failure (bind m f w).
Proof.
  unfold stops_at_failure, bind. intros Hm Hf.
  destruct (res (m w)) as [e|a] eqn:E; simpl; [exact Hm|].
  specialize (Hf a (world_after (m w))).
  destruct (res (f a (world_after (m w)))) as [e|b].
  - destruct Hf as (t & ev & -> & Ht & Hev).
    exists (emitted (m w) ++ t), ev. split; [|split].
    + rewrite app_assoc. reflexivity.
    + apply all_returned_app; assumption.
    + exact Hev.
  - apply all_returned_app; assumption.
Qed.

Lemma stops_call {A} (f : World C -> result A * World C)
    (ev : result A -> event C) (w : World C) :
  (forall a, failure_of (ev (inr a)) = None) ->
  (forall e, failure_of (ev (inl e)) = Some e) ->
  stops_at_failure (call f ev w).
Proof.
  intros Hok Hfail. unfold stops_at_failure, call.
  destruct (f w) as [[e|a] w']; simpl.
  - exists [], (ev (inl e)). repeat split; [constructor|apply Hfail].
  - constructor; [apply Hok|constructor].
Qed.

Lemma stops_emit (ev : event C) (w : World C) :
  failure_of ev = None -> stops_at_failure (emit ev w).
Proof. intros H. unfold stops_at_failure. simpl. repeat constructor. exact H. Qed.

Lemma stops_ret {A} (a : A) (w : World C) : stops_at_failure (ret a w).
Proof. unfold stops_at_failure. simpl. constructor. Qed.

Lemma stops_for_each {A} (xs : list A) (body : A -> M C unit) :
  (forall x w, stops_at_failure (body x w)) ->
  forall w, stops_at_failure (for_each xs body w).
Proof.
  intros Hbody. induction xs as [|x xs IH]; intros w; simpl.
  - apply stops_ret.
  - apply stops_bind; auto.
Qed.

Lemma stops_for_fold {A S} (xs : list A) (body : S -> A -> M C S) :
  (forall s x w, stops_at_failure (body s x w)) ->
  forall s w, stops_at_failure (for_fold xs s body w).
Proof.
  intros Hbody. induction xs as [|x xs IH]; intros s w; simpl.
  - apply stops_ret.
  - apply stops_bind; auto.
Qed.

Lemma scan_radius_stops p_values rx ry rz trials n_process radius
    (w : World C) :
  stops_at_failure
    (MaxRate.scan_radius p_values rx ry rz trials n_process radius w).
Proof.
  unfold MaxRate.scan_radius.
  repeat (apply stops_bind; [apply stops_call; reflexivity|intros]).
  apply stops_bind; [apply stops_emit; reflexivity|intros].
  apply stops_for_each. intros p wp. unfold MaxRate.scan_point.
  apply stops_bind; [apply stops_call; reflexivity|intros].
  apply stops_emit. reflexivity.
Qed.

Lemma fig6b_radius_stops p_values data_storage R (w : World C) :
  stops_at_failure (Figs.fig6b_radius p_values data_storage R w).
Proof.
  unfold Figs.fig6b_radius.
  apply stops_bind; [apply stops_emit; reflexivity|intros].
  apply stops_bind; [apply stops_call; reflexivity|intros].
  apply stops_bind; [|intros; apply stops_ret].
  apply stops_for_fold. intros s p wp. unfold Figs.fig6b_point.
  apply stops_bind; [apply stops_emit; reflexivity|intros].
  apply stops_bind; [apply stops_call; reflexivity|intros].
  apply stops_ret.
Qed.

End StopFacts.

(** X1.  [scan_success_rates] catches nothing.  If the noise grid cannot be
    made, the run raises that exception at once, before any call and any
    line.  Otherwise the run returns only if every call returned, and if it
    raises then the exception is the one of its last event, a call that
    raised, and every call before that one returned. *)
Theorem scan_stops_at_first_failure (C : Collaborators) (radii : list Z)
    (p_start p_end p_step : float) (trials : Z) (rx rz : float)
    (n_process : Z) (w : World C) :
  match MaxRate.noise_grid p_start p_end p_step with
  | inl e =>
      MaxRate.scan_success_rates radii p_start p_end p_step trials rx rz
                                 n_process w
      = Outcome (inl e) w []
  | inr _ =>
      stops_at_failure
        (MaxRate.scan_success_rates radii p_start p_end p_step trials rx rz
                                    n_process w)
  end.
Proof.
  unfold MaxRate.scan_success_rates.
  destruct (MaxRate.noise_grid p_start p_end p_step) as [e|p_values].
  - reflexivity.
  - apply stops_bind.
    + unfold stops_at_failure. simpl. constructor.
    + intros ps wg. apply stops_for_each. intros R wr.
      apply scan_radius_stops.
Qed.

(** X2.  [generate_data_fig6b] catches nothing either: it returns its
    dictionary only if every call returned, and if it raises then the
    exception is the one of its last event, a call that raised, every call
    before it having returned; no partial dictionary comes back. *)
Theorem fig6b_stops_at_first_failure (C : Collaborators) (radii : list Z)
    (w : World C) :
  stops_at_failure (Figs.generate_data_fig6b radii w).
Proof.
  unfold Figs.generate_data_fig6b.
  apply stops_bind; [apply stops_emit; reflexivity|intros].
  apply stops_bind.
  - unfold stops_at_failure. simpl. constructor.
  - intros ps wg. apply stops_for_fold. intros s R wr.
    apply fig6b_radius_stops.
Qed.

(** ** [generate_data_fig6a], run by run *)

Section Fig6aRuns.

Context {C : Collaborators}.

Lemma fig6a_conduct_of_stops {A} (o : outcome C A) :
  stops_at_failure o -> fig6a_conduct_of o.
Proof.
  unfold stops_at_failure, fig6a_conduct_of, fig6a_failure.
  destruct (res o); [|auto].
  intros (t & ev & Ht & Hall & Hev). exists t, ev. auto.
Qed.

Lemma fig6a_conduct_bind {A B} (m : M C A) (f : A -> M C B) (w : World C) :
  fig6a_conduct_of (m w) ->
  (forall a w', fig6a_conduct_of (f a w')) ->
  fig6a_conduct_of (bind m f w).
Proof.
  unfold fig6a_conduct_of, bind. intros Hm Hf.
  destruct (res (m w)) as [e|a] eqn:E; simpl; [exact Hm|].
  specialize (Hf a (world_after (m w))).
  destruct (res (f a (world_after (m w)))) as [e|b].
  - destruct Hf as (t & ev & -> & Ht & Hev).
    exists (emitted (m w) ++ t), ev. split; [|split].
    + rewrite app_assoc. reflexivity.
    + apply all_returned_app; assumption.
    + exact Hev.
  - apply all_returned_app; assumption.
Qed.

Lemma fig6a_conduct_for_fold {A S} (xs : list A) (body : S -> A -> M C S) :
  (forall s x w, fig6a_conduct_of (body s x w)) ->
  forall s w, fig6a_conduct_of (for_fold xs s body w).
Proof.
  intros Hbody. induction xs as [|x xs IH]; intros s w; simpl.
  - apply fig6a_conduct_of_stops, stops_ret.
  - apply fig6a_conduct_bind; auto.
Qed.

(** From the extraction of the logical operators to the end of the radius. *)
Lemma fig6a_tail_conduct data_storage R stabilizers push_results
    (w : World C) :
  fig6a_conduct_of
    (bind (call (extract_logicals_from_result_dict C push_results)
                (EvExtractLogicals push_results))
          (fun logicals =>
             bind (Figs.index0 (fst logicals)) (fun z0 =>
             bind (Figs.index0 (snd logicals)) (fun x0 =>
             bind (call (calculate_recovery_rates_for_p_range C
                           (ErasureArgs Figs.N_TRIALS_ERASURE 0.01 0.60 0.04
                                        stabilizers ([z0] ++ [x0])))
                        (EvErasureDecoder
                           (ErasureArgs Figs.N_TRIALS_ERASURE 0.01 0.60 0.04
                                        stabilizers ([z0] ++ [x0]))))
                  (fun results => ret (dict_set R results data_storage)))))
          w).
Proof.
  unfold fig6a_conduct_of, bind, call.
  destruct (extract_logicals_from_result_dict C push_results w)
    as [[e|[zs xs]] w1]; simpl.
  - exists [], (EvExtractLogicals push_results (inl e)).
    repeat split; [constructor|left; reflexivity].
  - destruct zs as [|z0 zs]; simpl.
    { exists [], (EvExtractLogicals push_results (inr ([], xs))).
      repeat split; [constructor|]. right. split; [reflexivity|].
      eexists _, _. split; [reflexivity|]. left. reflexivity. }
    destruct xs as [|x0 xs]; simpl.
    { exists [], (EvExtractLogicals push_results (inr (z0 :: zs, []))).
      repeat split; [constructor|]. right. split; [reflexivity|].
      eexists _, _. split; [reflexivity|]. right. reflexivity. }
    destruct (calculate_recovery_rates_for_p_range C _ w1)
      as [[e|results] w2]; simpl.
    + eexists [_], _. split; [reflexivity|].
      split; [repeat constructor|left; reflexivity].
    + repeat constructor.
Qed.

Lemma fig6a_radius_conduct data_storage R (w : World C) :
  fig6a_conduct_of (Figs.fig6a_radius data_storage R w).
Proof.
  unfold Figs.fig6a_radius.
  apply fig6a_conduct_bind;
    [apply fig6a_conduct_of_stops, stops_emit; reflexivity|intros].
  do 3 (apply fig6a_conduct_bind;
        [apply fig6a_conduct_of_stops, stops_call; reflexivity|intros]).
  apply fig6a_tail_conduct.
Qed.

Lemma fig6a_radius_block_ok data_storage R (w : World C) d' :
  res (Figs.fig6a_radius data_storage R w) = inr d' ->
  fig6a_radius_block R (emitted (Figs.fig6a_radius data_storage R w)).
Proof.
  unfold Figs.fig6a_radius. intros H.
  apply bind_returns in H as ([] & _ & H & ->).
  apply bind_returns in H as (tensor_list & H1 & H & ->).
  rewrite (call_result_emitted _ _ _ _ H1).
  apply bind_returns in H as (push_results & H2 & H & ->).
  rewrite (call_result_emitted _ _ _ _ H2).
  apply bind_returns in H as (stabilizers & H3 & H & ->).
  rewrite (call_result_emitted _ _ _ _ H3).
  apply bind_returns in H as (logicals & H4 & H & ->).
  rewrite (call_result_emitted _ _ _ _ H4).
  apply bind_returns in H as (z0 & Hz & H & ->).
  apply bind_returns in H as (x0 & Hx & H & ->).
  apply bind_returns in H as (results & H5 & _ & ->).
  rewrite (call_result_emitted _ _ _ _ H5).
  exists tensor_list, push_results, stabilizers, logicals, z0, x0, results.
  destruct logicals as [[|z zs] [|x xs]]; simpl in Hz, Hx |- *;
    try discriminate.
  injection Hz as ->. injection Hx as ->.
  repeat split; reflexivity.
Qed.

Lemma fig6a_radius_block_calls R (t : list (event C)) (k : call_kind) :
  fig6a_radius_block R t ->
  calls k t = match k with TNDecoding => 0%nat | _ => 1%nat end.
Proof.
  intros (tensor_list & push_results & stabilizers & logicals & z0 & x0
          & results & _ & _ & ->).
  destruct k; reflexivity.
Qed.

End Fig6aRuns.

(** X3.  How a run of [generate_data_fig6a] can end: it returns only if
    every call returned; if it raises, then either the exception is the one
    of its last event, a call that raised, or it is the [IndexError] of the
    indexing [logical_zs[0]] or [logical_xs[0]] and the last event is the
    extraction that returned an empty list.  In both cases every earlier
    call returned: nothing is caught and nothing is retried. *)
Theorem fig6a_ends_on_failed_call_or_indexing (C : Collaborators)
    (radii : list Z) (w : World C) :
  fig6a_conduct_of (Figs.generate_data_fig6a radii w).
Proof.
  unfold Figs.generate_data_fig6a.
  apply fig6a_conduct_bind;
    [apply fig6a_conduct_of_stops, stops_emit; reflexivity|intros].
  apply fig6a_conduct_for_fold. intros s R wr. apply fig6a_radius_conduct.
Qed.

(** X4.  In a run of [generate_data_fig6a] that returns, the trace is the
    opening line and then one block per radius, in order: the line of the
    radius, the zero-rate construction, the push, the two extractions and a
    single call of the erasure decoder, on 200 trials from 0.01 to 0.60 in
    steps of 0.04, with the first logical Z and the first logical X operator
    as the two logical operators.  The tensor-network decoder is not
    called. *)
Theorem fig6a_one_erasure_call_per_radius (C : Collaborators)
    (radii : list Z) (w : World C) d :
  res (Figs.generate_data_fig6a radii w) = inr d ->
  exists header blocks,
    emitted (Figs.generate_data_fig6a radii w) = EvPrint header :: concat blocks
    /\ Forall2 fig6a_radius_block radii blocks
    /\ forall k,
         calls k (emitted (Figs.generate_data_fig6a radii w))
         = (length radii
            * match k with TNDecoding => 0 | _ => 1 end)%nat.
Proof.
  unfold Figs.generate_data_fig6a. intros H.
  apply bind_returns in H as ([] & _ & H & E1).
  apply (for_fold_blocks fig6a_radius_block) in H as (blocks & E2 & HF).
  - eexists _, blocks. split; [|split].
    + etransitivity; [exact E1|]. simpl. f_equal. exact E2.
    + exact HF.
    + intros k. rewrite E1, E2. rewrite calls_app.
      rewrite (calls_concat _ _ _ _ _
                 (fun R b Hb => fig6a_radius_block_calls R b k Hb) HF).
      destruct k; reflexivity.
  - intros s R w' s'. apply fig6a_radius_block_ok.
Qed.

Lemma fig6a_one_erasure_call_per_radius_witness :
  exists header blocks,
    emitted (@Figs.generate_data_fig6a Stub.plain [0; 1; 0] 0%nat)
    = EvPrint header :: concat blocks
    /\ Forall2 fig6a_radius_block [0; 1; 0] blocks
    /\ forall k,
         calls k (emitted (@Figs.generate_data_fig6a Stub.plain [0; 1; 0]
                             0%nat))
         = (3 * match k with TNDecoding => 0 | _ => 1 end)%nat.
Proof.
  apply (fig6a_one_erasure_call_per_radius Stub.plain [0; 1; 0] 0%nat
           (match res (@Figs.generate_data_fig6a Stub.plain [0; 1; 0] 0%nat)
            with inr d => d | inl _ => [] end)).
  vm_compute. reflexivity.
Defined.

(** ** What each function leaves alone *)

Section KindFacts.

Context {C : Collaborators}.

Lemma only_app (f : event C -> bool) (t1 t2 : list (event C)) :
  Forall (fun ev => f ev = true) t1 ->
  Forall (fun ev => f ev = true) t2 ->
  Forall (fun ev => f ev = true) (t1 ++ t2).
Proof. apply Forall_app_2. Qed.

Lemma only_nil (f : event C -> bool) :
  Forall (fun ev => f ev = true) (@nil (event C)).
Proof. constructor. Qed.

Lemma scan_events_only radii p_start p_end p_step trials rx rz n_process
    (w : World C) :
  Forall (fun ev => scan_event ev = true)
    (emitted (MaxRate.scan_success_rates radii p_start p_end p_step trials
                                         rx rz n_process w)).
Proof.
  pose proof (only_nil scan_event) as Hnil.
  pose proof (only_app scan_event) as Happ.
  unfold MaxRate.scan_success_rates.
  apply inv_bind; [assumption|exact Hnil|intros].
  apply inv_for_each; [assumption..|intros].
  unfold MaxRate.scan_radius.
  repeat (apply inv_bind;
          [assumption
          |apply inv_call; intros; repeat constructor
          |intros]).
  apply inv_bind; [assumption|repeat constructor|intros].
  apply inv_for_each; [assumption..|intros].
  unfold MaxRate.scan_point.
  apply inv_bind; [assumption| |intros; repeat constructor].
  apply inv_call. intros. repeat constructor.
Qed.

Lemma fig6a_events_only radii (w : World C) :
  Forall (fun ev => fig6a_event ev = true)
    (emitted (Figs.generate_data_fig6a radii w)).
Proof.
  pose proof (only_nil fig6a_event) as Hnil.
  pose proof (only_app fig6a_event) as Happ.
  unfold Figs.generate_data_fig6a.
  apply inv_bind; [assumption|repeat constructor|intros].
  apply inv_for_fold; [assumption..|intros].
  unfold Figs.fig6a_radius.
  apply inv_bind; [assumption|repeat constructor|intros].
  do 3 (apply inv_bind;
        [assumption
        |apply inv_call; intros; repeat constructor
        |intros]).
  apply inv_bind;
    [assumption
    |apply inv_call; intros; repeat constructor
    |intros logicals wl].
  apply inv_bind; [assumption| |intros z0 wz].
  { unfold Figs.index0. destruct (fst logicals); exact Hnil. }
  apply inv_bind; [assumption| |intros x0 wx].
  { unfold Figs.index0. destruct (snd logicals); exact Hnil. }
  apply inv_bind; [assumption| |intros; exact Hnil].
  apply inv_call. intros. repeat constructor.
Qed.

Lemma fig6b_events_only radii (w : World C) :
  Forall (fun ev => fig6b_event ev = true)
    (emitted (Figs.generate_data_fig6b radii w)).
Proof.
  pose proof (only_nil fig6b_event) as Hnil.
  pose proof (only_app fig6b_event) as Happ.
  unfold Figs.generate_data_fig6b.
  apply inv_bind; [assumption|repeat constructor|intros].
  apply inv_bind; [assumption|exact Hnil|intros].
  apply inv_for_fold; [assumption..|intros].
  unfold Figs.fig6b_radius.
  apply inv_bind; [assumption|repeat constructor|intros].
  apply inv_bind;
    [assumption|apply inv_call; intros; repeat constructor|intros].
  apply inv_bind; [assumption| |intros; exact Hnil].
  apply inv_for_fold; [assumption..|intros].
  unfold Figs.fig6b_point.
  apply inv_bind; [assumption|repeat constructor|intros].
  apply inv_bind; [assumption| |intros; exact Hnil].
  apply inv_call. intros. repeat constructor.
Qed.

End KindFacts.

(** X5.  Whatever happens, [scan_success_rates] causes only calls of the
    max-rate construction, the push, the two extractions and the
    tensor-network decoder, and printed lines: it never builds the zero-rate
    code, never calls the erasure decoder, reads no file and draws
    nothing. *)
Theorem scan_success_rates_keeps_to_its_collaborators (C : Collaborators)
    (radii : list Z) (p_start p_end p_step : float) (trials : Z)
    (rx rz : float) (n_process : Z) (w : World C) :
  Forall (fun ev => scan_event ev = true)
    (emitted (MaxRate.scan_success_rates radii p_start p_end p_step trials
                                         rx rz n_process w)).
Proof. apply scan_events_only. Qed.

(** X6.  Whatever happens, [generate_data_fig6a] causes only calls of the
    zero-rate construction, the push, the two extractions and the erasure
    decoder, and printed lines; every call of the erasure decoder is on 200
    trials, from 0.01 to 0.60 in steps of 0.04, with exactly two logical
    operators.  The tensor-network decoder is never called. *)
Theorem generate_data_fig6a_keeps_to_its_collaborators (C : Collaborators)
    (radii : list Z) (w : World C) :
  Forall (fun ev => fig6a_event ev = true)
    (emitted (Figs.generate_data_fig6a radii w)).
Proof. apply fig6a_events_only. Qed.

(** X7.  Whatever happens, [generate_data_fig6b] causes only calls of the
    zero-rate construction and of the tensor-network decoder, and printed
    lines; every decoder call is on 200 trials and 4 processes and is given
    neither stabilizers nor logical operators. *)
Theorem generate_data_fig6b_keeps_to_its_collaborators (C : Collaborators)
    (radii : list Z) (w : World C) :
  Forall (fun ev => fig6b_event ev = true)
    (emitted (Figs.generate_data_fig6b radii w)).
Proof. apply fig6b_events_only. Qed.

(** ** [plot_results], run by run *)

Section PlotRuns.

Context {C : Collaborators}.

Lemma world_bind {A B} (m : M C A) (f : A -> M C B) (w : World C) :
  world_after (m w) = w ->
  (forall a, world_after (f a w) = w) ->
  world_after (bind m f w) = w.
Proof.
  intros Hm Hf. unfold bind. destruct (res (m w)); simpl; [exact Hm|].
  rewrite Hm. apply Hf.
Qed.

Lemma world_for_each {A} (xs : list A) (body : A -> M C unit) (w : World C) :
  (forall x, world_after (body x w) = w) ->
  world_after (for_each xs body w) = w.
Proof.
  intros Hbody. induction xs as [|x xs IH]; simpl; [reflexivity|].
  apply world_bind; auto.
Qed.

Lemma columns_world d (w : World C) :
  world_after (Figs.columns d w) = w.
Proof. destruct d; reflexivity. Qed.

Lemma plot_erasure_curve_world item (w : World C) :
  world_after (Figs.plot_erasure_curve item w) = w.
Proof.
  unfold Figs.plot_erasure_curve.
  apply world_bind; [apply columns_world|reflexivity].
Qed.

Lemma plot_pauli_curve_world fs item (w : World C) :
  world_after (Figs.plot_pauli_curve fs item w) = w.
Proof.
  unfold Figs.plot_pauli_curve.
  apply world_bind; [apply columns_world|intros xy].
  apply world_bind; [reflexivity|intros _].
  apply world_bind; [reflexivity|intros tess_err].
  apply world_bind.
  { unfold Figs.array_len. destruct tess_err as [|? [|? ?]]; reflexivity. }
  intros n. apply world_bind; reflexivity.
Qed.

Lemma plot_results_world fs erasure_data pauli_data (w : World C) :
  world_after (Figs.plot_results fs erasure_data pauli_data w) = w.
Proof.
  unfold Figs.plot_results.
  apply world_bind; [reflexivity|intros _].
  apply world_bind;
    [apply world_for_each; intros; apply plot_erasure_curve_world|intros _].
  apply world_bind; [reflexivity|intros _].
  apply world_bind;
    [apply world_for_each; intros; apply plot_pauli_curve_world|intros _].
  repeat (apply world_bind; [reflexivity|intros _]).
  reflexivity.
Qed.

Lemma plot_results_events_only fs erasure_data pauli_data (w : World C) :
  Forall (fun ev => plot_event ev = true)
    (emitted (Figs.plot_results fs erasure_data pauli_data w)).
Proof.
  pose proof (only_nil (@plot_event C)) as Hnil.
  pose proof (only_app (@plot_event C)) as Happ.
  unfold Figs.plot_results.
  apply inv_bind; [assumption|repeat constructor|intros].
  apply inv_bind; [assumption| |intros].
  { apply inv_for_each; [assumption..|intros item wi].
    unfold Figs.plot_erasure_curve.
    apply inv_bind; [assumption| |intros; repeat constructor].
    unfold Figs.columns. destruct (snd (snd item)); exact Hnil. }
  apply inv_bind; [assumption|repeat constructor|intros].
  apply inv_bind; [assumption| |intros].
  { apply inv_for_each; [assumption..|intros item wi].
    unfold Figs.plot_pauli_curve.
    apply inv_bind; [assumption| |intros].
    { unfold Figs.columns. destruct (snd (snd item)); exact Hnil. }
    apply inv_bind; [assumption|repeat constructor|intros].
    apply inv_bind; [assumption| |intros tess_err wt].
    { unfold Figs.loadtxt. apply inv_call. intros. repeat constructor. }
    apply inv_bind; [assumption| |intros].
    { unfold Figs.array_len. destruct tess_err as [|? [|? ?]]; exact Hnil. }
    apply inv_bind; [assumption|exact Hnil|intros].
    repeat constructor. }
  repeat (apply inv_bind; [assumption|repeat constructor|intros]).
  repeat constructor.
Qed.

End PlotRuns.

(** X8.  [plot_results] calls none of the collaborators: whether it returns
    or raises, it leaves their world as it was, and all it does is draw,
    read reference files, save the figure and print. *)
Theorem plot_results_calls_no_collaborator (C : Collaborators)
    (fs : gmap string (list float))
    (erasure_data pauli_data : list (Z * list (float * float)))
    (w : World C) :
  world_after (Figs.plot_results fs erasure_data pauli_data w) = w
  /\ Forall (fun ev => plot_event ev = true)
       (emitted (Figs.plot_results fs erasure_data pauli_data w)).
Proof.
  split; [apply plot_results_world|apply plot_results_events_only].
Qed.

Section PlotSuccess.

Context {C : Collaborators}.

Lemma curves_app (ax : axis) (t1 t2 : list (event C)) :
  curves ax (t1 ++ t2) = (curves ax t1 + curves ax t2)%nat.
Proof. unfold curves. rewrite List.filter_app, length_app. reflexivity. Qed.

Lemma curves_concat {A} (B : A -> list (event C) -> Prop) (ax : axis)
    (n : nat) (xs : list A) (blocks : list (list (event C))) :
  (forall x b, B x b -> curves ax b = n) ->
  Forall2 B xs blocks ->
  curves ax (concat blocks) = (length xs * n)%nat.
Proof.
  intros HB HF. induction HF as [|x b xs blocks Hb _ IH]; simpl.
  - reflexivity.
  - rewrite curves_app, IH, (HB _ _ Hb). reflexivity.
Qed.

(** A loop whose body goes through on every element, without a change of
    the world, emits one block per element. *)
Lemma for_each_exact {A} (B : A -> list (event C) -> Prop) (xs : list A)
    (body : A -> M C unit) (w : World C) :
  (forall x, In x xs -> exists t, body x w = Outcome (inr tt) w t /\ B x t) ->
  exists blocks,
    for_each xs body w = Outcome (inr tt) w (concat blocks)
    /\ Forall2 B xs blocks.
Proof.
  induction xs as [|x xs IH]; intros Hbody.
  - exists []. split; [reflexivity|constructor].
  - destruct (Hbody x (or_introl eq_refl)) as (t & Hrun & Ht).
    destruct IH as (blocks & Hrest & HF).
    { intros y Hy. apply Hbody. right. exact Hy. }
    exists (t :: blocks). split; [|constructor; assumption].
    simpl for_each. rewrite (bind_outcome _ _ _ _ _ _ Hrun), Hrest.
    reflexivity.
Qed.

Lemma enumerate_from_snd {A} (i : nat) (x : A) (xs : list A) (n : nat) :
  In (i, x) (combine (seq n (length xs)) xs) -> In x xs.
Proof. apply List.in_combine_r. Qed.

Lemma linspace_returns (start stop : float) (num : Z) :
  0 <= num -> exists xs, Numpy.linspace start stop num = inr xs.
Proof.
  intros Hnum. unfold Numpy.linspace.
  destruct (Z.ltb_spec num 0) as [Hlt|_]; [lia|].
  destruct (Z.to_nat num) as [|[|k]]; eexists; reflexivity.
Qed.

Lemma plot_erasure_curve_ok (item : nat * (Z * list (float * float)))
    (w : World C) :
  snd (snd item) <> [] ->
  Figs.plot_erasure_curve item w
  = Outcome (inr tt) w (erasure_curve_events item).
Proof.
  intros Hd. unfold Figs.plot_erasure_curve, erasure_curve_events.
  destruct item as [i [R d]]. simpl in *.
  destruct d as [|xy d]; [contradiction|]. reflexivity.
Qed.

Lemma plot_pauli_curve_ok (fs : gmap string (list float))
    (item : nat * (Z * list (float * float))) (w : World C) :
  drawable fs (snd item) ->
  exists t,
    Figs.plot_pauli_curve fs item w = Outcome (inr tt) w t
    /\ pauli_curve_block fs item t.
Proof.
  intros [Hd (col & Hfile & Hlen)].
  destruct (linspace_returns 0 0.5 (Z.of_nat (length col))) as [xs Hxs];
    [lia|].
  exists (pauli_curve_events col xs item). split.
  - unfold Figs.plot_pauli_curve, pauli_curve_events.
    destruct item as [i [R d]]. simpl in *.
    destruct d as [|xy d]; [contradiction|].
    rewrite (bind_outcome _ _ w w (xy.1 :: map fst d, xy.2 :: map snd d) [])
      by reflexivity.
    rewrite bind_emit.
    unfold Figs.loadtxt. rewrite Hfile.
    rewrite (bind_call_ok _ _ _ w w col) by reflexivity.
    assert (Hn : Figs.array_len col w
                 = Outcome (inr (Z.of_nat (length col))) w []).
    { unfold Figs.array_len. destruct col as [|c [|c' col]];
        [reflexivity|contradiction|reflexivity]. }
    rewrite (bind_outcome _ _ _ _ _ _ Hn).
    rewrite Hxs.
    rewrite (bind_outcome _ _ w w xs []) by reflexivity.
    reflexivity.
  - exists col, xs. auto.
Qed.

Lemma plot_results_trace (fs : gmap string (list float))
    (erasure_data pauli_data : list (Z * list (float * float)))
    (w : World C) :
  Forall (fun Rd => snd Rd <> []) erasure_data ->
  Forall (drawable fs) pauli_data ->
  exists eblocks pblocks,
    Figs.plot_results fs erasure_data pauli_data w
    = Outcome (inr tt) w
        ([EvSubplots] ++ concat eblocks
         ++ [EvDecorate Ax1 "Fig 6(a): Erasure Threshold"
                        "Erasure Probability $p$" "Recovery Rate"]
         ++ concat pblocks ++ plot_closing)
    /\ Forall2 (fun item t => t = erasure_curve_events item)
               (enumerate erasure_data) eblocks
    /\ Forall2 (pauli_curve_block fs) (enumerate pauli_data) pblocks.
Proof.
  intros He Hp.
  destruct (for_each_exact (fun item t => t = erasure_curve_events item)
              (enumerate erasure_data) Figs.plot_erasure_curve w)
    as (eblocks & Hrun1 & HF1).
  { intros [i Rd] Hin. eexists. split; [|reflexivity].
    apply plot_erasure_curve_ok. simpl.
    apply enumerate_from_snd in Hin.
    rewrite Forall_forall in He. apply (He Rd).
    apply list_elem_of_In. exact Hin. }
  destruct (for_each_exact (pauli_curve_block fs)
              (enumerate pauli_data) (Figs.plot_pauli_curve fs) w)
    as (pblocks & Hrun2 & HF2).
  { intros [i Rd] Hin. apply plot_pauli_curve_ok. simpl.
    apply enumerate_from_snd in Hin.
    rewrite Forall_forall in Hp. apply (Hp Rd).
    apply list_elem_of_In. exact Hin. }
  exists eblocks, pblocks. split; [|split; assumption].
  unfold Figs.plot_results. rewrite bind_emit.
  rewrite (bind_outcome _ _ _ _ _ _ Hrun1). rewrite bind_emit.
  rewrite (bind_outcome _ _ _ _ _ _ Hrun2).
  unfold after, plot_closing. simpl. reflexivity.
Qed.

End PlotSuccess.

Section PlotCounts.

Context {C : Collaborators}.

Lemma count_concat {A} (B : A -> list (event C) -> Prop)
    (f : event C -> bool) (n : nat) (xs : list A)
    (blocks : list (list (event C))) :
  (forall x b, B x b -> length (List.filter f b) = n) ->
  Forall2 B xs blocks ->
  length (List.filter f (concat blocks)) = (length xs * n)%nat.
Proof.
  intros HB HF. induction HF as [|x b xs blocks Hb _ IH]; simpl.
  - reflexivity.
  - rewrite List.filter_app, length_app, IH, (HB _ _ Hb). reflexivity.
Qed.

Lemma enumerate_length {A} (xs : list A) :
  length (enumerate xs) = length xs.
Proof.
  unfold enumerate. rewrite length_combine, length_seq. lia.
Qed.

Lemma enumerate_from_lookup {A} (xs : list A) (n i : nat) (x : A) :
  xs !! i = Some x ->
  combine (seq n (length xs)) xs !! i = Some ((n + i)%nat, x).
Proof.
  revert n i. induction xs as [|y ys IH]; intros n i Hi; [destruct i; discriminate|].
  destruct i as [|i]; simpl in *.
  - injection Hi as ->. rewrite Nat.add_0_r. reflexivity.
  - rewrite (IH (S n) i Hi). f_equal. f_equal. lia.
Qed.

Lemma blocks_lookup {A} (B : A -> list (event C) -> Prop) (xs : list A)
    (blocks : list (list (event C))) (i : nat) (x : A) :
  Forall2 B xs blocks ->
  xs !! i = Some x ->
  exists b t1 t2, B x b /\ concat blocks = t1 ++ b ++ t2.
Proof.
  intros HF. revert i. induction HF as [|y b ys blocks Hb _ IH]; intros i Hi.
  - destruct i; discriminate.
  - destruct i as [|i]; simpl in Hi.
    + injection Hi as ->. exists b, [], (concat blocks). auto.
    + destruct (IH i Hi) as (b' & t1 & t2 & Hb' & E).
      exists b', (b ++ t1), t2. split; [exact Hb'|].
      simpl. rewrite E, <- app_assoc. reflexivity.
Qed.

Lemma linspace_length (start stop : float) (num : Z) (xs : list float) :
  Numpy.linspace start stop num = inr xs -> length xs = Z.to_nat num.
Proof.
  unfold Numpy.linspace. destruct (num <? 0); [discriminate|].
  destruct (Z.to_nat num) as [|[|k]]; intros H; injection H as <-;
    try reflexivity.
  simpl. rewrite length_app, length_map, length_seq. simpl. lia.
Qed.

Lemma erasure_blocks_count (f : event C -> bool) (n : nat)
    (items : list (nat * (Z * list (float * float))))
    (blocks : list (list (event C))) :
  (forall item, length (List.filter f (erasure_curve_events item)) = n) ->
  Forall2 (fun item t => t = erasure_curve_events item) items blocks ->
  length (List.filter f (concat blocks)) = (length items * n)%nat.
Proof.
  intros Hn. apply count_concat. intros item b ->. apply Hn.
Qed.

Lemma pauli_blocks_count (fs : gmap string (list float))
    (f : event C -> bool) (n : nat)
    (items : list (nat * (Z * list (float * float))))
    (blocks : list (list (event C))) :
  (forall col xs item,
      length (List.filter f (pauli_curve_events col xs item)) = n) ->
  Forall2 (pauli_curve_block fs) items blocks ->
  length (List.filter f (concat blocks)) = (length items * n)%nat.
Proof.
  intros Hn. apply count_concat. intros item b (col & xs & _ & _ & ->).
  apply Hn.
Qed.

(** What a filter keeps of the trace of a run of [plot_results] that went
    through. *)
Lemma plot_trace_count (fs : gmap string (list float))
    (f : event C -> bool) (ne np : nat)
    (eitems pitems : list (nat * (Z * list (float * float))))
    (eblocks pblocks : list (list (event C))) (dec : event C) :
  (forall item, length (List.filter f (erasure_curve_events item)) = ne) ->
  (forall col xs item,
      length (List.filter f (pauli_curve_events col xs item)) = np) ->
  Forall2 (fun item t => t = erasure_curve_events item) eitems eblocks ->
  Forall2 (pauli_curve_block fs) pitems pblocks ->
  length (List.filter f ([EvSubplots] ++ concat eblocks ++ [dec]
                         ++ concat pblocks ++ plot_closing))
  = (length (List.filter f [EvSubplots; dec])
     + length eitems * ne + length pitems * np
     + length (List.filter f plot_closing))%nat.
Proof.
  intros Hne Hnp HF1 HF2.
  rewrite !List.filter_app, !length_app.
  rewrite (erasure_blocks_count f ne _ _ Hne HF1).
  rewrite (pauli_blocks_count fs f np _ _ Hnp HF2).
  change [EvSubplots; dec] with ([@EvSubplots C] ++ [dec]).
  rewrite List.filter_app, length_app. lia.
Qed.

End PlotCounts.

(** X9.  When every sequence of [erasure_data] and of [pauli_data] is not
    empty and every radius of [pauli_data] has its reference file, holding a
    column that is not a single number, [plot_results] returns: it draws one
    curve per radius of [erasure_data] on the first axis and two per radius
    of [pauli_data] on the second, saves the figure exactly once, and ends
    with the showing of the figure. *)
Theorem plot_results_draws_all_and_saves_once (C : Collaborators)
    (fs : gmap string (list float))
    (erasure_data pauli_data : list (Z * list (float * float)))
    (w : World C) :
  Forall (fun Rd => snd Rd <> []) erasure_data ->
  Forall (drawable fs) pauli_data ->
  let o := Figs.plot_results fs erasure_data pauli_data w in
  res o = inr tt
  /\ curves Ax1 (emitted o) = length erasure_data
  /\ curves Ax2 (emitted o) = (2 * length pauli_data)%nat
  /\ length (List.filter is_savefig (emitted o)) = 1%nat
  /\ In (EvSaveFig Figs.figure_filename) (emitted o)
  /\ last (emitted o) = Some EvShow.
Proof.
  intros He Hp o. subst o.
  destruct (plot_results_trace fs erasure_data pauli_data w He Hp)
    as (eblocks & pblocks & -> & HF1 & HF2).
  cbn [res emitted].
  split; [reflexivity|].
  unfold curves.
  rewrite (plot_trace_count fs (is_plot Ax1) 1 0 _ _ _ _ _
             (fun item => eq_refl) (fun col xs item => eq_refl) HF1 HF2).
  rewrite (plot_trace_count fs (is_plot Ax2) 0 2 _ _ _ _ _
             (fun item => eq_refl) (fun col xs item => eq_refl) HF1 HF2).
  rewrite (plot_trace_count fs is_savefig 0 0 _ _ _ _ _
             (fun item => eq_refl) (fun col xs item => eq_refl) HF1 HF2).
  rewrite !enumerate_length.
  split; [simpl; lia|]. split; [simpl; lia|]. split; [simpl; lia|].
  split.
  - do 4 (apply List.in_app_iff; right). right. left. reflexivity.
  - rewrite !app_assoc. unfold plot_closing.
    change [EvDecorate Ax2 "Fig 6(b): Pauli Threshold (Depolarizing)"
              "Physical Error Rate $p$" "Logical Success Rate";
            EvSaveFig Figs.figure_filename;
            EvPrint (nl +:+ "[*] Plot saved to 'hqec_fig6_reproduction.png'");
            @EvShow C]
      with ([EvDecorate Ax2 "Fig 6(b): Pauli Threshold (Depolarizing)"
               "Physical Error Rate $p$" "Logical Success Rate";
             EvSaveFig Figs.figure_filename;
             EvPrint (nl +:+ "[*] Plot saved to 'hqec_fig6_reproduction.png'")]
            ++ [@EvShow C]).
    rewrite app_assoc. apply last_snoc.
Qed.

Lemma plot_results_draws_all_and_saves_once_witness :
  let o := @Figs.plot_results Stub.plain
             {[ Figs.reference_filename 0 := [0; 0.25; 0.5]%float ]}
             [(0, [(0, 1)%float]); (1, [(0, 1)%float])]
             [(0, [(0, 1); (0.5, 0.5)]%float)] 0%nat in
  res o = inr tt
  /\ curves Ax1 (emitted o) = 2%nat
  /\ curves Ax2 (emitted o) = 2%nat
  /\ length (List.filter is_savefig (emitted o)) = 1%nat
  /\ In (EvSaveFig Figs.figure_filename) (emitted o)
  /\ last (emitted o) = Some EvShow.
Proof.
  apply (plot_results_draws_all_and_saves_once Stub.plain
           {[ Figs.reference_filename 0 := [0; 0.25; 0.5]%float ]}
           [(0, [(0, 1)%float]); (1, [(0, 1)%float])]
           [(0, [(0, 1); (0.5, 0.5)]%float)] 0%nat).
  - repeat constructor; simpl; discriminate.
  - repeat constructor; simpl; [discriminate|].
    exists [0; 0.25; 0.5]%float. split; [vm_compute; reflexivity|].
    simpl. lia.
Defined.

(** X10.  In the same situation, the radius at position [i] of [pauli_data]
    gives three events in a row: its data curve with the marker and the
    colour number [i mod 4], the reading of its reference file, and the
    reference curve, which is one minus each number of the file, drawn
    dashed and in the same colour over as many noise values, evenly spaced
    from 0 to 0.5, as the file has numbers. *)
Theorem plot_results_reference_curve_follows_data_curve (C : Collaborators)
    (fs : gmap string (list float))
    (erasure_data pauli_data : list (Z * list (float * float)))
    (w : World C) (i : nat) (R : Z) (d : list (float * float)) :
  Forall (fun Rd => snd Rd <> []) erasure_data ->
  Forall (drawable fs) pauli_data ->
  pauli_data !! i = Some (R, d) ->
  exists col xs t1 t2,
    fs !! Figs.reference_filename R = Some col
    /\ Numpy.linspace 0 0.5 (Z.of_nat (length col)) = inr xs
    /\ length xs = length col
    /\ emitted (Figs.plot_results fs erasure_data pauli_data w)
       = t1
         ++ [EvPlot Ax2 (map fst d) (map snd d) ("R=" +:+ pretty R)
                    (Some (nth (i mod 4) Figs.markers "")) None
                    (nth (i mod 4) Figs.colors "");
             EvLoadTxt (Figs.reference_filename R) (inr col);
             EvPlot Ax2 xs (map (fun e => (1 - e)%float) col)
                    ("Tesseract R=" +:+ pretty R) None (Some "--")
                    (nth (i mod 4) Figs.colors "")]
         ++ t2.
Proof.
  intros He Hp Hi.
  destruct (plot_results_trace fs erasure_data pauli_data w He Hp)
    as (eblocks & pblocks & -> & HF1 & HF2).
  cbn [emitted].
  pose proof (enumerate_from_lookup pauli_data 0 i (R, d) Hi) as Hitem.
  destruct (blocks_lookup _ _ _ _ _ HF2 Hitem)
    as (b & t1 & t2 & (col & xs & Hfile & Hxs & ->) & E).
  exists col, xs.
  exists (([EvSubplots] ++ concat eblocks
           ++ [EvDecorate Ax1 "Fig 6(a): Erasure Threshold"
                          "Erasure Probability $p$" "Recovery Rate"])
          ++ t1),
         (t2 ++ plot_closing).
  split; [exact Hfile|]. split; [exact Hxs|]. split.
  - rewrite (linspace_length _ _ _ _ Hxs). lia.
  - rewrite E. unfold pauli_curve_events, Figs.cycle.
    cbn [fst snd Nat.add].
    change (length Figs.markers) with 4%nat.
    change (length Figs.colors) with 4%nat.
    rewrite <- !app_assoc. reflexivity.
Qed.

Lemma plot_results_reference_curve_follows_data_curve_witness :
  exists col xs t1 t2,
    ({[ Figs.reference_filename 0 := [0; 0.25; 0.5]%float ]}
       : gmap string (list float)) !! Figs.reference_filename 0 = Some col
    /\ Numpy.linspace 0 0.5 (Z.of_nat (length col)) = inr xs
    /\ length xs = length col
    /\ emitted (@Figs.plot_results Stub.plain
                  {[ Figs.reference_filename 0 := [0; 0.25; 0.5]%float ]}
                  [(0, [(0, 1)%float])]
                  [(0, [(0, 1); (0.5, 0.5)]%float)] 0%nat)
       = t1
         ++ [EvPlot Ax2 (map fst [(0, 1); (0.5, 0.5)]%float)
                    (map snd [(0, 1); (0.5, 0.5)]%float) ("R=" +:+ pretty 0)
                    (Some (nth (0 mod 4) Figs.markers "")) None
                    (nth (0 mod 4) Figs.colors "");
             EvLoadTxt (Figs.reference_filename 0) (inr col);
             EvPlot Ax2 xs (map (fun e => (1 - e)%float) col)
                    ("Tesseract R=" +:+ pretty 0) None (Some "--")
                    (nth (0 mod 4) Figs.colors "")]
         ++ t2.
Proof.
  apply (plot_results_reference_curve_follows_data_curve Stub.plain
           {[ Figs.reference_filename 0 := [0; 0.25; 0.5]%float ]}
           [(0, [(0, 1)%float])]
           [(0, [(0, 1); (0.5, 0.5)]%float)] 0%nat 0%nat).
  - repeat constructor; simpl; discriminate.
  - repeat constructor; simpl; [discriminate|].
    exists [0; 0.25; 0.5]%float. split; [vm_compute; reflexivity|].
    simpl. lia.
  - reflexivity.
Defined.

Section PlotIndexError.

Context {C : Collaborators}.

Lemma for_each_raises_only {A} (xs : list A) (body : A -> M C unit)
    (e0 : exn) :
  (forall x w e, res (body x w) = inl e -> e = e0) ->
  forall w e, res (for_each xs body w) = inl e -> e = e0.
Proof.
  intros Hbody. induction xs as [|x xs IH]; intros w e; simpl.
  - discriminate.
  - unfold bind. destruct (res (body x w)) as [e'|[]] eqn:E; simpl.
    + intros H. injection H as <-. eapply Hbody, E.
    + apply IH.
Qed.

Lemma plot_erasure_curve_raises_only item (w : World C) e :
  res (Figs.plot_erasure_curve item w) = inl e -> e = IndexError.
Proof.
  unfold Figs.plot_erasure_curve, Figs.columns, bind.
  destruct (snd (snd item)); simpl; [|discriminate].
  intros H. injection H as <-. reflexivity.
Qed.

Lemma plot_erasure_curve_empty i R (w : World C) :
  raises (res (Figs.plot_erasure_curve (i, (R, [])) w)).
Proof. exists IndexError. reflexivity. Qed.

Lemma plot_erasure_curve_no_pauli item (w : World C) :
  curves Ax2 (emitted (Figs.plot_erasure_curve item w)) = 0%nat.
Proof.
  unfold Figs.plot_erasure_curve, Figs.columns, bind.
  destruct (snd (snd item)); reflexivity.
Qed.

End PlotIndexError.

(** X11.  A radius of [erasure_data] with an empty sequence makes
    [plot_results] raise [IndexError] (the empty list makes a
    one-dimensional array, which [data[:, 0]] cannot index): nothing is
    drawn on the second axis and the figure is not saved. *)
Theorem plot_results_empty_sequence_raises_index_error (C : Collaborators)
    (fs : gmap string (list float))
    (erasure_data pauli_data : list (Z * list (float * float)))
    (R : Z) (w : World C) :
  In (R, []) erasure_data ->
  let o := Figs.plot_results fs erasure_data pauli_data w in
  res o = inl IndexError
  /\ curves Ax2 (emitted o) = 0%nat
  /\ no_savefig (emitted o).
Proof.
  intros Hin o. subst o.
  destruct (enumerate_from_In _ _ 0 Hin) as [i Hi].
  destruct (for_each_raises (enumerate erasure_data) Figs.plot_erasure_curve
              (i, (R, [])) Hi (plot_erasure_curve_empty i R) w) as [e He].
  pose proof (for_each_raises_only _ _ IndexError
                (fun x w' e' => plot_erasure_curve_raises_only x w' e')
                w e He) as ->.
  unfold Figs.plot_results. rewrite bind_emit.
  rewrite (bind_raises_left _ _ _ _ He). cbn [after res emitted app].
  split; [reflexivity|]. split.
  - change (EvSubplots :: ?t) with ([@EvSubplots C] ++ t).
    rewrite curves_app. simpl.
    apply (inv_for_each (fun t => curves Ax2 t = 0%nat)); [reflexivity| |].
    + intros t1 t2 H1 H2. rewrite curves_app, H1, H2. reflexivity.
    + intros. apply plot_erasure_curve_no_pauli.
  - constructor; [reflexivity|].
    apply (inv_for_each no_savefig no_savefig_nil no_savefig_app).
    intros. apply plot_erasure_curve_no_savefig.
Qed.

Lemma plot_results_empty_sequence_raises_index_error_witness :
  let o := @Figs.plot_results Stub.plain ∅
             [(0, [(0, 1)%float]); (1, [])]
             [(0, [(0, 1); (0.5, 0.5)]%float)] 0%nat in
  res o = inl IndexError
  /\ curves Ax2 (emitted o) = 0%nat
  /\ no_savefig (emitted o).
Proof.
  apply (plot_results_empty_sequence_raises_index_error Stub.plain ∅
           [(0, [(0, 1)%float]); (1, [])]
           [(0, [(0, 1); (0.5, 0.5)]%float)] 1 0%nat).
  simpl. right. left. reflexivity.
Defined.


(** ** The dictionaries of the generators *)

Section KeyFacts.

Context {V : Type}.

Lemma dict_keys_set (k : Z) (v : V) (d : list (Z * V)) :
  dict_keys (dict_set k v d)
  = if in_dec Z.eq_dec k (dict_keys d) then dict_keys d
    else dict_keys d ++ [k].
Proof.
  induction d as [|[k' v'] d IH]; simpl.
  - reflexivity.
  - destruct (Z.eqb_spec k' k) as [E|Hne]; simpl.
    + subst k'. destruct (Z.eq_dec k k); [reflexivity|contradiction].
    + rewrite IH. destruct (Z.eq_dec k' k) as [E'|Hne']; [contradiction|].
      destruct (in_dec Z.eq_dec k (dict_keys d)); reflexivity.
Qed.

Lemma dict_get_keys (k : Z) (d : list (Z * V)) :
  is_Some (dict_get k d) -> In k (dict_keys d).
Proof.
  induction d as [|[k' v'] d IH]; simpl.
  - intros [x Hx]. discriminate.
  - destruct (Z.eqb_spec k' k) as [E|Hne]; [left; exact E|].
    intros H. right. apply IH, H.
Qed.

End KeyFacts.

Lemma first_occurrences_snoc (ks : list Z) (k : Z) :
  first_occurrences (ks ++ [k])
  = if in_dec Z.eq_dec k (first_occurrences ks) then first_occurrences ks
    else first_occurrences ks ++ [k].
Proof. unfold first_occurrences. rewrite fold_left_app. reflexivity. Qed.

Lemma first_occurrences_NoDup (ks : list Z) :
  List.NoDup (first_occurrences ks).
Proof.
  induction ks as [|k ks IH] using rev_ind.
  - constructor.
  - rewrite first_occurrences_snoc.
    destruct (in_dec Z.eq_dec k (first_occurrences ks)) as [Hin|Hnin];
      [exact IH|].
    apply NoDup_ListNoDup, NoDup_app. split; [|split].
    + apply NoDup_ListNoDup, IH.
    + intros x Hx Hx'. apply list_elem_of_In in Hx.
      apply list_elem_of_singleton in Hx'. subst. contradiction.
    + apply NoDup_singleton.
Qed.

Section GeneratorKeys.

Context {C : Collaborators}.

Lemma fig6b_keys radii (w : World C) d :
  res (Figs.generate_data_fig6b radii w) = inr d ->
  dict_keys d = first_occurrences radii.
Proof.
  unfold Figs.generate_data_fig6b. intros H.
  apply bind_returns in H as ([] & _ & H & _).
  apply bind_returns in H as (p_values & _ & H & _).
  apply (for_fold_invariant
           (fun done (s : pydict (list (float * float)))
                (t : list (event C)) =>
              dict_keys s = first_occurrences done)
           (Figs.fig6b_radius p_values)) with (done := []) (t := []) in H.
  - exact H.
  - intros done s t R w' s' Hkeys Hres.
    apply fig6b_radius_returns in Hres as (seq & -> & _).
    rewrite dict_keys_set, first_occurrences_snoc, Hkeys. reflexivity.
  - reflexivity.
Qed.

Lemma fig6a_keys radii (w : World C) d :
  res (Figs.generate_data_fig6a radii w) = inr d ->
  dict_keys d = first_occurrences radii.
Proof.
  unfold Figs.generate_data_fig6a. intros H.
  apply bind_returns in H as ([] & _ & H & _).
  apply (for_fold_invariant
           (fun done (s : pydict (list (float * float)))
                (t : list (event C)) =>
              dict_keys s = first_occurrences done)
           Figs.fig6a_radius) with (done := []) (t := []) in H.
  - exact H.
  - intros done s t R w' s' Hkeys Hres.
    apply fig6a_radius_returns in Hres as (a & results & -> & _).
    rewrite dict_keys_set, first_occurrences_snoc, Hkeys. reflexivity.
  - reflexivity.
Qed.

End GeneratorKeys.

(** X12.  The dictionary [generate_data_fig6a] or [generate_data_fig6b]
    returns has each radius of [radii] as a key exactly once, in the order
    in which the radii first occur: a radius that is listed twice is swept
    twice but keeps a single entry. *)
Theorem generators_key_each_radius_once (C : Collaborators) (radii : list Z)
    (w : World C) :
  (forall d,
      res (Figs.generate_data_fig6a radii w) = inr d ->
      dict_keys d = first_occurrences radii /\ List.NoDup (dict_keys d))
  /\ (forall d,
        res (Figs.generate_data_fig6b radii w) = inr d ->
        dict_keys d = first_occurrences radii /\ List.NoDup (dict_keys d)).
Proof.
  split; intros d Hres.
  - rewrite (fig6a_keys _ _ _ Hres).
    split; [reflexivity|apply first_occurrences_NoDup].
  - rewrite (fig6b_keys _ _ _ Hres).
    split; [reflexivity|apply first_occurrences_NoDup].
Qed.

Lemma generators_key_each_radius_once_witness :
  dict_keys (match res (@Figs.generate_data_fig6b Stub.plain [2; 0; 2; 1; 0]
                          0%nat)
             with inr d => d | inl _ => [] end)
  = [2; 0; 1]
  /\ List.NoDup
       (dict_keys (match res (@Figs.generate_data_fig6b Stub.plain
                                [2; 0; 2; 1; 0] 0%nat)
                   with inr d => d | inl _ => [] end)).
Proof.
  apply (proj2 (generators_key_each_radius_once Stub.plain [2; 0; 2; 1; 0]
                  0%nat)).
  vm_compute. reflexivity.
Defined.

(** X13.  In the dictionary [generate_data_fig6b] returns, the sequence of
    every radius has exactly eight pairs, whose noise values are the eight
    evenly spaced doubles from 0 to 0.5, the two ends included, in
    increasing order. *)
Theorem fig6b_sequences_cover_zero_to_half (C : Collaborators)
    (radii : list Z) (w : World C) d (R : Z) (seq : list (float * float)) :
  res (Figs.generate_data_fig6b radii w) = inr d ->
  dict_get R d = Some seq ->
  map fst seq
  = [0; 0.071428571428571425; 0.14285714285714285; 0.21428571428571427;
     0.2857142857142857; 0.3571428571428571; 0.42857142857142855;
     0.5]%float
  /\ length seq = 8%nat.
Proof.
  intros Hres Hget.
  destruct (fig6b_returns _ _ _ Hres) as (p_values & Hgrid & _ & Hvals).
  destruct (Hvals R seq Hget) as [Hfst _].
  assert (Hp : p_values
               = [0; 0.071428571428571425; 0.14285714285714285;
                  0.21428571428571427; 0.2857142857142857;
                  0.3571428571428571; 0.42857142857142855; 0.5]%float).
  { assert (Hc : Figs.fig6b_grid
                 = inr [0; 0.071428571428571425; 0.14285714285714285;
                        0.21428571428571427; 0.2857142857142857;
                        0.3571428571428571; 0.42857142857142855;
                        0.5]%float) by (vm_compute; reflexivity).
    rewrite Hc in Hgrid. injection Hgrid as <-. reflexivity. }
  rewrite Hp in Hfst. split; [exact Hfst|].
  rewrite <- (length_map fst seq), Hfst. reflexivity.
Qed.

Lemma fig6b_sequences_cover_zero_to_half_witness :
  map fst [(0, 1); (0.071428571428571425, 0.5); (0.14285714285714285, 0.5);
           (0.21428571428571427, 0.5); (0.2857142857142857, 0.5);
           (0.3571428571428571, 0.5); (0.42857142857142855, 0.5);
           (0.5, 0.5)]%float
  = [0; 0.071428571428571425; 0.14285714285714285; 0.21428571428571427;
     0.2857142857142857; 0.3571428571428571; 0.42857142857142855;
     0.5]%float
  /\ length [(0, 1); (0.071428571428571425, 0.5);
             (0.14285714285714285, 0.5); (0.21428571428571427, 0.5);
             (0.2857142857142857, 0.5); (0.3571428571428571, 0.5);
             (0.42857142857142855, 0.5); (0.5, 0.5)]%float = 8%nat.
Proof.
  apply (fig6b_sequences_cover_zero_to_half Stub.plain [0; 1] 0%nat
           (match res (@Figs.generate_data_fig6b Stub.plain [0; 1] 0%nat)
            with inr d => d | inl _ => [] end) 1).
  - vm_compute. reflexivity.
  - vm_compute. reflexivity.
Defined.

(** ** The script [reproducing_figs.py] as a program *)

Section MainFacts.

Context {C : Collaborators}.

Lemma fig6a_event_no_savefig (ev : event C) :
  fig6a_event ev = true -> is_savefig ev = false.
Proof. destruct ev; simpl; intros H; try reflexivity; discriminate H. Qed.

Lemma fig6b_event_no_savefig (ev : event C) :
  fig6b_event ev = true -> is_savefig ev = false.
Proof. destruct ev; simpl; intros H; try reflexivity; discriminate H. Qed.

Lemma fig6a_no_savefig radii (w : World C) :
  no_savefig (emitted (Figs.generate_data_fig6a radii w)).
Proof.
  eapply Forall_impl; [apply fig6a_events_only|].
  intros ev. apply fig6a_event_no_savefig.
Qed.

Lemma fig6b_no_savefig radii (w : World C) :
  no_savefig (emitted (Figs.generate_data_fig6b radii w)).
Proof.
  eapply Forall_impl; [apply fig6b_events_only|].
  intros ev. apply fig6b_event_no_savefig.
Qed.

End MainFacts.

(** X14.  The script run as a program sweeps the radii 0, 1 and 2 and then
    plots.  If the reference file of one of these three radii is missing,
    the program cannot end well: it raises, and no figure is saved, even
    when both sweeps went through. *)
Theorem program_needs_all_three_reference_files (C : Collaborators)
    (fs : gmap string (list float)) (w : World C) (R : Z) :
  In R Figs.RADII ->
  fs !! Figs.reference_filename R = None ->
  raises (res (Figs.main fs w)) /\ no_savefig (emitted (Figs.main fs w)).
Proof.
  intros Hin Hnone. unfold Figs.main.
  destruct (res (Figs.generate_data_fig6a Figs.RADII w)) as [e|d1] eqn:E1.
  { rewrite (bind_raises_left _ _ _ _ E1). cbn [res emitted].
    split; [eexists; reflexivity|apply fig6a_no_savefig]. }
  rewrite (bind_continues _ _ _ _ E1). cbn [res emitted].
  set (w1 := world_after (Figs.generate_data_fig6a Figs.RADII w)).
  destruct (res (Figs.generate_data_fig6b Figs.RADII w1)) as [e|d2] eqn:E2.
  { rewrite (bind_raises_left _ _ _ _ E2). cbn [res emitted].
    split; [eexists; reflexivity|].
    apply no_savefig_app; [apply fig6a_no_savefig|apply fig6b_no_savefig]. }
  rewrite (bind_continues _ _ _ _ E2). cbn [res emitted].
  destruct (fig6b_returns _ _ _ E2) as (p_values & _ & Hkeys & _).
  assert (HinR : In R (dict_keys d2)).
  { apply dict_get_keys, Hkeys, Hin. }
  destruct (plot_results_missing_reference fs d1 d2 R
              (world_after (Figs.generate_data_fig6b Figs.RADII w1))
              HinR Hnone) as [Hraise Hsave].
  split; [exact Hraise|].
  apply no_savefig_app; [apply fig6a_no_savefig|].
  apply no_savefig_app; [apply fig6b_no_savefig|exact Hsave].
Qed.

Lemma program_needs_all_three_reference_files_witness :
  raises (res (@Figs.main Stub.plain
                 {[ Figs.reference_filename 0 := [0; 0.5]%float;
                    Figs.reference_filename 1 := [0; 0.5]%float ]} 0%nat))
  /\ no_savefig
       (emitted (@Figs.main Stub.plain
                   {[ Figs.reference_filename 0 := [0; 0.5]%float;
                      Figs.reference_filename 1 := [0; 0.5]%float ]} 0%nat)).
Proof.
  apply (program_needs_all_three_reference_files Stub.plain _ 0%nat 2).
  - simpl. right. right. left. reflexivity.
  - vm_compute. reflexivity.
Defined.

(** ** More on the noise grid and its sweep *)

(** X15.  Whenever the noise grid is not empty its first value is
    [p_start] itself, and its second value, if there is one, is
    [p_start + p_step]. *)
Theorem noise_grid_starts_at_p_start (p_start p_end p_step p : float)
    (rest : list float) :
  MaxRate.noise_grid p_start p_end p_step = inr (p :: rest) ->
  p = p_start
  /\ forall q rest', rest = q :: rest' -> q = (p_start + p_step)%float.
Proof.
  unfold MaxRate.noise_grid, Numpy.arange, Numpy.arange_in.
  destruct (Numpy.arange_length p_start (p_end + p_step) p_step) as [e|len];
    [destruct e; discriminate|].
  destruct (len <=? 0); [discriminate|].
  destruct (2 ^ 60 <=? len); [discriminate|].
  unfold Numpy.arange_fill.
  destruct (Z.to_nat len) as [|[|k]]; simpl; intros H.
  - discriminate.
  - injection H as <- <-. split; [reflexivity|]. intros q rest' Hq.
    discriminate.
  - injection H as <- <-. split; [reflexivity|]. intros q rest' Hq.
    injection Hq as <- _. reflexivity.
Qed.

Lemma noise_grid_starts_at_p_start_witness :
  0.01%float = 0.01%float
  /\ forall q rest',
       [0.060000000000000005; 0.11; 0.16000000000000003]%float = q :: rest' ->
       q = (0.01 + 0.05)%float.
Proof.
  apply (noise_grid_starts_at_p_start 0.01 0.16 0.05 0.01
           [0.060000000000000005; 0.11; 0.16000000000000003]%float).
  vm_compute. reflexivity.
Defined.

Section SweepOrder.

Context {C : Collaborators}.

Lemma scan_point_blocks_pairs tensor_list rx ry rz trials n_process
    stabilizers logicals (p_values : list float)
    (blocks : list (list (event C))) :
  Forall2 (scan_point_block tensor_list rx ry rz trials n_process
                            stabilizers logicals) p_values blocks ->
  map fst (emitted_pairs (concat blocks)) = p_values.
Proof.
  intros HF. induction HF as [|p b ps blocks (rate & ->) _ IH]; simpl.
  - reflexivity.
  - unfold emitted_pairs in *. simpl. rewrite IH. reflexivity.
Qed.

Lemma scan_radius_block_pairs p_values rx ry rz trials n_process radius
    (t : list (event C)) :
  scan_radius_block p_values rx ry rz trials n_process radius t ->
  map fst (emitted_pairs t) = p_values.
Proof.
  intros (tensor_list & push_results & stabilizers & logicals & blocks
          & -> & HF).
  rewrite emitted_pairs_app.
  rewrite map_app, (scan_point_blocks_pairs _ _ _ _ _ _ _ _ _ _ HF).
  reflexivity.
Qed.

Lemma scan_blocks_pairs p_values rx ry rz trials n_process (radii : list Z)
    (blocks : list (list (event C))) :
  Forall2 (scan_radius_block p_values rx ry rz trials n_process)
          radii blocks ->
  map fst (emitted_pairs (concat blocks))
  = concat (map (fun _ => p_values) radii).
Proof.
  intros HF. induction HF as [|R b radii blocks Hb _ IH]; simpl.
  - reflexivity.
  - rewrite emitted_pairs_app, map_app, IH.
    rewrite (scan_radius_block_pairs _ _ _ _ _ _ _ _ Hb). reflexivity.
Qed.

Lemma scan_empty_grid_never_decodes radii rx ry rz trials n_process
    (w : World C) :
  calls TNDecoding
    (emitted (for_each radii
                (MaxRate.scan_radius [] rx ry rz trials n_process) w))
  = 0%nat.
Proof.
  apply (inv_for_each (fun t => calls TNDecoding t = 0%nat)).
  - reflexivity.
  - intros t1 t2 H1 H2. rewrite calls_app, H1, H2. reflexivity.
  - intros R w'. unfold MaxRate.scan_radius, bind, call, print, emit.
    destruct (setup_max_rate_happy C R w') as [[e|c] w1]; simpl;
      [reflexivity|].
    destruct (batch_push C c w1) as [[e|pr] w2]; simpl; [reflexivity|].
    destruct (extract_stabilizers_from_result_dict C pr w2)
      as [[e|st] w3]; simpl; [reflexivity|].
    destruct (extract_logicals_from_result_dict C pr w3)
      as [[e|lg] w4]; simpl; reflexivity.
Qed.

End SweepOrder.

(** X16.  In a run of [scan_success_rates] that returns, the decoder is
    called on the noise values of the grid in grid order, once through for
    each radius in turn: the noise values of the decoder calls, in the
    order of the calls, are the grid repeated once per radius. *)
Theorem scan_decodes_grid_in_order_per_radius (C : Collaborators)
    (radii : list Z) (p_start p_end p_step : float) (trials : Z)
    (rx rz : float) (n_process : Z) (w : World C) (p_values : list float) :
  MaxRate.noise_grid p_start p_end p_step = inr p_values ->
  res (MaxRate.scan_success_rates radii p_start p_end p_step trials rx rz
                                  n_process w) = inr tt ->
  map fst (emitted_pairs
             (emitted (MaxRate.scan_success_rates radii p_start p_end p_step
                         trials rx rz n_process w)))
  = concat (map (fun _ => p_values) radii).
Proof.
  intros Hgrid Hres.
  destruct (scan_blocks _ _ _ _ _ _ _ _ _ Hres)
    as (ps & blocks & Hgrid' & -> & HF).
  rewrite Hgrid in Hgrid'. injection Hgrid' as <-.
  apply (scan_blocks_pairs _ _ _ _ _ _ _ _ HF).
Qed.

Lemma scan_decodes_grid_in_order_per_radius_witness :
  map fst (emitted_pairs
             (emitted (@MaxRate.scan_success_rates Stub.plain [3; 5]
                         0.0 0.2 0.1 10 (1 / 3) (1 / 3) 2 0%nat)))
  = concat (map (fun _ => [0; 0.1; 0.2; 0.30000000000000004]%float) [3; 5]).
Proof.
  apply (scan_decodes_grid_in_order_per_radius Stub.plain [3; 5]
           0.0 0.2 0.1 10 (1 / 3) (1 / 3) 2 0%nat
           [0; 0.1; 0.2; 0.30000000000000004]%float).
  - vm_compute. reflexivity.
  - vm_compute. reflexivity.
Defined.

(** X17.  When the noise grid is empty, as for an end before the start,
    [scan_success_rates] still goes through the radii: it never calls the
    decoder, whatever happens, and a run that returns has built, pushed and
    extracted once for every radius. *)
Theorem empty_grid_builds_but_never_decodes (C : Collaborators)
    (radii : list Z) (p_start p_end p_step : float) (trials : Z)
    (rx rz : float) (n_process : Z) (w : World C) :
  MaxRate.noise_grid p_start p_end p_step = inr [] ->
  let o := MaxRate.scan_success_rates radii p_start p_end p_step trials
                                      rx rz n_process w in
  calls TNDecoding (emitted o) = 0%nat
  /\ (res o = inr tt ->
      calls Construction (emitted o) = length radii
      /\ calls Pushing (emitted o) = length radii
      /\ calls StabilizerExtraction (emitted o) = length radii
      /\ calls LogicalExtraction (emitted o) = length radii).
Proof.
  intros Hgrid o. subst o. split.
  - unfold MaxRate.scan_success_rates. rewrite Hgrid.
    unfold bind at 1. unfold lift at 1. cbn [res world_after emitted app].
    apply scan_empty_grid_never_decodes.
  - intros Hres.
    destruct (scan_blocks _ _ _ _ _ _ _ _ _ Hres)
      as (ps & blocks & Hgrid' & -> & HF).
    rewrite Hgrid in Hgrid'. injection Hgrid' as <-.
    repeat split.
    all: rewrite (calls_concat _ _ _ _ _
                    (fun R b H => scan_radius_block_calls _ _ _ _ _ _ R b _ H)
                    HF).
    all: simpl; lia.
Qed.

Lemma empty_grid_builds_but_never_decodes_witness :
  let o := @MaxRate.scan_success_rates Stub.plain [0; 1] 0.3 0.0 0.05 100
                                       (1 / 3) (1 / 3) 8 0%nat in
  calls TNDecoding (emitted o) = 0%nat
  /\ (res o = inr tt ->
      calls Construction (emitted o) = 2%nat
      /\ calls Pushing (emitted o) = 2%nat
      /\ calls StabilizerExtraction (emitted o) = 2%nat
      /\ calls LogicalExtraction (emitted o) = 2%nat).
Proof.
  apply (empty_grid_builds_but_never_decodes Stub.plain [0; 1]
           0.3 0.0 0.05 100 (1 / 3) (1 / 3) 8 0%nat).
  vm_compute. reflexivity.
Defined.

(** ** The names of the reference files *)

Lemma string_length_app (s t : string) :
  String.length (s +:+ t) = (String.length s + String.length t)%nat.
Proof. induction s as [|c s IH]; simpl; [reflexivity|]. rewrite IH. reflexivity. Qed.

Lemma string_app_cancel_r (s1 s2 t : string) :
  s1 +:+ t = s2 +:+ t -> s1 = s2.
Proof.
  revert s2. induction s1 as [|c s1 IH]; intros [|c' s2] H.
  - reflexivity.
  - apply (f_equal String.length) in H.
    rewrite !string_length_app in H. simpl in H. lia.
  - apply (f_equal String.length) in H.
    rewrite !string_length_app in H. simpl in H. lia.
  - change (String c (s1 +:+ t) = String c' (s2 +:+ t)) in H.
    injection H as -> H. f_equal. apply IH, H.
Qed.

(** X18.  Two radii never share a reference file: the file name determines
    the radius. *)
Theorem reference_filename_determines_radius (R1 R2 : Z) :
  Figs.reference_filename R1 = Figs.reference_filename R2 -> R1 = R2.
Proof.
  unfold Figs.reference_filename. intros H.
  apply (inj (String.app _)) in H.
  apply string_app_cancel_r in H.
  apply (inj pretty) in H. exact H.
Qed.

Lemma reference_filename_determines_radius_witness : 3 = 3.
Proof.
  apply (reference_filename_determines_radius 3 3). reflexivity.
Defined.

(** ** What the sweeps hand on *)

Section PassFacts.

Context {C : Collaborators}.

Lemma scan_passes_on radii p_start p_end p_step trials rx rz n_process
    (w : World C) :
  Forall (passes_on trials n_process)
    (emitted (MaxRate.scan_success_rates radii p_start p_end p_step trials
                                         rx rz n_process w)).
Proof.
  assert (Hnil : Forall (@passes_on C trials n_process) []) by constructor.
  pose proof (fun t1 t2 =>
    @Forall_app_2 _ (@passes_on C trials n_process) t1 t2) as Happ.
  unfold MaxRate.scan_success_rates.
  apply inv_bind; [assumption|exact Hnil|intros].
  apply inv_for_each; [assumption..|intros].
  unfold MaxRate.scan_radius.
  repeat (apply inv_bind;
          [assumption
          |apply inv_call; intros; repeat constructor
          |intros]).
  apply inv_bind; [assumption|repeat constructor|intros].
  apply inv_for_each; [assumption..|intros].
  unfold MaxRate.scan_point.
  apply inv_bind; [assumption| |intros; repeat constructor].
  apply inv_call. intros. constructor; [|constructor].
  simpl. repeat split; eauto.
Qed.

Lemma fig6b_points_return_exact tensor_list p_values (w : World C) seq :
  res (for_fold p_values [] (Figs.fig6b_point tensor_list) w) = inr seq ->
  emitted_pairs
    (emitted (for_fold p_values [] (Figs.fig6b_point tensor_list) w)) = seq.
Proof.
  intros H.
  apply (for_fold_invariant
           (fun (done : list float) s t => s = emitted_pairs t)
           (Figs.fig6b_point tensor_list)) with (done := []) (t := []) in H.
  - symmetry. exact H.
  - intros done s t p w' s' -> Hres.
    apply fig6b_point_returns in Hres as (rate & -> & E).
    rewrite emitted_pairs_app, E. reflexivity.
  - reflexivity.
Qed.

Lemma fig6b_radius_returns_exact p_values data_storage R (w : World C) d' :
  res (Figs.fig6b_radius p_values data_storage R w) = inr d' ->
  d' = dict_set R
         (emitted_pairs
            (emitted (Figs.fig6b_radius p_values data_storage R w)))
         data_storage.
Proof.
  unfold Figs.fig6b_radius. intros H.
  apply bind_returns in H as ([] & _ & H & E1).
  apply bind_returns in H as (tensor_list & Hcall & H & E2).
  apply bind_returns in H as (seq & Hloop & H & E3).
  apply fig6b_points_return_exact in Hloop.
  simpl in H. injection H as <-.
  rewrite E1, E2, E3, !emitted_pairs_app, Hloop.
  rewrite (call_result_emitted _ _ _ _ Hcall).
  simpl. rewrite app_nil_r. reflexivity.
Qed.

End PassFacts.

Lemma flatten_dict_snoc {V} (ks : list Z) (k : Z) (d : list (Z * list V)) :
  flatten_dict (ks ++ [k]) d
  = flatten_dict ks d ++ default [] (dict_get k d).
Proof.
  unfold flatten_dict. rewrite map_app, concat_app. simpl.
  rewrite app_nil_r. reflexivity.
Qed.

Lemma flatten_dict_set_other {V} (ks : list Z) (k : Z) (v : list V)
    (d : list (Z * list V)) :
  ~ In k ks -> flatten_dict ks (dict_set k v d) = flatten_dict ks d.
Proof.
  unfold flatten_dict. induction ks as [|k' ks IH]; intros Hnin; simpl.
  - reflexivity.
  - rewrite IH by (intros H; apply Hnin; right; exact H).
    rewrite dict_get_set_ne; [reflexivity|].
    intros ->. apply Hnin. left. reflexivity.
Qed.

Section FlattenFacts.

Context {C : Collaborators}.

Lemma fig6b_flatten radii (w : World C) d :
  List.NoDup radii ->
  res (Figs.generate_data_fig6b radii w) = inr d ->
  flatten_dict radii d
  = emitted_pairs (emitted (Figs.generate_data_fig6b radii w)).
Proof.
  intros Hnd. unfold Figs.generate_data_fig6b. intros H.
  apply bind_returns in H as ([] & _ & H & E1).
  apply bind_returns in H as (p_values & _ & H & E2).
  rewrite E1, E2, !emitted_pairs_app.
  apply (for_fold_invariant
           (fun done (s : pydict (list (float * float)))
                (t : list (event C)) =>
              List.NoDup done ->
              flatten_dict done s = emitted_pairs t
              /\ forall R, is_Some (dict_get R s) -> In R done)
           (Figs.fig6b_radius p_values)) with (done := []) (t := []) in H.
  - destruct H as [Hflat _]. exact Hflat.
  - intros done s t R w' s' IH Hres Hnd'.
    apply NoDup_ListNoDup, NoDup_app in Hnd' as (Hnd1 & Hnot & _).
    apply NoDup_ListNoDup in Hnd1.
    destruct (IH Hnd1) as [Hflat Hkeys].
    assert (HR : ~ In R done).
    { intros HinR. apply (Hnot R); [apply list_elem_of_In; exact HinR|].
      apply list_elem_of_singleton. reflexivity. }
    rewrite (fig6b_radius_returns_exact _ _ _ _ _ Hres). split.
    + rewrite flatten_dict_snoc, dict_get_set_eq.
      rewrite (flatten_dict_set_other _ _ _ _ HR), Hflat.
      rewrite emitted_pairs_app. reflexivity.
    + intros R0 Hsome. apply List.in_app_iff.
      destruct (Z.eq_dec R R0) as [->|Hne].
      * right. left. reflexivity.
      * rewrite (dict_get_set_ne _ _ _ _ Hne) in Hsome.
        left. apply Hkeys, Hsome.
  - intros _. split; [reflexivity|]. intros R [x Hx]. discriminate.
  - exact Hnd.
Qed.

End FlattenFacts.

(** X19.  Every decoder call of [scan_success_rates] is given the [trials]
    and [n_process] of the sweep unchanged, together with stabilizers and
    both lists of logical operators. *)
Theorem scan_hands_trials_and_processes_on (C : Collaborators)
    (radii : list Z) (p_start p_end p_step : float) (trials : Z)
    (rx rz : float) (n_process : Z) (w : World C) :
  Forall (passes_on trials n_process)
    (emitted (MaxRate.scan_success_rates radii p_start p_end p_step trials
                                         rx rz n_process w)).
Proof. apply scan_passes_on. Qed.

(** X20.  When no radius is listed twice, the dictionary
    [generate_data_fig6b] returns holds exactly what the decoder produced:
    its sequences, read in the order of the radii, are the (noise value,
    rate) pairs of the decoder calls of the run, in the order of the
    calls. *)
Theorem fig6b_dictionary_is_the_decoded_pairs (C : Collaborators)
    (radii : list Z) (w : World C) d :
  List.NoDup radii ->
  res (Figs.generate_data_fig6b radii w) = inr d ->
  flatten_dict radii d
  = emitted_pairs (emitted (Figs.generate_data_fig6b radii w)).
Proof. intros Hnd Hres. apply fig6b_flatten; assumption. Qed.

Lemma fig6b_dictionary_is_the_decoded_pairs_witness :
  flatten_dict [1; 0]
    (match res (@Figs.generate_data_fig6b Stub.plain [1; 0] 0%nat)
     with inr d => d | inl _ => [] end)
  = emitted_pairs (emitted (@Figs.generate_data_fig6b Stub.plain [1; 0]
                              0%nat)).
Proof.
  apply (fig6b_dictionary_is_the_decoded_pairs Stub.plain [1; 0] 0%nat).
  - repeat constructor; simpl; intros H; intuition discriminate.
  - vm_compute. reflexivity.
Defined.

(** X21.  The run under [__main__] of [max_rate_multi_logical_HaPPY_TN.py],
    when it returns: the radii 0 and 1 are built once each, and the decoder
    is called fourteen times, on the seven noise values of the grid from 0
    to 0.30 in steps of 0.05 for radius 0 and then again for radius 1,
    every time on 100 trials and 8 processes with the ratios 1/3. *)
Theorem max_rate_program_makes_fourteen_decoder_calls (C : Collaborators)
    (w : World C) :
  res (MaxRate.main w) = inr tt ->
  calls Construction (emitted (MaxRate.main w)) = 2%nat
  /\ calls TNDecoding (emitted (MaxRate.main w)) = 14%nat
  /\ map fst (emitted_pairs (emitted (MaxRate.main w)))
     = ([0; 0.05; 0.1; 0.15000000000000002; 0.2; 0.25;
         0.30000000000000004]
        ++ [0; 0.05; 0.1; 0.15000000000000002; 0.2; 0.25;
            0.30000000000000004])%float
  /\ Forall (passes_on 100 8) (emitted (MaxRate.main w))
  /\ Forall (triple_is (1 / 3) (1 - 1 / 3 - 1 / 3)%float (1 / 3))
       (emitted (MaxRate.main w)).
Proof.
  unfold MaxRate.main. intros Hres.
  assert (Hgrid : MaxRate.noise_grid 0.00 0.30 0.05
                  = inr [0; 0.05; 0.1; 0.15000000000000002; 0.2; 0.25;
                         0.30000000000000004]%float)
    by (vm_compute; reflexivity).
  destruct (scan_blocks _ _ _ _ _ _ _ _ _ Hres)
    as (ps & blocks & Hgrid' & E & HF).
  rewrite Hgrid in Hgrid'. injection Hgrid' as <-.
  split; [|split; [|split; [|split]]].
  - rewrite E.
    rewrite (calls_concat _ _ _ _ _
               (fun R b H => scan_radius_block_calls _ _ _ _ _ _ R b _ H) HF).
    reflexivity.
  - rewrite E.
    rewrite (calls_concat _ _ _ _ _
               (fun R b H => scan_radius_block_calls _ _ _ _ _ _ R b _ H) HF).
    reflexivity.
  - rewrite E, (scan_blocks_pairs _ _ _ _ _ _ _ _ HF). reflexivity.
  - apply scan_passes_on.
  - apply scan_triple.
Qed.

Lemma max_rate_program_makes_fourteen_decoder_calls_witness :
  calls Construction (emitted (@MaxRate.main Stub.plain 0%nat)) = 2%nat
  /\ calls TNDecoding (emitted (@MaxRate.main Stub.plain 0%nat)) = 14%nat
  /\ map fst (emitted_pairs (emitted (@MaxRate.main Stub.plain 0%nat)))
     = ([0; 0.05; 0.1; 0.15000000000000002; 0.2; 0.25;
         0.30000000000000004]
        ++ [0; 0.05; 0.1; 0.15000000000000002; 0.2; 0.25;
            0.30000000000000004])%float
  /\ Forall (passes_on 100 8) (emitted (@MaxRate.main Stub.plain 0%nat))
  /\ Forall (triple_is (1 / 3) (1 - 1 / 3 - 1 / 3)%float (1 / 3))
       (emitted (@MaxRate.main Stub.plain 0%nat)).
Proof.
  apply (max_rate_program_makes_fourteen_decoder_calls Stub.plain 0%nat).
  vm_compute. reflexivity.
Defined.

(** * Degenerate codes, the results of a sweep and the end of the grid *)

(** ** Empty sets of logical operators in a sweep *)

Section FeedingFacts.

Context {C : Collaborators}.















End FeedingFacts.




(** ** What the sweeps hand back *)

Section SweepResults.

Context {C : Collaborators}.

(** A loop with local variables whose body returns: the events fall into one
    block per element, and the variables are those the blocks give, one
    after the other. *)
Lemma for_fold_sweep {A S} (B : A -> list (event C) -> Prop)
    (step : S -> A -> list (event C) -> S)
    (xs : list A) (body : S -> A -> M C S) :
  (forall s x w s',
      res (body s x w) = inr s' ->
      B x (emitted (body s x w)) /\ s' = step s x (emitted (body s x w))) ->
  forall s w s',
    res (for_fold xs s body w) = inr s' ->
    exists blocks,
      emitted (for_fold xs s body w) = concat blocks
      /\ Forall2 B xs blocks
      /\ s' = fold_left (fun acc xb => step acc (fst xb) (snd xb))
                        (combine xs blocks) s.
Proof.
  intros Hbody. induction xs as [|x xs IH]; intros s w s' H.
  - simpl in H. injection H as <-. exists []. repeat split. constructor.
  - simpl in H. apply bind_returns in H as (s1 & H1 & H2 & E).
    destruct (Hbody _ _ _ _ H1) as [Hb Hs1].
    destruct (IH _ _ _ H2) as (blocks & E' & HF & Hs').
    exists (emitted (body s x w) :: blocks). split; [|split].
    + simpl for_fold. rewrite E, E'. reflexivity.
    + constructor; assumption.
    + simpl. rewrite <- Hs1. exact Hs'.
Qed.

Lemma fig6b_point_blocks_pairs tensor_list (p_values : list float)
    (blocks : list (list (event C))) :
  Forall2 (fig6b_point_block tensor_list) p_values blocks ->
  map fst (emitted_pairs (concat blocks)) = p_values.
Proof.
  intros HF. induction HF as [|p b ps blocks (rate & ->) _ IH]; simpl.
  - reflexivity.
  - unfold emitted_pairs in *. simpl. rewrite IH. reflexivity.
Qed.

Lemma fig6b_radius_block_pairs p_values R (t : list (event C)) :
  fig6b_radius_block p_values R t ->
  map fst (emitted_pairs t) = p_values.
Proof.
  intros (tensor_list & blocks & -> & HF).
  rewrite emitted_pairs_app, map_app.
  rewrite (fig6b_point_blocks_pairs _ _ _ HF). reflexivity.
Qed.

Lemma fig6b_sweep radii (w : World C) d :
  res (Figs.generate_data_fig6b radii w) = inr d ->
  exists p_values header blocks,
    Figs.fig6b_grid = inr p_values
    /\ emitted (Figs.generate_data_fig6b radii w)
       = EvPrint header :: concat blocks
    /\ Forall2 (fig6b_radius_block p_values) radii blocks
    /\ Forall (fun b => map fst (emitted_pairs b) = p_values) blocks
    /\ d = sweep_dict emitted_pairs radii blocks.
Proof.
  unfold Figs.generate_data_fig6b. intros H.
  apply bind_returns in H as ([] & _ & H & E1).
  apply bind_returns in H as (p_values & Hgrid & H & E2).
  apply (for_fold_sweep (fig6b_radius_block p_values)
           (fun d R t => dict_set R (emitted_pairs t) d)) in H
    as (blocks & E3 & HF & Hd).
  - exists p_values. eexists _, blocks. split; [exact Hgrid|].
    split; [|split; [exact HF|split; [|exact Hd]]].
    + etransitivity; [exact E1|]. simpl. f_equal.
      etransitivity; [exact E2|]. simpl. exact E3.
    + clear - HF. induction HF as [|R b radii blocks Hb _ IH];
        constructor; [|exact IH].
      exact (fig6b_radius_block_pairs _ _ _ Hb).
  - intros s R w' s' Hres. split.
    + exact (fig6b_radius_block_ok _ _ _ _ _ Hres).
    + exact (fig6b_radius_returns_exact _ _ _ _ _ Hres).
Qed.

Lemma fig6a_radius_returns_exact data_storage R (w : World C) d' :
  res (Figs.fig6a_radius data_storage R w) = inr d' ->
  d' = dict_set R
         (erasure_results (emitted (Figs.fig6a_radius data_storage R w)))
         data_storage.
Proof.
  intros Hres.
  destruct (fig6a_radius_returns _ _ _ _ Hres) as (a & results & -> & Hin).
  destruct (fig6a_radius_block_ok _ _ _ _ Hres)
    as (tensor_list & push_results & stabilizers & logicals & z0 & x0
        & results' & _ & _ & E).
  rewrite E in Hin |- *.
  assert (results = results') as <-.
  { simpl in Hin.
    destruct Hin as [Hin|[Hin|[Hin|[Hin|[Hin|[Hin|[]]]]]]];
      try discriminate Hin.
    injection Hin as _ ->. reflexivity. }
  unfold erasure_results. simpl. rewrite app_nil_r. reflexivity.
Qed.

Lemma fig6a_sweep radii (w : World C) d :
  res (Figs.generate_data_fig6a radii w) = inr d ->
  exists header blocks,
    emitted (Figs.generate_data_fig6a radii w)
    = EvPrint header :: concat blocks
    /\ Forall2 fig6a_radius_block radii blocks
    /\ d = sweep_dict erasure_results radii blocks.
Proof.
  unfold Figs.generate_data_fig6a. intros H.
  apply bind_returns in H as ([] & _ & H & E1).
  apply (for_fold_sweep fig6a_radius_block
           (fun d R t => dict_set R (erasure_results t) d)) in H
    as (blocks & E2 & HF & Hd).
  - eexists _, blocks. split; [|split; [exact HF|exact Hd]].
    etransitivity; [exact E1|]. simpl. f_equal. exact E2.
  - intros s R w' s' Hres. split.
    + exact (fig6a_radius_block_ok _ _ _ _ Hres).
    + exact (fig6a_radius_returns_exact _ _ _ _ Hres).
Qed.

Lemma scan_point_blocks_lines tensor_list rx ry rz trials n_process
    stabilizers logicals (p_values : list float)
    (blocks : list (list (event C))) :
  Forall2 (scan_point_block tensor_list rx ry rz trials n_process
                            stabilizers logicals) p_values blocks ->
  printed (concat blocks)
  = map (fun pr => MaxRate.progress_line (fst pr) (snd pr))
        (emitted_pairs (concat blocks)).
Proof.
  intros HF. induction HF as [|p b ps blocks (rate & ->) _ IH]; simpl.
  - reflexivity.
  - unfold printed, emitted_pairs in *. simpl. rewrite IH. reflexivity.
Qed.

Lemma scan_radius_block_lines p_values rx ry rz trials n_process radius
    (t : list (event C)) :
  scan_radius_block p_values rx ry rz trials n_process radius t ->
  exists n_logical,
    printed t
    = scan_radius_lines (MaxRate.header_line radius n_logical)
                        (emitted_pairs t)
    /\ map fst (emitted_pairs t) = p_values.
Proof.
  intros Hb.
  pose proof (scan_radius_block_pairs _ _ _ _ _ _ _ _ Hb) as Hpairs.
  destruct Hb as (tensor_list & push_results & stabilizers & logicals
                  & blocks & -> & HF).
  exists (length (snd logicals)). split; [|exact Hpairs].
  rewrite printed_app, emitted_pairs_app.
  rewrite (scan_point_blocks_lines _ _ _ _ _ _ _ _ _ _ HF).
  reflexivity.
Qed.

Lemma scan_sweep radii p_start p_end p_step trials rx rz n_process
    (w : World C) :
  res (MaxRate.scan_success_rates radii p_start p_end p_step trials rx rz
                                  n_process w) = inr tt ->
  exists p_values blocks,
    MaxRate.noise_grid p_start p_end p_step = inr p_values
    /\ emitted (MaxRate.scan_success_rates radii p_start p_end p_step trials
                                           rx rz n_process w)
       = concat blocks
    /\ Forall2
         (fun R b =>
            exists n_logical,
              printed b
              = scan_radius_lines (MaxRate.header_line R n_logical)
                                  (emitted_pairs b)
              /\ map fst (emitted_pairs b) = p_values)
         radii blocks.
Proof.
  intros Hres.
  destruct (scan_blocks _ _ _ _ _ _ _ _ _ Hres)
    as (p_values & blocks & Hgrid & E & HF).
  exists p_values, blocks. split; [exact Hgrid|]. split; [exact E|].
  clear - HF. induction HF as [|R b radii blocks Hb _ IH];
    constructor; [|exact IH].
  exact (scan_radius_block_lines _ _ _ _ _ _ _ _ Hb).
Qed.

End SweepResults.

(** C8, amended.  The two data generators hand their sweep result to the
    caller, [scan_success_rates] only prints it.  In a run of
    [generate_data_fig6b] that returns, the trace is the opening line and
    then one block of events per radius, in order, and the dictionary
    returned is the one that stores, radius after radius, under the radius
    the (noise value, rate) pairs decoded in the block of that radius, in
    the order of the grid.  In a run of [generate_data_fig6a] that returns,
    the same holds with the sequence the erasure decoder returned in the
    block of the radius.  In a run of [scan_success_rates] that returns
    (its value is [None]), the lines printed for a radius are its header
    and then the progress line of each pair decoded for this radius, in the
    order of the grid. *)
Theorem generators_return_and_scan_prints_the_sweep_result
    (C : Collaborators) (radii : list Z) (w : World C) :
  (forall d,
      res (Figs.generate_data_fig6b radii w) = inr d ->
      exists p_values header blocks,
        Figs.fig6b_grid = inr p_values
        /\ emitted (Figs.generate_data_fig6b radii w)
           = EvPrint header :: concat blocks
        /\ Forall2 (fig6b_radius_block p_values) radii blocks
        /\ Forall (fun b => map fst (emitted_pairs b) = p_values) blocks
        /\ d = sweep_dict emitted_pairs radii blocks)
  /\ (forall d,
         res (Figs.generate_data_fig6a radii w) = inr d ->
         exists header blocks,
           emitted (Figs.generate_data_fig6a radii w)
           = EvPrint header :: concat blocks
           /\ Forall2 fig6a_radius_block radii blocks
           /\ d = sweep_dict erasure_results radii blocks)
  /\ (forall p_start p_end p_step trials rx rz n_process,
         res (MaxRate.scan_success_rates radii p_start p_end p_step trials
                                         rx rz n_process w) = inr tt ->
         exists p_values blocks,
           MaxRate.noise_grid p_start p_end p_step = inr p_values
           /\ emitted (MaxRate.scan_success_rates radii p_start p_end p_step
                                                  trials rx rz n_process w)
              = concat blocks
           /\ Forall2
                (fun R b =>
                   exists n_logical,
                     printed b
                     = scan_radius_lines (MaxRate.header_line R n_logical)
                                         (emitted_pairs b)
                     /\ map fst (emitted_pairs b) = p_values)
                radii blocks).
Proof.
  split; [|split].
  - intros d. apply fig6b_sweep.
  - intros d. apply fig6a_sweep.
  - intros p_start p_end p_step trials rx rz n_process. apply scan_sweep.
Qed.

Lemma generators_return_and_scan_prints_the_sweep_result_witness :
  exists p_values header blocks,
    Figs.fig6b_grid = inr p_values
    /\ emitted (@Figs.generate_data_fig6b Stub.plain [1; 0; 1] 0%nat)
       = EvPrint header :: concat blocks
    /\ Forall2 (fig6b_radius_block p_values) [1; 0; 1] blocks
    /\ Forall (fun b => map fst (emitted_pairs b) = p_values) blocks
    /\ [(1, map (fun p => (p, if (p =? 0)%float then 1%float else 0.5%float))
              [0; 0.071428571428571425; 0.14285714285714285;
               0.21428571428571427; 0.2857142857142857;
               0.3571428571428571; 0.42857142857142855; 0.5]%float);
        (0, map (fun p => (p, if (p =? 0)%float then 1%float else 0.5%float))
              [0; 0.071428571428571425; 0.14285714285714285;
               0.21428571428571427; 0.2857142857142857;
               0.3571428571428571; 0.42857142857142855; 0.5]%float)]
       = sweep_dict emitted_pairs [1; 0; 1] blocks.
Proof.
  apply (proj1 (generators_return_and_scan_prints_the_sweep_result
                  Stub.plain [1; 0; 1] 0%nat)).
  vm_compute. reflexivity.
Defined.

(** ** The grid that passes the end of the range *)

(** C10.  There are inputs with [p_start <= p_end] and [p_step > 0], the
    step not dividing the range evenly, for which the noise grid ends in a
    value strictly above [p_end], and this value is swept like the others.
    From 0 to 0.3 in steps of 0.2 the grid is 0, 0.2, 0.4: in every run of
    [scan_success_rates] on this range that returns, whatever the
    collaborators, the noise values of the decoder calls are 0, 0.2 and 0.4
    for each radius in turn; and on the stand-in collaborators such a run
    does return, with a decoder call at 0.4. *)
Theorem overshooting_grid_point_is_swept :
  exists (p_start p_end p_step : float) (grid : list float) (p_last : float),
    (p_start <=? p_end)%float = true
    /\ (0 <? p_step)%float = true
    /\ F64.evenly_divides p_step p_start p_end = false
    /\ MaxRate.noise_grid p_start p_end p_step = inr grid
    /\ last grid = Some p_last
    /\ (p_end <? p_last)%float = true
    /\ (forall (C : Collaborators) (radii : list Z) (trials : Z)
               (rx rz : float) (n_process : Z) (w : World C),
           res (MaxRate.scan_success_rates radii p_start p_end p_step trials
                                           rx rz n_process w) = inr tt ->
           map fst
               (emitted_pairs
                  (emitted (MaxRate.scan_success_rates radii p_start p_end
                              p_step trials rx rz n_process w)))
           = concat (map (fun _ => grid) radii))
    /\ (let o := @MaxRate.scan_success_rates Stub.plain [0; 1] p_start p_end
                   p_step 100 (1 / 3) (1 / 3) 8 0%nat in
        res o = inr tt
        /\ exists a rate,
             In (EvTNDecoder a (inr rate)) (emitted o) /\ tn_p a = p_last).
Proof.
  exists 0%float, 0.3%float, 0.2%float, [0; 0.2; 0.4]%float, 0.4%float.
  do 6 (split; [vm_compute; reflexivity|]).
  split.
  - intros C radii trials rx rz n_process w Hres.
    destruct (scan_blocks _ _ _ _ _ _ _ _ _ Hres)
      as (ps & blocks & Hgrid & -> & HF).
    assert (ps = [0; 0.2; 0.4]%float) as ->.
    { assert (E : MaxRate.noise_grid 0 0.3 0.2 = inr [0; 0.2; 0.4]%float)
        by (vm_compute; reflexivity).
      rewrite E in Hgrid. injection Hgrid as <-. reflexivity. }
    apply (scan_blocks_pairs _ _ _ _ _ _ _ _ HF).
  - cbv zeta. split; [vm_compute; reflexivity|].
    eexists (MaxRate.decoder_args (C := Stub.plain) 0 0.4 (1 / 3)
               (1 - 1 / 3 - 1 / 3) (1 / 3) 100 8 [0] [0] [0]), 0.5%float.
    split; [|reflexivity].
    vm_compute. do 9 right. left. reflexivity.
Qed.
